(** * Chef ranker: scoring engine and monthly snapshot pipeline

    A shallow embedding of [src/lib/scoring.ts] (weights, breakdown, total
    score, batch re-ranking, monthly snapshots) and of the snapshot route
    [src/app/api/snapshots/route.ts], with the properties stated about them.

    Modelling conventions.
    - A JavaScript [number] is an exact rational ([Q]); rounding to one
      decimal is [Math.round (x * 10) / 10] computed exactly.  NaN and the
      infinities are not represented: [parseInt] returns [None] for NaN, and
      a nullable column is an [option].
    - A JavaScript string is a [string] whose characters are read as code
      units below 256.
    - A plain object used as a dictionary, and a [Map], are [gmap]s.
    - [new Date ()] is read from a [Clock] value passed to the function.
    - The database is an explicit [Store]; a Prisma call is a computation in
      the monad [M], which threads the store and may throw. *)

From Stdlib Require Import Ascii String ZArith QArith Qround Qminmax Lqa.
From Stdlib Require Import Decimal DecimalFacts DecimalString DecimalPos.
From stdpp Require Import base option list sorting gmap strings.

Local Open Scope string_scope.
Local Open Scope list_scope.

(** ** JavaScript primitives used by the scoring module *)

Module JS.

(** Truthiness of a nullable integer: [null], [undefined] and [0] are falsy. *)
Definition truthy (z : option Z) : bool :=
  match z with
  | Some v => negb (v =? 0)%Z
  | None => false
  end.

(** [s || d] for a nullable string: [null] and the empty string are falsy. *)
Definition orString (s : option string) (d : string) : string :=
  match s with
  | Some EmptyString | None => d
  | Some v => v
  end.

(** [v || 0] for a nullable number. *)
Definition orZero (v : option Q) : Q :=
  match v with
  | Some q => q
  | None => 0%Q
  end.

Definition code (c : ascii) : N := N_of_ascii c.

(** White space skipped by [parseInt]: TAB, LF, VT, FF, CR, SP and NBSP. *)
Definition isWhiteSpace (c : ascii) : bool :=
  let n := code c in
  ((9 <=? n) && (n <=? 13) || (n =? 32) || (n =? 160))%N.

Fixpoint trimStart (s : string) : string :=
  match s with
  | String c r => if isWhiteSpace c then trimStart r else s
  | EmptyString => s
  end.

(** Value of a character as a digit in a radix up to 36. *)
Definition digitValue (c : ascii) : option Z :=
  let n := code c in
  if ((48 <=? n) && (n <=? 57))%N then Some (Z.of_N n - 48)%Z
  else if ((97 <=? n) && (n <=? 122))%N then Some (Z.of_N n - 87)%Z
  else if ((65 <=? n) && (n <=? 90))%N then Some (Z.of_N n - 55)%Z
  else None.

(** Longest prefix of radix digits, as an integer; [acc] is [None] until
    a first digit has been read. *)
Fixpoint readDigits (radix : Z) (acc : option Z) (s : string) : option Z :=
  match s with
  | String c r =>
      match digitValue c with
      | Some d =>
          if (d <? radix)%Z
          then readDigits radix (Some (radix * default 0 acc + d)%Z) r
          else acc
      | None => acc
      end
  | EmptyString => acc
  end.

(** [parseInt(s)] without a radix argument; [None] stands for NaN. *)
Definition parseInt (s : string) : option Z :=
  let s1 := trimStart s in
  let '(sign, s2) :=
    match s1 with
    | String "-" r => ((-1)%Z, r)
    | String "+" r => (1%Z, r)
    | _ => (1%Z, s1)
    end in
  let '(radix, s3) :=
    match s2 with
    | String "0" (String "x" r) => (16%Z, r)
    | String "0" (String "X" r) => (16%Z, r)
    | _ => (10%Z, s2)
    end in
  match readDigits radix None s3 with
  | Some n => Some (sign * n)%Z
  | None => None
  end.

(** [Math.round]: the nearest integer, halves towards plus infinity. *)
Definition Math_round (x : Q) : Z := Qfloor (x + (1 # 2)).

(** [s.includes(pat)]. *)
Fixpoint includes (pat s : string) : bool :=
  String.prefix pat s ||
  match s with
  | String _ r => includes pat r
  | EmptyString => false
  end.

(** Case folding of the [i] flag, exact on the ASCII letters of a pattern. *)
Definition lower (c : ascii) : ascii :=
  let n := code c in
  if ((65 <=? n) && (n <=? 90))%N then ascii_of_N (n + 32) else c.

(** The literal [pat] (given in lower case) matches at the start of [s];
    the rest of [s] is returned. *)
Fixpoint matchLit (pat s : string) : option string :=
  match pat with
  | EmptyString => Some s
  | String p pat' =>
      match s with
      | String c s' =>
          if Ascii.eqb (lower c) p then matchLit pat' s' else None
      | EmptyString => None
      end
  end.

(** [.] matches any character except a line terminator. *)
Definition isLineTerminator (c : ascii) : bool :=
  let n := code c in ((n =? 10) || (n =? 13))%N.

(** [.*pat] matches at the start of [s]. *)
Fixpoint matchDotStarLit (pat s : string) : bool :=
  bool_decide (is_Some (matchLit pat s)) ||
  match s with
  | String c s' =>
      if isLineTerminator c then false else matchDotStarLit pat s'
  | EmptyString => false
  end.

(** An unanchored pattern matches somewhere in [s]. *)
Fixpoint search (m : string -> bool) (s : string) : bool :=
  m s ||
  match s with
  | String _ s' => search m s'
  | EmptyString => false
  end.

Definition lit (pat : string) (s : string) : bool :=
  bool_decide (is_Some (matchLit pat s)).

Definition litDotStarLit (p1 p2 : string) (s : string) : bool :=
  match matchLit p1 s with
  | Some r => matchDotStarLit p2 r
  | None => false
  end.

(** [/^\d{4}-\d{2}$/.test(s)]. *)
Definition isDigit (c : ascii) : bool :=
  let n := code c in ((48 <=? n) && (n <=? 57))%N.

Definition testMonthPattern (s : string) : bool :=
  match s with
  | String y1 (String y2 (String y3 (String y4
      (String "-" (String m1 (String m2 EmptyString)))))) =>
      isDigit y1 && isDigit y2 && isDigit y3 && isDigit y4 &&
      isDigit m1 && isDigit m2
  | _ => false
  end.

End JS.

(** ** Records read by the scoring engine *)

(** A reading of the system clock by [calculateBreakdown]: the current
    year, and the time stamp of the current date moved back ten years
    ([setFullYear (getFullYear () - 10)]); [now] is the current time stamp. *)
Module Clock.
Record t := mk { getFullYear : Z; tenYearsAgo : Z; now : Z }.
End Clock.

Module Accolade.
Record t := mk
  { type : string; detail : option string; year : option Z; createdAt : Z }.
End Accolade.

Module CareerEntry.
Record t := mk
  { isCurrent : bool; startYear : option Z; endYear : option Z;
    role : string; createdAt : Z }.
End CareerEntry.

Module PublicSignal.
Record t := mk { platform : string; value : option Q; createdAt : Z }.
End PublicSignal.

Module PeerStanding.
Record t := mk { type : string; createdAt : Z }.
End PeerStanding.

Module ScoreBreakdown.
Record t := mk
  { formalAccolades : Q; careerTrack : Q; publicSignals : Q;
    peerStanding : Q }.
End ScoreBreakdown.

(** The argument of [calculateBreakdown]: a chef with its included records. *)
Module ChefRecords.
Record t := mk
  { accolades : list Accolade.t;
    careerEntries : list CareerEntry.t;
    publicSignals : list PublicSignal.t;
    peerStandings : list PeerStanding.t;
    yearsExperience : option Z }.
End ChefRecords.

(** ** The breakdown calculator *)

Definition num (n : nat) : Q := inject_Z (Z.of_nat n).

Definition round1 (x : Q) : Q := (inject_Z (JS.Math_round (x * 10)) / 10)%Q.

Definition isType (ty : string) (a : Accolade.t) : bool :=
  String.eqb (Accolade.type a) ty.

(** Star count read from one Michelin accolade. *)
Definition stars (m : Accolade.t) : option Z :=
  JS.parseInt (JS.orString (Accolade.detail m) "1").

Definition starScore (m : Accolade.t) : Q :=
  match stars m with
  | Some 3%Z => 100
  | Some 2%Z => 70
  | _ => 40
  end%Q.

Definition scoreMichelinStars (accolades : list Accolade.t) : Q :=
  let michelin := List.filter (isType "MICHELIN_STAR") accolades in
  if (length michelin =? 0)%nat then 0%Q
  else fold_left (fun best m => Qmax best (starScore m)) michelin 0%Q.

Definition scoreAccoladeType
    (accolades : list Accolade.t) (ty : string) (maxScore : Q) : Q :=
  if existsb (isType ty) accolades then maxScore else 0%Q.

Definition recentAccolade (k : Clock.t) (a : Accolade.t) : bool :=
  let cutoffYear := (Clock.getFullYear k - 10)%Z in
  if JS.truthy (Accolade.year a)
  then (cutoffYear <=? default 0 (Accolade.year a))%Z
  else (Clock.tenYearsAgo k <=? Accolade.createdAt a)%Z.

Definition recentCareerEntry (k : Clock.t) (c : CareerEntry.t) : bool :=
  let cutoffYear := (Clock.getFullYear k - 10)%Z in
  CareerEntry.isCurrent c
  || (JS.truthy (CareerEntry.startYear c)
      && (cutoffYear <=? default 0 (CareerEntry.startYear c))%Z)
  || (JS.truthy (CareerEntry.endYear c)
      && (cutoffYear <=? default 0 (CareerEntry.endYear c))%Z)
  || (Clock.tenYearsAgo k <=? CareerEntry.createdAt c)%Z.

Definition recentSignal (k : Clock.t) (s : PublicSignal.t) : bool :=
  (Clock.tenYearsAgo k <=? PublicSignal.createdAt s)%Z.

Definition recentPeer (k : Clock.t) (p : PeerStanding.t) : bool :=
  (Clock.tenYearsAgo k <=? PeerStanding.createdAt p)%Z.

(** [/chef.*owner|executive|head chef|chef de cuisine/i.test(role)]. *)
Definition execRoleTest (role : string) : bool :=
  JS.search
    (fun s =>
       JS.litDotStarLit "chef" "owner" s
       || JS.lit "executive" s
       || JS.lit "head chef" s
       || JS.lit "chef de cuisine" s)
    role.

Definition peerTypeCount (ty : string) (ps : list PeerStanding.t) : nat :=
  length (List.filter (fun p => String.eqb (PeerStanding.type p) ty) ps).

Section Breakdown.
Local Open Scope Q_scope.

Variable k : Clock.t.
Variable chef : ChefRecords.t.

Definition recentAccolades : list Accolade.t :=
  List.filter (recentAccolade k) (ChefRecords.accolades chef).
Definition recentCareer : list CareerEntry.t :=
  List.filter (recentCareerEntry k) (ChefRecords.careerEntries chef).
Definition recentSignals : list PublicSignal.t :=
  List.filter (recentSignal k) (ChefRecords.publicSignals chef).
Definition recentPeers : list PeerStanding.t :=
  List.filter (recentPeer k) (ChefRecords.peerStandings chef).

(** Formal accolades *)
Definition michelinScore : Q := scoreMichelinStars recentAccolades.
Definition jbScore : Q := scoreAccoladeType recentAccolades "JAMES_BEARD" 80.
Definition w50Score : Q :=
  scoreAccoladeType recentAccolades "WORLDS_50_BEST" 90.
Definition bocuseScore : Q :=
  scoreAccoladeType recentAccolades "BOCUSE_DOR" 85.
Definition otherAccoladeScore : Q :=
  scoreAccoladeType recentAccolades "OTHER" 30.

Definition formalAccoladesRaw : Q :=
  Qmin 100
    (Qmax (Qmax (Qmax michelinScore jbScore) w50Score) bocuseScore
     + (if (1 <? length recentAccolades)%nat
        then Qmin 20 ((num (length recentAccolades) - 1) * 5)
        else 0)
     + otherAccoladeScore * (3 # 10)).

(** Career track record *)
Definition years : Q :=
  if JS.truthy (ChefRecords.yearsExperience chef)
  then inject_Z (default 0%Z (ChefRecords.yearsExperience chef))
  else 0.
Definition yearScore : Q := Qmin 40 (years * 2).
Definition positionCount : nat := length recentCareer.
Definition positionScore : Q := Qmin 30 (num positionCount * 6).
Definition hasExecRole : bool :=
  existsb (fun c => execRoleTest (CareerEntry.role c)) recentCareer.
Definition roleScore : Q := if hasExecRole then 30 else 15.

Definition careerTrackRaw : Q :=
  Qmin 100 (yearScore + positionScore + roleScore).

(** Public signals *)
Definition signalCount : nat := length recentSignals.
Definition totalSignalValue : Q :=
  fold_left (fun sum s => sum + JS.orZero (PublicSignal.value s))
    recentSignals 0.

Definition publicSignalsRaw : Q :=
  Qmin 100 (num signalCount * 15 + Qmin 50 (totalSignalValue / 10000)).

(** Peer standing *)
Definition peerCount : nat := length recentPeers.
Definition mentored : nat := peerTypeCount "MENTORED" recentPeers.
Definition collabs : nat := peerTypeCount "COLLABORATION" recentPeers.
Definition endorsements : nat := peerTypeCount "ENDORSEMENT" recentPeers.

Definition peerStandingRaw : Q :=
  Qmin 100
    (num peerCount * 10 + num mentored * 15 + num collabs * 10
     + num endorsements * 12).

Definition calculateBreakdown : ScoreBreakdown.t :=
  {| ScoreBreakdown.formalAccolades := round1 formalAccoladesRaw;
     ScoreBreakdown.careerTrack := round1 careerTrackRaw;
     ScoreBreakdown.publicSignals := round1 publicSignalsRaw;
     ScoreBreakdown.peerStanding := round1 peerStandingRaw |}.

End Breakdown.

(** ** Weights and the total score *)

(** A plain object [{...}] with numeric values.  The [in] operator also
    sees the properties inherited from [Object.prototype]; assigning to an
    inherited data property creates an own one, and assigning a number to
    [__proto__] is ignored by its setter. *)
Module Obj.
Definition prototypeKeys : list string :=
  ["constructor"; "__defineGetter__"; "__defineSetter__"; "hasOwnProperty";
   "__lookupGetter__"; "__lookupSetter__"; "isPrototypeOf";
   "propertyIsEnumerable"; "toString"; "valueOf"; "__proto__";
   "toLocaleString"].

Definition inherited (key : string) : bool :=
  existsb (String.eqb key) prototypeKeys.

Definition has (key : string) (o : gmap string Q) : bool :=
  bool_decide (is_Some (o !! key)) || inherited key.

Definition set (key : string) (v : Q) (o : gmap string Q) : gmap string Q :=
  if String.eqb key "__proto__" then o else <[key := v]> o.

(** Reading a property; a missing one is read as 0 here (it would be
    [undefined]); the four categories are never missing from the maps
    [getWeights] returns. *)
Definition get (key : string) (o : gmap string Q) : Q :=
  default 0%Q (o !! key).
End Obj.

Definition DEFAULT_WEIGHTS : gmap string Q :=
  <["formalAccolades" := (35 # 100)%Q]>
    (<["careerTrack" := (25 # 100)%Q]>
       (<["publicSignals" := (15 # 100)%Q]>
          (<["peerStanding" := (25 # 100)%Q]> ∅))).

Definition categories : list string :=
  ["formalAccolades"; "careerTrack"; "publicSignals"; "peerStanding"].

Definition calculateTotalScore
    (breakdown : ScoreBreakdown.t) (weights : gmap string Q) : Q :=
  let total :=
    (ScoreBreakdown.formalAccolades breakdown
       * Obj.get "formalAccolades" weights
     + ScoreBreakdown.careerTrack breakdown * Obj.get "careerTrack" weights
     + ScoreBreakdown.publicSignals breakdown
       * Obj.get "publicSignals" weights
     + ScoreBreakdown.peerStanding breakdown
       * Obj.get "peerStanding" weights)%Q in
  round1 total.

(** ** The database *)

Module Chef.
(** A row of [Chef] together with the relations every query of the
    scoring module includes. *)
Record t := mk
  { id : string; isArchived : bool; records : ChefRecords.t;
    totalScore : Q; rank : option Z }.

Definition setScore (total : Q) (r : Z) (c : t) : t :=
  mk (id c) (isArchived c) (records c) total (Some r).
End Chef.

Module ScoringWeight.
Record t := mk { category : string; weight : Q }.
End ScoringWeight.

Module MonthlySnapshot.
Record t := mk
  { id : string; month : string; publishedAt : option Z;
    notes : option string }.
End MonthlySnapshot.

Module SnapshotEntry.
(** [breakdown] is the value handed to [JSON.stringify]. *)
Record t := mk
  { snapshotId : string; chefId : string; rank : Z; totalScore : Q;
    breakdown : ScoreBreakdown.t; delta : option Z }.
End SnapshotEntry.

Module Store.
Record t := mk
  { chefs : list Chef.t;
    scoringWeights : list ScoringWeight.t;
    monthlySnapshots : list MonthlySnapshot.t;
    snapshotEntries : list SnapshotEntry.t }.

Definition empty : t := mk [] [] [] [].
End Store.

(** Computations on the store; [None] is a thrown exception, after which
    the store keeps the writes made so far. *)
Definition M (A : Type) : Type := Store.t -> Store.t * option A.

Definition ret {A} (a : A) : M A := fun s => (s, Some a).

Definition throw {A} : M A := fun s => (s, None).

Definition bind {A B} (m : M A) (f : A -> M B) : M B :=
  fun s =>
    match m s with
    | (s', Some a) => f a s'
    | (s', None) => (s', None)
    end.

#[global] Instance M_ret : MRet M := @ret.
#[global] Instance M_bind : MBind M := fun A B f m => bind m f.

(** [for (const x of l) await f(x)]. *)
Fixpoint forEach {A} (f : A -> M unit) (l : list A) : M unit :=
  match l with
  | [] => ret tt
  | x :: r => f x;; forEach f r
  end.

(** [for (let i = i0; i < i0 + l.length; i++) await f(i, l[i - i0])]. *)
Fixpoint forIndexed {A} (f : nat -> A -> M unit) (i : nat) (l : list A)
  : M unit :=
  match l with
  | [] => ret tt
  | x :: r => f i x;; forIndexed f (S i) r
  end.

(** A stable sort: [le x y] says that [x] may stay in front of [y]. *)
Fixpoint insertBy {A} (le : A -> A -> bool) (x : A) (l : list A) : list A :=
  match l with
  | [] => [x]
  | y :: r => if le x y then x :: l else y :: insertBy le x r
  end.

Definition sortBy {A} (le : A -> A -> bool) (l : list A) : list A :=
  foldr (insertBy le) [] l.

(** Identifier generated for a new row ([@default(cuid())]): a string that
    differs from every identifier in use. *)
Definition freshId (used : list string) : string :=
  String "c" (foldr String.append "" used).

Module Prisma.

Definition active (c : Chef.t) : bool := negb (Chef.isArchived c).

(** [chef.findMany ({ where: { isArchived: false } })]: rows come in
    table order. *)
Definition chef_findMany_active : M (list Chef.t) :=
  fun s => (s, Some (List.filter active (Store.chefs s))).

(** Order of a nullable integer column, [NULL] first. *)
Definition rankLe (a b : Chef.t) : bool :=
  match Chef.rank a, Chef.rank b with
  | None, _ => true
  | Some _, None => false
  | Some x, Some y => (x <=? y)%Z
  end.

(** The same query with [orderBy: { rank: "asc" }]. *)
Definition chef_findMany_active_byRank : M (list Chef.t) :=
  fun s => (s, Some (sortBy rankLe (List.filter active (Store.chefs s)))).

Definition hasId (id : string) (c : Chef.t) : bool :=
  String.eqb (Chef.id c) id.

(** [chef.update ({ where: { id }, data: { totalScore, rank } })]; throws
    when no row has this id. *)
Definition chef_update (id : string) (total : Q) (r : Z) : M unit :=
  fun s =>
    if existsb (hasId id) (Store.chefs s)
    then
      (Store.mk
         (map (fun c => if hasId id c then Chef.setScore total r c else c)
            (Store.chefs s))
         (Store.scoringWeights s) (Store.monthlySnapshots s)
         (Store.snapshotEntries s),
       Some tt)
    else (s, None).

Definition scoringWeight_findMany : M (list ScoringWeight.t) :=
  fun s => (s, Some (Store.scoringWeights s)).

Definition ofSnapshot (sid : string) (e : SnapshotEntry.t) : bool :=
  String.eqb (SnapshotEntry.snapshotId e) sid.

Definition hasMonth (month : string) (m : MonthlySnapshot.t) : bool :=
  String.eqb (MonthlySnapshot.month m) month.

(** The row with the greatest month among [l], if any. *)
Definition latest (l : list MonthlySnapshot.t) : option MonthlySnapshot.t :=
  fold_left
    (fun best m =>
       match best with
       | None => Some m
       | Some b =>
           if String.ltb (MonthlySnapshot.month b) (MonthlySnapshot.month m)
           then Some m else best
       end)
    l None.

(** The row and the entries selected by [{ where: { month: { lt: month } },
    orderBy: { month: "desc" }, include: { entries: true } }]. *)
Definition firstBefore (month : string) (s : Store.t)
  : option (MonthlySnapshot.t * list SnapshotEntry.t) :=
  let earlier :=
    List.filter (fun m => String.ltb (MonthlySnapshot.month m) month)
      (Store.monthlySnapshots s) in
  match latest earlier with
  | Some p =>
      Some
        (p,
         List.filter (ofSnapshot (MonthlySnapshot.id p))
           (Store.snapshotEntries s))
  | None => None
  end.

(** [monthlySnapshot.findFirst] with these arguments. *)
Definition monthlySnapshot_findFirst_before (month : string)
  : M (option (MonthlySnapshot.t * list SnapshotEntry.t)) :=
  fun s => (s, Some (firstBefore month s)).

(** The rows after [upsert ({ where: { month }, update: { notes,
    publishedAt }, create: { month, notes, publishedAt } })], and the row
    it returns; an [undefined] value of [notes] leaves the column of an
    existing row as it is. *)
Definition upsertMonth
    (month : string) (notes : option string) (publishedAt : Z)
    (rows : list MonthlySnapshot.t)
  : list MonthlySnapshot.t * MonthlySnapshot.t :=
  match List.find (hasMonth month) rows with
  | Some old =>
      let upd m :=
        MonthlySnapshot.mk (MonthlySnapshot.id m) (MonthlySnapshot.month m)
          (Some publishedAt)
          (match notes with
           | Some n => Some n
           | None => MonthlySnapshot.notes m
           end) in
      (map (fun m => if hasMonth month m then upd m else m) rows, upd old)
  | None =>
      let new :=
        MonthlySnapshot.mk (freshId (map MonthlySnapshot.id rows))
          month (Some publishedAt) notes in
      (rows ++ [new], new)
  end.

(** [monthlySnapshot.upsert] with these arguments. *)
Definition monthlySnapshot_upsert
    (month : string) (notes : option string) (publishedAt : Z)
  : M MonthlySnapshot.t :=
  fun s =>
    let '(rows, snapshot) :=
      upsertMonth month notes publishedAt (Store.monthlySnapshots s) in
    (Store.mk (Store.chefs s) (Store.scoringWeights s) rows
       (Store.snapshotEntries s),
     Some snapshot).

(** [snapshotEntry.deleteMany ({ where: { snapshotId } })]. *)
Definition snapshotEntry_deleteMany (sid : string) : M unit :=
  fun s =>
    (Store.mk (Store.chefs s) (Store.scoringWeights s)
       (Store.monthlySnapshots s)
       (List.filter (fun e => negb (ofSnapshot sid e))
          (Store.snapshotEntries s)),
     Some tt).

Definition sameKey (e e' : SnapshotEntry.t) : bool :=
  String.eqb (SnapshotEntry.snapshotId e') (SnapshotEntry.snapshotId e)
  && String.eqb (SnapshotEntry.chefId e') (SnapshotEntry.chefId e).

(** [snapshotEntry.create ({ data })]; throws when the pair (snapshot,
    chef) already has an entry or when a foreign key has no row. *)
Definition snapshotEntry_create (e : SnapshotEntry.t) : M unit :=
  fun s =>
    if existsb (sameKey e) (Store.snapshotEntries s)
       || negb (existsb (hasId (SnapshotEntry.chefId e)) (Store.chefs s))
       || negb
            (existsb
               (fun m =>
                  String.eqb (MonthlySnapshot.id m)
                    (SnapshotEntry.snapshotId e))
               (Store.monthlySnapshots s))
    then (s, None)
    else
      (Store.mk (Store.chefs s) (Store.scoringWeights s)
         (Store.monthlySnapshots s) (Store.snapshotEntries s ++ [e]),
       Some tt).

(** [monthlySnapshot.findUnique ({ where: { id }, include: { entries:
    { orderBy: { rank: "asc" } } } })]. *)
Definition monthlySnapshot_findUnique (sid : string)
  : M (option (MonthlySnapshot.t * list SnapshotEntry.t)) :=
  fun s =>
    (s,
     Some
       (match
          List.find (fun m => String.eqb (MonthlySnapshot.id m) sid)
            (Store.monthlySnapshots s)
        with
        | Some m =>
            Some
              (m,
               sortBy
                 (fun a b =>
                    (SnapshotEntry.rank a <=? SnapshotEntry.rank b)%Z)
                 (List.filter (ofSnapshot sid) (Store.snapshotEntries s)))
        | None => None
        end)).

End Prisma.

(** ** The scoring module, continued *)

Module Scored.
Record t := mk { id : string; total : Q; breakdown : ScoreBreakdown.t }.
End Scored.

Definition applyRow (weights : gmap string Q) (row : ScoringWeight.t)
  : gmap string Q :=
  if Obj.has (ScoringWeight.category row) weights
  then Obj.set (ScoringWeight.category row) (ScoringWeight.weight row) weights
  else weights.

Definition getWeights : M (gmap string Q) :=
  rows ← Prisma.scoringWeight_findMany;
  if (length rows =? 0)%nat then ret DEFAULT_WEIGHTS
  else ret (fold_left applyRow rows DEFAULT_WEIGHTS).

Definition score (k : Clock.t) (weights : gmap string Q) (chef : Chef.t)
  : Scored.t :=
  let breakdown := calculateBreakdown k (Chef.records chef) in
  let total := calculateTotalScore breakdown weights in
  Scored.mk (Chef.id chef) total breakdown.

(** The comparator [(a, b) => b.total - a.total] is not positive. *)
Definition byTotalDesc (a b : Scored.t) : bool :=
  Qle_bool (Scored.total b) (Scored.total a).

Definition recalculateAllScores (k : Clock.t) : M unit :=
  chefs ← Prisma.chef_findMany_active;
  weights ← getWeights;
  let scored := map (score k weights) chefs in
  let scored := sortBy byTotalDesc scored in
  forIndexed
    (fun i s =>
       Prisma.chef_update (Scored.id s) (Scored.total s)
         (Z.of_nat i + 1)%Z)
    0%nat scored.

Definition prevRankMap
    (prevSnapshot : option (MonthlySnapshot.t * list SnapshotEntry.t))
  : gmap string Z :=
  match prevSnapshot with
  | Some (_, entries) =>
      fold_left
        (fun m entry =>
           <[SnapshotEntry.chefId entry := SnapshotEntry.rank entry]> m)
        entries ∅
  | None => ∅
  end.

(** [prevRank && chef.rank ? prevRank - chef.rank : null]. *)
Definition deltaOf (prevRank : option Z) (rank : option Z) : option Z :=
  if JS.truthy prevRank && JS.truthy rank
  then Some (default 0 prevRank - default 0 rank)%Z
  else None.

(** The body of the loop over the chefs of a snapshot. *)
Definition snapshotChef
    (k : Clock.t) (weights : gmap string Q) (prevRankMap : gmap string Z)
    (snapshot : MonthlySnapshot.t) (chef : Chef.t) : M unit :=
  let breakdown := calculateBreakdown k (Chef.records chef) in
  let total := calculateTotalScore breakdown weights in
  let prevRank := prevRankMap !! Chef.id chef in
  let delta := deltaOf prevRank (Chef.rank chef) in
  match Chef.rank chef with
  | Some r =>
      (* [rank: chef.rank!] *)
      Prisma.snapshotEntry_create
        (SnapshotEntry.mk (MonthlySnapshot.id snapshot) (Chef.id chef)
           r total breakdown delta)
  | None => throw
  end.

Definition createMonthlySnapshot
    (k : Clock.t) (month : string) (notes : option string) : M string :=
  recalculateAllScores k;;
  chefs ← Prisma.chef_findMany_active_byRank;
  weights ← getWeights;
  prevSnapshot ← Prisma.monthlySnapshot_findFirst_before month;
  let prevRanks := prevRankMap prevSnapshot in
  snapshot ← Prisma.monthlySnapshot_upsert month notes (Clock.now k);
  Prisma.snapshotEntry_deleteMany (MonthlySnapshot.id snapshot);;
  forEach (snapshotChef k weights prevRanks snapshot) chefs;;
  ret (MonthlySnapshot.id snapshot).


(** ** The route [POST /api/snapshots] *)

Module SnapshotsRoute.

Record Body := mkBody { month : option string; notes : option string }.

Inductive Response :=
| Json400 (error : string)
| Json201 (snapshot : option (MonthlySnapshot.t * list SnapshotEntry.t))
| Unhandled.

Definition POST (k : Clock.t) (body : Body) (s : Store.t)
  : Store.t * Response :=
  match month body with
  | Some m =>
      (* [!month || !/^\d{4}-\d{2}$/.test(month)] *)
      if String.eqb m "" || negb (JS.testMonthPattern m)
      then (s, Json400 "Invalid month format. Use YYYY-MM.")
      else
        match
          (snapshotId ← createMonthlySnapshot k m (notes body);
           Prisma.monthlySnapshot_findUnique snapshotId) s
        with
        | (s', Some snapshot) => (s', Json201 snapshot)
        | (s', None) => (s', Unhandled)
        end
  | None => (s, Json400 "Invalid month format. Use YYYY-MM.")
  end.

End SnapshotsRoute.

(** ** Further code: siblings and callers of the scoring module *)

(** *** Numbers as text *)

Module JSNumber.

(** [Number.MAX_SAFE_INTEGER], 2^53 - 1. *)
Definition MAX_SAFE_INTEGER : Z := 9007199254740991.

(** [String(n)], also [`${n}`], for an integer [n] with
    [-MAX_SAFE_INTEGER <= n <= MAX_SAFE_INTEGER], where it is the decimal
    numeral of [n].  A larger integer need not be a number of JavaScript,
    and from 1e21 on a number is printed with an exponent: the definition
    says nothing about these, and the properties stay inside the range. *)
Definition toString (n : Z) : string := NilZero.string_of_int (Z.to_int n).

Fixpoint repeat (c : ascii) (n : nat) : string :=
  match n with
  | O => EmptyString
  | S m => String c (repeat c m)
  end.

(** [s.padStart(targetLength, pad)] for a pad of one character. *)
Definition padStart (targetLength : nat) (pad : ascii) (s : string) : string :=
  String.append (repeat pad (targetLength - String.length s)) s.

End JSNumber.

(** *** [src/lib/utils.ts] *)

Module Utils.

(** The two readings [getCurrentMonth] takes from [new Date ()]. *)
Record Today := mkToday { getFullYear : Z; getMonth : Z }.

Definition getCurrentMonth (now : Today) : string :=
  String.append (JSNumber.toString (getFullYear now))
    (String.append "-"
       (JSNumber.padStart 2 "0" (JSNumber.toString (getMonth now + 1)))).

End Utils.

(** *** [src/lib/collectors/michelin.ts] *)

Module MichelinCollector.

(** The detail both searches write for a star count:
    [`${stars} star${stars > 1 ? "s" : ""}`]; [stars] is an integer within
    the range of [JSNumber.toString]. *)
Definition detail (stars : Z) : string :=
  String.append (JSNumber.toString stars)
    (String.append " star" (if (1 <? stars)%Z then "s" else "")).

(** The accolade pushed for a positive star count, as it is stored (the
    orchestrator adds no year). *)
Definition accolade (stars : Z) (createdAt : Z) : Accolade.t :=
  Accolade.mk "MICHELIN_STAR" (Some (detail stars)) None createdAt.

End MichelinCollector.

(** *** [src/lib/scoring-client.ts] *)

Module ScoringClient.
Section Client.
Local Open Scope Q_scope.

Variable chef : ChefRecords.t.

Definition michelinScore : Q :=
  fold_left (fun michelinScore m => Qmax michelinScore (starScore m))
    (List.filter (isType "MICHELIN_STAR") (ChefRecords.accolades chef)) 0.

Definition has (ty : string) : bool :=
  existsb (isType ty) (ChefRecords.accolades chef).

Definition formalAccolades : Q :=
  let jbScore := if has "JAMES_BEARD" then 80 else 0 in
  let w50Score := if has "WORLDS_50_BEST" then 90 else 0 in
  let bocuseScore := if has "BOCUSE_DOR" then 85 else 0 in
  let otherScore := if has "OTHER" then 30 else 0 in
  Qmin 100
    (Qmax (Qmax (Qmax michelinScore jbScore) w50Score) bocuseScore
     + (if (1 <? length (ChefRecords.accolades chef))%nat
        then Qmin 20 ((num (length (ChefRecords.accolades chef)) - 1) * 5)
        else 0)
     + otherScore * (3 # 10)).

Definition careerTrack : Q :=
  let years :=
    if JS.truthy (ChefRecords.yearsExperience chef)
    then inject_Z (default 0%Z (ChefRecords.yearsExperience chef))
    else 0 in
  let yearScore := Qmin 40 (years * 2) in
  let positionScore :=
    Qmin 30 (num (length (ChefRecords.careerEntries chef)) * 6) in
  let hasExecRole :=
    existsb (fun c => execRoleTest (CareerEntry.role c))
      (ChefRecords.careerEntries chef) in
  Qmin 100 (yearScore + positionScore + (if hasExecRole then 30 else 15)).

Definition publicSignals : Q :=
  let signalCount := length (ChefRecords.publicSignals chef) in
  let totalSignalValue :=
    fold_left (fun sum s => sum + JS.orZero (PublicSignal.value s))
      (ChefRecords.publicSignals chef) 0 in
  Qmin 100 (num signalCount * 15 + Qmin 50 (totalSignalValue / 10000)).

Definition peerStanding : Q :=
  let peerCount := length (ChefRecords.peerStandings chef) in
  let mentored := peerTypeCount "MENTORED" (ChefRecords.peerStandings chef) in
  let collabs :=
    peerTypeCount "COLLABORATION" (ChefRecords.peerStandings chef) in
  let endorsements :=
    peerTypeCount "ENDORSEMENT" (ChefRecords.peerStandings chef) in
  Qmin 100
    (num peerCount * 10 + num mentored * 15 + num collabs * 10
     + num endorsements * 12).

Definition calculateBreakdownClient : ScoreBreakdown.t :=
  {| ScoreBreakdown.formalAccolades := round1 formalAccolades;
     ScoreBreakdown.careerTrack := round1 careerTrack;
     ScoreBreakdown.publicSignals := round1 publicSignals;
     ScoreBreakdown.peerStanding := round1 peerStanding |}.

End Client.
End ScoringClient.

(** *** More Prisma calls *)

Module PrismaMore.


Definition hasCategory (category : string) (row : ScoringWeight.t) : bool :=
  String.eqb (ScoringWeight.category row) category.

(** The rows after [upsert ({ where: { category }, update: { weight },
    create: { category, weight } })]. *)
Definition upsertWeight
    (category : string) (weight : Q) (rows : list ScoringWeight.t)
  : list ScoringWeight.t :=
  if existsb (hasCategory category) rows
  then
    map
      (fun row =>
         if hasCategory category row
         then ScoringWeight.mk (ScoringWeight.category row) weight
         else row)
      rows
  else rows ++ [ScoringWeight.mk category weight].

Definition scoringWeight_upsert (category : string) (weight : Q) : M unit :=
  fun s =>
    (Store.mk (Store.chefs s)
       (upsertWeight category weight (Store.scoringWeights s))
       (Store.monthlySnapshots s) (Store.snapshotEntries s),
     Some tt).

(** Order of [orderBy: { month: "desc" }]: [a] may stay in front of [b]. *)
Definition monthDesc (a b : MonthlySnapshot.t) : bool :=
  negb (String.ltb (MonthlySnapshot.month a) (MonthlySnapshot.month b)).

Definition countEntries (s : Store.t) (m : MonthlySnapshot.t) : nat :=
  length
    (List.filter (Prisma.ofSnapshot (MonthlySnapshot.id m))
       (Store.snapshotEntries s)).

(** [monthlySnapshot.findMany ({ orderBy: { month: "desc" }, include:
    { _count: { select: { entries: true } } } })]. *)
Definition monthlySnapshot_findMany_withCount
  : M (list (MonthlySnapshot.t * nat)) :=
  fun s =>
    (s,
     Some
       (map (fun m => (m, countEntries s m))
          (sortBy monthDesc (Store.monthlySnapshots s)))).

(** [monthlySnapshot.findUnique ({ where: { id }, include: { _count:
    { select: { entries: true } } } })]. *)
Definition monthlySnapshot_findUnique_withCount (id : string)
  : M (option (MonthlySnapshot.t * nat)) :=
  fun s =>
    (s,
     Some
       (match
          List.find (fun m => String.eqb (MonthlySnapshot.id m) id)
            (Store.monthlySnapshots s)
        with
        | Some m => Some (m, countEntries s m)
        | None => None
        end)).

(** [monthlySnapshot.delete ({ where: { id } })]; throws when no row has
    this id; the entries of the row go with it ([ON DELETE CASCADE]). *)
Definition monthlySnapshot_delete (id : string) : M unit :=
  fun s =>
    if existsb (fun m => String.eqb (MonthlySnapshot.id m) id)
         (Store.monthlySnapshots s)
    then
      (Store.mk (Store.chefs s) (Store.scoringWeights s)
         (List.filter (fun m => negb (String.eqb (MonthlySnapshot.id m) id))
            (Store.monthlySnapshots s))
         (List.filter (fun e => negb (Prisma.ofSnapshot id e))
            (Store.snapshotEntries s)),
       Some tt)
    else (s, None).

(** [monthlySnapshot.findFirst ({ where: { month } })]. *)
Definition monthlySnapshot_findFirst_month (month : string)
  : M (option MonthlySnapshot.t) :=
  fun s =>
    (s, Some (List.find (Prisma.hasMonth month) (Store.monthlySnapshots s))).

End PrismaMore.

(** *** [calculateChefScore] of the scoring module *)

Module ChefScore.
Record t := mk { total : Q; breakdown : ScoreBreakdown.t }.
End ChefScore.


(** *** [createMonthlySnapshot], the clock read anew for every entry

    [calculateBreakdown] reads [new Date ()] at each call, so the calls in
    the loop over the chefs can see a later time than the batch saw.  Here
    [k] is the reading of the batch and of the upsert, as in
    [recalculateAllScores k], and [entryClock id] is the reading at the
    call of the loop that scores the chef [id].  [createMonthlySnapshot k]
    is the case of a clock that does not move during the call. *)

Definition createMonthlySnapshotAt
    (k : Clock.t) (entryClock : string -> Clock.t)
    (month : string) (notes : option string) : M string :=
  recalculateAllScores k;;
  chefs ← Prisma.chef_findMany_active_byRank;
  weights ← getWeights;
  prevSnapshot ← Prisma.monthlySnapshot_findFirst_before month;
  let prevRanks := prevRankMap prevSnapshot in
  snapshot ← Prisma.monthlySnapshot_upsert month notes (Clock.now k);
  Prisma.snapshotEntry_deleteMany (MonthlySnapshot.id snapshot);;
  forEach
    (fun chef =>
       snapshotChef (entryClock (Chef.id chef)) weights prevRanks snapshot
         chef)
    chefs;;
  ret (MonthlySnapshot.id snapshot).

(** *** The route [/api/scoring] *)

Module ScoringRoute.

Definition GET : M (gmap string Q) := getWeights.

(** The body of [PUT] is an object whose values, where present, are
    numbers. *)
Definition PUT (k : Clock.t) (body : gmap string Q) : M (gmap string Q) :=
  forEach
    (fun cat =>
       match body !! cat with
       | Some weight => PrismaMore.scoringWeight_upsert cat weight
       | None => ret tt
       end)
    ["formalAccolades"; "careerTrack"; "publicSignals"; "peerStanding"];;
  recalculateAllScores k;;
  getWeights.

End ScoringRoute.

(** *** The routes [GET /api/snapshots] and [GET /api/snapshots/:id] *)

Module SnapshotsQueries.

Definition GET : M (list (MonthlySnapshot.t * nat)) :=
  PrismaMore.monthlySnapshot_findMany_withCount.

Inductive Response :=
| Json404 (error : string)
| Json200 (snapshot : MonthlySnapshot.t) (entries : list SnapshotEntry.t).

(** The columns of the chef joined to each entry are not part of the
    model. *)
Definition GET_id (id : string) : M Response :=
  snapshot ← Prisma.monthlySnapshot_findUnique id;
  match snapshot with
  | None => ret (Json404 "Snapshot not found")
  | Some (snapshot, entries) => ret (Json200 snapshot entries)
  end.

End SnapshotsQueries.

(** *** The end-to-end check [snapshotTest] of the health route *)

Module E2E.

(** The detail of a step: a text, or the message of the error caught. *)
Inductive Detail :=
| Text (text : string)
| ErrorMessage.

Record TestStep := mkStep
  { step : nat; description : string; passed : bool;
    detail : option Detail }.

(** The variables of [snapshotTest] that its [catch] and [finally] read. *)
Record Locals := mkLocals
  { steps : list TestStep; testSnapshotId : option string }.

(** Computations on the locals and the store; an exception keeps both. *)
Definition T (A : Type) : Type :=
  Locals -> Store.t -> Locals * Store.t * option A.

#[global] Instance T_ret : MRet T := fun A a l s => (l, s, Some a).

#[global] Instance T_bind : MBind T :=
  fun A B f m l s =>
    match m l s with
    | (l', s', Some a) => f a l' s'
    | (l', s', None) => (l', s', None)
    end.

Definition lift {A} (m : M A) : T A :=
  fun l s => let '(s', r) := m s in (l, s', r).

(** [steps.push(t)]. *)
Definition push (t : TestStep) : T unit :=
  fun l s => (mkLocals (steps l ++ [t]) (testSnapshotId l), s, Some tt).

Definition setTestSnapshotId (id : option string) : T unit :=
  fun l s => (mkLocals (steps l) id, s, Some tt).

Definition locals : T Locals := fun l s => (l, s, Some l).

(** [try { body } catch { handler } finally { final }]. *)
Definition tryCatchFinally (body handler final : T unit) : T unit :=
  fun l s =>
    match body l s with
    | (l1, s1, Some _) => final l1 s1
    | (l1, s1, None) =>
        match handler l1 s1 with
        | (l2, s2, Some _) => final l2 s2
        | (l2, s2, None) =>
            match final l2 s2 with
            | (l3, s3, _) => (l3, s3, None)
            end
        end
    end.

(** [m.catch(() => {})]. *)
Definition swallow (m : T unit) : T unit :=
  fun l s => match m l s with (l', s', _) => (l', s', Some tt) end.

Definition testMonth : string := "1999-01".

(** The notes of the test snapshot; the text is only stored. *)
Definition testNotes : string := "E2E test snapshot — DELETE ME".

(** [`${snapshot?._count.entries} entries`]. *)
Definition entriesText (snapshot : option (MonthlySnapshot.t * nat))
  : string :=
  String.append
    (match snapshot with
     | Some (_, n) => JSNumber.toString (Z.of_nat n)
     | None => "undefined"
     end)
    " entries".

Definition body (k : Clock.t) : T unit :=
  lift (recalculateAllScores k);;
  push (mkStep 1 "Recalculate all scores" true None);;
  id ← lift (createMonthlySnapshot k testMonth (Some testNotes));
  setTestSnapshotId (Some id);;
  push (mkStep 2 "Create test snapshot" (negb (String.eqb id "")) None);;
  snapshot ← lift (PrismaMore.monthlySnapshot_findUnique_withCount id);
  push
    (mkStep 3 "Verify snapshot saved"
       (match snapshot with
        | Some (_, n) => (0 <? n)%nat
        | None => false
        end)
       (Some (Text (entriesText snapshot))));;
  lift (Prisma.snapshotEntry_deleteMany id);;
  lift (PrismaMore.monthlySnapshot_delete id);;
  setTestSnapshotId None;;
  push (mkStep 4 "Delete test snapshot" true None);;
  deleted ← lift (PrismaMore.monthlySnapshot_findFirst_month testMonth);
  push
    (mkStep 5 "Verify snapshot deleted"
       (match deleted with Some _ => false | None => true end) None).

Definition handler : T unit :=
  l ← locals;
  push
    (mkStep (length (steps l) + 1) "Unexpected error" false
       (Some ErrorMessage)).

Definition final : T unit :=
  l ← locals;
  match testSnapshotId l with
  | Some id =>
      if String.eqb id "" then mret tt
      else
        swallow (lift (Prisma.snapshotEntry_deleteMany id));;
        swallow (lift (PrismaMore.monthlySnapshot_delete id))
  | None => mret tt
  end.

Record Result := mkResult { resultSteps : list TestStep; resultPassed : bool }.

Definition snapshotTest (k : Clock.t) (s : Store.t)
  : Store.t * option Result :=
  match tryCatchFinally (body k) handler final (mkLocals [] None) s with
  | (l, s', Some _) =>
      (s', Some (mkResult (steps l) (forallb passed (steps l))))
  | (_, s', None) => (s', None)
  end.

End E2E.

(** ** Vocabulary of the properties *)

(** The star count of a Michelin accolade, read by [parseInt], is [n]. *)
Definition starsAre (n : Z) (m : Accolade.t) : bool :=
  match stars m with
  | Some z => (z =? n)%Z
  | None => false
  end.

Definition michelinWith (n : Z) (a : Accolade.t) : bool :=
  isType "MICHELIN_STAR" a && starsAre n a.

(** The detail of a Michelin accolade contains the text [digit]. *)
Definition michelinContaining (digit : string) (a : Accolade.t) : bool :=
  isType "MICHELIN_STAR" a
  && match Accolade.detail a with
     | Some d => JS.includes digit d
     | None => false
     end.

Definition michelinLevels : list Q := [0; 40; 70; 100]%Q.

(** Two clock readings select the same records of a chef. *)
Definition sameWindow (k1 k2 : Clock.t) (chef : ChefRecords.t) : Prop :=
  (forall a, In a (ChefRecords.accolades chef) ->
             recentAccolade k1 a = recentAccolade k2 a)
  /\ (forall c, In c (ChefRecords.careerEntries chef) ->
                recentCareerEntry k1 c = recentCareerEntry k2 c)
  /\ (forall s, In s (ChefRecords.publicSignals chef) ->
                recentSignal k1 s = recentSignal k2 s)
  /\ (forall p, In p (ChefRecords.peerStandings chef) ->
                recentPeer k1 p = recentPeer k2 p).

Definition categorySet : gset string := list_to_set categories.

(** The weight of the last row of a category, if any. *)
Definition storedWeight (c : string) (rows : list ScoringWeight.t)
  : option Q :=
  ScoringWeight.weight
    <$> List.find (fun r => String.eqb (ScoringWeight.category r) c)
          (rev rows).

(** [x] occurs in front of [y] in [l]. *)
Definition before {A} (x y : A) (l : list A) : Prop :=
  exists l1 l2 l3, l = l1 ++ x :: l2 ++ y :: l3.

(** Identifiers of all chefs, and the rows a batch works on. *)
Definition chefIds (s : Store.t) : list string := map Chef.id (Store.chefs s).

Definition activeChefs (s : Store.t) : list Chef.t :=
  List.filter Prisma.active (Store.chefs s).

Definition withChefs (cs : list Chef.t) (s : Store.t) : Store.t :=
  Store.mk cs (Store.scoringWeights s) (Store.monthlySnapshots s)
    (Store.snapshotEntries s).

(** The weights in effect in a store. *)
Definition weightsOf (s : Store.t) : gmap string Q :=
  if (length (Store.scoringWeights s) =? 0)%nat then DEFAULT_WEIGHTS
  else fold_left applyRow (Store.scoringWeights s) DEFAULT_WEIGHTS.

(** The scored rows of a batch, in the order the ranks are given. *)
Definition ranking (k : Clock.t) (s : Store.t) : list Scored.t :=
  sortBy byTotalDesc (map (score k (weightsOf s)) (activeChefs s)).

(** Index and row of an identifier in a list of scored rows. *)
Fixpoint position (id : string) (scored : list Scored.t)
  : option (nat * Scored.t) :=
  match scored with
  | [] => None
  | x :: r =>
      if String.eqb (Scored.id x) id then Some (0%nat, x)
      else match position id r with
           | Some (j, y) => Some (S j, y)
           | None => None
           end
  end.

(** What the loop of updates starting at index [i] does to one chef. *)
Definition rankChef (i : nat) (scored : list Scored.t) (c : Chef.t) : Chef.t :=
  match position (Chef.id c) scored with
  | Some (j, x) => Chef.setScore (Scored.total x) (Z.of_nat (i + j) + 1) c
  | None => c
  end.

(** Months of the snapshots of a store. *)
Definition months (s : Store.t) : list string :=
  map MonthlySnapshot.month (Store.monthlySnapshots s).

(** [p] is the latest snapshot of [s] whose month is less than [month] in
    the lexicographic order of strings. *)
Definition immediatelyPreceding
    (month : string) (s : Store.t) (p : MonthlySnapshot.t) : Prop :=
  In p (Store.monthlySnapshots s)
  /\ String.ltb (MonthlySnapshot.month p) month = true
  /\ forall m, In m (Store.monthlySnapshots s) ->
       String.ltb (MonthlySnapshot.month m) month = true ->
       String.ltb (MonthlySnapshot.month p) (MonthlySnapshot.month m) = false.

(** No snapshot of [s] has a month less than [month]. *)
Definition noneBefore (month : string) (s : Store.t) : Prop :=
  forall m, In m (Store.monthlySnapshots s) ->
    String.ltb (MonthlySnapshot.month m) month = false.

Definition entryFor (sid chefId : string) (e : SnapshotEntry.t) : bool :=
  Prisma.ofSnapshot sid e && String.eqb (SnapshotEntry.chefId e) chefId.

(** The rank of a chef in the snapshot [p], if the chef has an entry there
    (the last one, should the table hold several). *)
Definition priorRank (p : MonthlySnapshot.t) (chefId : string) (s : Store.t)
  : option Z :=
  SnapshotEntry.rank
    <$> List.find (entryFor (MonthlySnapshot.id p) chefId)
          (rev (Store.snapshotEntries s)).

(** The entries of one snapshot. *)
Definition entriesOf (sid : string) (s : Store.t) : list SnapshotEntry.t :=
  List.filter (Prisma.ofSnapshot sid) (Store.snapshotEntries s).

(** The rows of a month. *)
Definition snapshotsOf (month : string) (s : Store.t)
  : list MonthlySnapshot.t :=
  List.filter (Prisma.hasMonth month) (Store.monthlySnapshots s).

Definition chefsByRank (s : Store.t) : list Chef.t :=
  sortBy Prisma.rankLe (activeChefs s).

(** The entry [createMonthlySnapshot] writes for one chef. *)
Definition entryOf
    (k : Clock.t) (weights : gmap string Q) (prevRanks : gmap string Z)
    (sid : string) (chef : Chef.t) : SnapshotEntry.t :=
  let breakdown := calculateBreakdown k (Chef.records chef) in
  SnapshotEntry.mk sid (Chef.id chef) (default 0%Z (Chef.rank chef))
    (calculateTotalScore breakdown weights) breakdown
    (deltaOf (prevRanks !! Chef.id chef) (Chef.rank chef)).

(** Constraints of the schema and of the writers of the tables: chef
    identifiers and snapshot months are unique, and every snapshot entry
    holds a rank of at least 1, as [createMonthlySnapshot] writes them. *)
Definition storeOk (s : Store.t) : Prop :=
  NoDup (chefIds s)
  /\ NoDup (months s)
  /\ Forall (fun e => (1 <= SnapshotEntry.rank e)%Z) (Store.snapshotEntries s).

Definition withEntries (es : list SnapshotEntry.t) (s : Store.t) : Store.t :=
  Store.mk (Store.chefs s) (Store.scoringWeights s)
    (Store.monthlySnapshots s) es.

(** Stores used as examples: five chefs, one of them archived, before any
    snapshot; the same after the snapshot of January 2026; and that store
    after one chef was archived, one restored and one added. *)
Definition sampleClock : Clock.t := Clock.mk 2026 1000 2000.

Definition sampleChef (id : string) (archived : bool) (years : Z) : Chef.t :=
  Chef.mk id archived (ChefRecords.mk [] [] [] [] (Some years)) 0 None.

Definition sampleStore : Store.t :=
  Store.mk
    [sampleChef "a" false 3; sampleChef "b" false 10; sampleChef "z" true 7;
     sampleChef "c" false 3; sampleChef "d" false 20]
    [] [] [].

Definition publishedStore : Store.t :=
  (createMonthlySnapshot sampleClock "2026-01" None sampleStore).1.

Definition changedStore : Store.t :=
  withChefs
    [sampleChef "a" false 3; sampleChef "b" true 10; sampleChef "z" false 30;
     sampleChef "c" false 3; sampleChef "d" false 20; sampleChef "e" false 1]
    publishedStore.


(** The chef as the client scorer sees it when it is handed only the
    records inside the ten-year window. *)
Definition windowed (k : Clock.t) (chef : ChefRecords.t) : ChefRecords.t :=
  ChefRecords.mk (recentAccolades k chef) (recentCareer k chef)
    (recentSignals k chef) (recentPeers k chef)
    (ChefRecords.yearsExperience chef).

(** [chef'] is [chef] with the accolade [a] added. *)
Definition withAccolade
    (a : Accolade.t) (chef chef' : ChefRecords.t) : Prop :=
  (exists l1 l2,
      ChefRecords.accolades chef = l1 ++ l2
      /\ ChefRecords.accolades chef' = l1 ++ a :: l2)
  /\ ChefRecords.careerEntries chef' = ChefRecords.careerEntries chef
  /\ ChefRecords.publicSignals chef' = ChefRecords.publicSignals chef
  /\ ChefRecords.peerStandings chef' = ChefRecords.peerStandings chef
  /\ ChefRecords.yearsExperience chef' = ChefRecords.yearsExperience chef.

(** Weights that are not negative and sum to at most 1. *)
Definition weightsNonneg (w : gmap string Q) : Prop :=
  (0 <= Obj.get "formalAccolades" w)%Q
  /\ (0 <= Obj.get "careerTrack" w)%Q
  /\ (0 <= Obj.get "publicSignals" w)%Q
  /\ (0 <= Obj.get "peerStanding" w)%Q.

Definition weightsSum (w : gmap string Q) : Q :=
  (Obj.get "formalAccolades" w + Obj.get "careerTrack" w
   + Obj.get "publicSignals" w + Obj.get "peerStanding" w)%Q.

(** Every record of the chef is inside the ten-year window. *)
Definition allRecent (k : Clock.t) (chef : ChefRecords.t) : Prop :=
  forallb (recentAccolade k) (ChefRecords.accolades chef) = true
  /\ forallb (recentCareerEntry k) (ChefRecords.careerEntries chef) = true
  /\ forallb (recentSignal k) (ChefRecords.publicSignals chef) = true
  /\ forallb (recentPeer k) (ChefRecords.peerStandings chef) = true.

(** The number a decimal numeral denotes, read from the left on top of
    [acc]. *)
Fixpoint valueAcc (d : Decimal.uint) (acc : Z) : Z :=
  match d with
  | Decimal.Nil => acc
  | Decimal.D0 l => valueAcc l (10 * acc + 0)
  | Decimal.D1 l => valueAcc l (10 * acc + 1)
  | Decimal.D2 l => valueAcc l (10 * acc + 2)
  | Decimal.D3 l => valueAcc l (10 * acc + 3)
  | Decimal.D4 l => valueAcc l (10 * acc + 4)
  | Decimal.D5 l => valueAcc l (10 * acc + 5)
  | Decimal.D6 l => valueAcc l (10 * acc + 6)
  | Decimal.D7 l => valueAcc l (10 * acc + 7)
  | Decimal.D8 l => valueAcc l (10 * acc + 8)
  | Decimal.D9 l => valueAcc l (10 * acc + 9)
  end%Z.

(** Year and month number written in a month string. *)
Definition digitOf (c : ascii) : Z := (Z.of_N (JS.code c) - 48)%Z.

Definition yearOf (month : string) : Z :=
  match month with
  | String y1 (String y2 (String y3 (String y4 _))) =>
      (1000 * digitOf y1 + 100 * digitOf y2 + 10 * digitOf y3 + digitOf y4)%Z
  | _ => 0%Z
  end.

Definition monthOf (month : string) : Z :=
  match month with
  | String _ (String _ (String _ (String _ (String _
      (String m1 (String m2 _)))))) => (10 * digitOf m1 + digitOf m2)%Z
  | _ => 0%Z
  end.

(** The string consists of decimal digits only. *)
Definition allDigits (s : string) : bool :=
  forallb JS.isDigit (list_ascii_of_string s).

(** The order of a nullable rank column, [NULL] first. *)
Definition rankOrder (a b : option Z) : Prop :=
  match a, b with
  | None, _ => True
  | Some _, None => False
  | Some x, Some y => (x <= y)%Z
  end.

(** Identifiers of the snapshots of a store. *)
Definition snapshotIds (s : Store.t) : list string :=
  map MonthlySnapshot.id (Store.monthlySnapshots s).

(** What an entry records of a chef, and what a scored row holds. *)
Definition entryScore (e : SnapshotEntry.t) : string * Q * ScoreBreakdown.t :=
  (SnapshotEntry.chefId e, SnapshotEntry.totalScore e,
   SnapshotEntry.breakdown e).

Definition scoredRow (x : Scored.t) : string * Q * ScoreBreakdown.t :=
  (Scored.id x, Scored.total x, Scored.breakdown x).

(** The store with other rows of weights, and the rows after the upserts
    [PUT /api/scoring] makes for the categories [cats]. *)
Definition withWeights (rows : list ScoringWeight.t) (s : Store.t) : Store.t :=
  Store.mk (Store.chefs s) rows (Store.monthlySnapshots s)
    (Store.snapshotEntries s).

Definition putRows
    (body : gmap string Q) (cats : list string) (rows : list ScoringWeight.t)
  : list ScoringWeight.t :=
  fold_left
    (fun rows cat =>
       match body !! cat with
       | Some weight => PrismaMore.upsertWeight cat weight rows
       | None => rows
       end)
    cats rows.

(** The constraints the schema puts on the four tables: the primary keys
    of chefs and snapshots, the unique indexes on the category of a weight,
    on the month of a snapshot and on the pair (snapshot, chef) of an
    entry, and the two foreign keys of an entry. *)
Definition entryKey (e : SnapshotEntry.t) : string * string :=
  (SnapshotEntry.snapshotId e, SnapshotEntry.chefId e).

Definition schemaOk (s : Store.t) : Prop :=
  NoDup (chefIds s)
  /\ NoDup (map ScoringWeight.category (Store.scoringWeights s))
  /\ NoDup (snapshotIds s)
  /\ NoDup (months s)
  /\ NoDup (map entryKey (Store.snapshotEntries s))
  /\ Forall
       (fun e =>
          In (SnapshotEntry.snapshotId e) (snapshotIds s)
          /\ In (SnapshotEntry.chefId e) (chefIds s))
       (Store.snapshotEntries s).

(** [chef'] has every record of [chef], in the same order, and maybe
    more, and at least as much experience. *)
Definition moreData (chef chef' : ChefRecords.t) : Prop :=
  sublist (ChefRecords.accolades chef) (ChefRecords.accolades chef')
  /\ sublist (ChefRecords.careerEntries chef)
       (ChefRecords.careerEntries chef')
  /\ sublist (ChefRecords.publicSignals chef)
       (ChefRecords.publicSignals chef')
  /\ sublist (ChefRecords.peerStandings chef)
       (ChefRecords.peerStandings chef')
  /\ (years chef <= years chef')%Q.

(** * Properties *)

(** ** Rounding to one decimal *)

Section Rounding.
Local Open Scope Q_scope.

Lemma Qfloor_half (n : Z) : Qfloor (inject_Z n + (1 # 2)) = n.
Proof.
  unfold Qfloor, Qplus, inject_Z; simpl.
  symmetry; apply (Z.div_unique _ _ _ 1%Z); lia.
Qed.

Lemma round1_integer (n : Z) : round1 (inject_Z n) == inject_Z n.
Proof.
  unfold round1, JS.Math_round.
  assert (E : inject_Z n * 10 + (1 # 2) == inject_Z (n * 10) + (1 # 2)).
  { rewrite inject_Z_mult. reflexivity. }
  rewrite (Qfloor_comp _ _ E), Qfloor_half, inject_Z_mult. field.
Qed.

Lemma round1_lower (n : Z) (x : Q) : inject_Z n <= x -> inject_Z n <= round1 x.
Proof.
  intros H. unfold round1, JS.Math_round.
  assert (L : (n * 10 <= Qfloor (x * 10 + (1 # 2)))%Z).
  { rewrite <- (Qfloor_half (n * 10)). apply Qfloor_resp_le.
    rewrite inject_Z_mult. change (inject_Z 10) with 10. lra. }
  rewrite Zle_Qle, inject_Z_mult in L. change (inject_Z 10) with 10 in L.
  apply Qle_shift_div_l; [reflexivity | exact L].
Qed.

Lemma round1_upper (n : Z) (x : Q) : x <= inject_Z n -> round1 x <= inject_Z n.
Proof.
  intros H. unfold round1, JS.Math_round.
  assert (L : (Qfloor (x * 10 + (1 # 2)) <= n * 10)%Z).
  { rewrite <- (Qfloor_half (n * 10)). apply Qfloor_resp_le.
    rewrite inject_Z_mult. change (inject_Z 10) with 10. lra. }
  rewrite Zle_Qle, inject_Z_mult in L. change (inject_Z 10) with 10 in L.
  apply Qle_shift_div_r; [reflexivity | exact L].
Qed.

End Rounding.

(** ** The Michelin component *)

Section Michelin.
Local Open Scope Q_scope.

Lemma starScore_cases (m : Accolade.t) :
  (starsAre 3 m = true /\ starScore m = 100)
  \/ (starsAre 3 m = false /\ starsAre 2 m = true /\ starScore m = 70)
  \/ (starsAre 3 m = false /\ starsAre 2 m = false /\ starScore m = 40).
Proof.
  unfold starsAre, starScore. destruct (stars m) as [z|]; [|auto].
  destruct (Z.eqb_spec z 3) as [->|N3]; [auto|].
  destruct (Z.eqb_spec z 2) as [->|N2]; [auto|].
  right; right. repeat split.
  destruct z as [|p|p]; try reflexivity.
  destruct p as [[|[]|]|[|[]|]|]; try reflexivity; congruence.
Qed.

Lemma fold_best (l : list Accolade.t) (best : Q) :
  In best michelinLevels ->
  fold_left (fun b m => Qmax b (starScore m)) l best
  = if existsb (starsAre 3) l then 100
    else if existsb (starsAre 2) l then Qmax best 70
    else if (length l =? 0)%nat then best
    else Qmax best 40.
Proof.
  revert best. induction l as [|m l IH]; intros best Hb; [reflexivity|].
  cbn [fold_left existsb length Nat.eqb].
  assert (Hb' : In (Qmax best (starScore m)) michelinLevels).
  { destruct (starScore_cases m) as [[_ ->]|[(_ & _ & ->)|(_ & _ & ->)]];
      cbn in Hb; destruct Hb as [<-|[<-|[<-|[<-|[]]]]]; cbn; auto. }
  rewrite (IH _ Hb'). clear IH Hb'.
  destruct (starScore_cases m) as [[-> ->]|[(-> & -> & ->)|(-> & -> & ->)]];
    cbn [orb];
    destruct (existsb (starsAre 3) l), (existsb (starsAre 2) l),
      (length l =? 0)%nat;
    cbn in Hb; destruct Hb as [<-|[<-|[<-|[<-|[]]]]]; reflexivity.
Qed.

Lemma existsb_filter {A} (p q : A -> bool) (l : list A) :
  existsb q (List.filter p l) = existsb (fun a => p a && q a) l.
Proof.
  induction l as [|a l IH]; [reflexivity|]. cbn.
  destruct (p a); cbn; rewrite IH; reflexivity.
Qed.

Lemma filter_length_zero {A} (p : A -> bool) (l : list A) :
  (length (List.filter p l) =? 0)%nat = negb (existsb p l).
Proof.
  induction l as [|a l IH]; [reflexivity|]. cbn.
  destruct (p a); cbn; auto.
Qed.

(** The loop of [scoreMichelinStars] in closed form. *)
Lemma scoreMichelinStars_closed (accolades : list Accolade.t) :
  scoreMichelinStars accolades
  = if existsb (michelinWith 3) accolades then 100
    else if existsb (michelinWith 2) accolades then 70
    else if existsb (isType "MICHELIN_STAR") accolades then 40
    else 0.
Proof.
  unfold scoreMichelinStars.
  rewrite fold_best by (cbn; auto).
  rewrite !existsb_filter, filter_length_zero.
  change (fun a => isType "MICHELIN_STAR" a && starsAre 3 a)
    with (michelinWith 3).
  change (fun a => isType "MICHELIN_STAR" a && starsAre 2 a)
    with (michelinWith 2).
  destruct (existsb (isType "MICHELIN_STAR") accolades) eqn:E; cbn.
  - destruct (existsb (michelinWith 3) accolades),
      (existsb (michelinWith 2) accolades); reflexivity.
  - assert (F : forall n, existsb (michelinWith n) accolades = false).
    { intros n. apply not_true_is_false. intros H.
      apply existsb_exists in H as (a & Ha & H).
      apply andb_true_iff in H as [H _].
      assert (existsb (isType "MICHELIN_STAR") accolades = true)
        by (apply existsb_exists; eauto).
      congruence. }
    rewrite !F. reflexivity.
Qed.

Lemma scoreMichelinStars_range (accolades : list Accolade.t) :
  0 <= scoreMichelinStars accolades <= 100.
Proof.
  rewrite scoreMichelinStars_closed.
  destruct (existsb (michelinWith 3) accolades),
    (existsb (michelinWith 2) accolades),
    (existsb (isType "MICHELIN_STAR") accolades); split; discriminate.
Qed.

End Michelin.

(** C4, as amended.  The Michelin component of [formalAccolades] is 100
    when some accolade in the ten-year window is a MICHELIN_STAR whose
    detail parses ([parseInt], leading integer, a missing or empty detail
    read as "1") to 3; otherwise 70 when one parses to 2; otherwise 40
    when a MICHELIN_STAR is in the window at all; and 0 when none is. *)
Theorem michelinScore_by_parsed_stars (k : Clock.t) (chef : ChefRecords.t) :
  michelinScore k chef
  = if existsb (michelinWith 3) (recentAccolades k chef) then 100%Q
    else if existsb (michelinWith 2) (recentAccolades k chef) then 70%Q
    else if existsb (isType "MICHELIN_STAR") (recentAccolades k chef)
         then 40%Q
    else 0%Q.
Proof. apply scoreMichelinStars_closed. Qed.

(** C4, counterexample.  A MICHELIN_STAR accolade of the current year whose
    detail is "Awarded 3 stars" contains "3", yet the Michelin component is
    40 and not 100: [parseInt] finds no leading integer. *)
Lemma michelinScore_containing_3_not_100 :
  let k := Clock.mk 2026 0 0 in
  let chef :=
    ChefRecords.mk
      [Accolade.mk "MICHELIN_STAR" (Some "Awarded 3 stars") (Some 2026%Z) 0]
      [] [] [] None in
  existsb (michelinContaining "3") (recentAccolades k chef) = true
  /\ michelinScore k chef = 40%Q
  /\ ~ (michelinScore k chef == 100)%Q.
Proof. repeat split. vm_compute. discriminate. Qed.

(** ** Range of the four category scores *)

Section Ranges.
Local Open Scope Q_scope.

Variable k : Clock.t.
Variable chef : ChefRecords.t.

Lemma num_nonneg (n : nat) : 0 <= num n.
Proof. unfold num. change 0 with (inject_Z 0). rewrite <- Zle_Qle. lia. Qed.

Lemma scoreAccoladeType_nonneg (l : list Accolade.t) (ty : string) (m : Q) :
  0 <= m -> 0 <= scoreAccoladeType l ty m.
Proof.
  intros H. unfold scoreAccoladeType. destruct (existsb _ l); [exact H|].
  apply Qle_refl.
Qed.

Lemma formalAccoladesRaw_range : 0 <= formalAccoladesRaw k chef <= 100.
Proof.
  unfold formalAccoladesRaw. split; [|apply Q.le_min_l].
  apply Q.min_glb; [discriminate|].
  assert (M : 0 <= michelinScore k chef)
    by apply scoreMichelinStars_range.
  pose proof (Q.le_max_l (michelinScore k chef) (jbScore k chef)) as M1.
  pose proof (Q.le_max_l (Qmax (michelinScore k chef) (jbScore k chef))
                (w50Score k chef)) as M2.
  pose proof (Q.le_max_l
                (Qmax (Qmax (michelinScore k chef) (jbScore k chef))
                   (w50Score k chef)) (bocuseScore k chef)) as M3.
  assert (O : 0 <= otherAccoladeScore k chef)
    by (apply scoreAccoladeType_nonneg; discriminate).
  assert (B : 0 <= (if (1 <? length (recentAccolades k chef))%nat
                    then Qmin 20
                           ((num (length (recentAccolades k chef)) - 1) * 5)
                    else 0)).
  { destruct (Nat.ltb_spec 1 (length (recentAccolades k chef))) as [L|L];
      [|apply Qle_refl].
    apply Q.min_glb; [discriminate|].
    assert (1 <= num (length (recentAccolades k chef))).
    { unfold num. change 1 with (inject_Z 1). rewrite <- Zle_Qle. lia. }
    nra. }
  lra.
Qed.

Lemma peerStandingRaw_range : 0 <= peerStandingRaw k chef <= 100.
Proof.
  unfold peerStandingRaw. split; [|apply Q.le_min_l].
  apply Q.min_glb; [discriminate|].
  pose proof (num_nonneg (peerCount k chef)).
  pose proof (num_nonneg (mentored k chef)).
  pose proof (num_nonneg (collabs k chef)).
  pose proof (num_nonneg (endorsements k chef)).
  lra.
Qed.

Lemma careerTrackRaw_upper : careerTrackRaw k chef <= 100.
Proof. apply Q.le_min_l. Qed.

Lemma publicSignalsRaw_upper : publicSignalsRaw k chef <= 100.
Proof. apply Q.le_min_l. Qed.

Lemma positionScore_nonneg : 0 <= positionScore k chef.
Proof.
  unfold positionScore. apply Q.min_glb; [discriminate|].
  pose proof (num_nonneg (positionCount k chef)). lra.
Qed.

Lemma roleScore_lower : 15 <= roleScore k chef.
Proof. unfold roleScore. destruct (hasExecRole k chef); discriminate. Qed.

Lemma years_nonneg :
  (forall y, ChefRecords.yearsExperience chef = Some y -> (0 <= y)%Z) ->
  0 <= years chef.
Proof.
  intros H. unfold years. destruct (ChefRecords.yearsExperience chef) as [y|].
  - destruct (JS.truthy (Some y)); [|apply Qle_refl]. cbn.
    change 0 with (inject_Z 0). rewrite <- Zle_Qle. auto.
  - apply Qle_refl.
Qed.

(** The upper clamp holds for every input: no category exceeds 100;
    two of the four categories are also never negative. *)
Lemma calculateBreakdown_upper :
  ScoreBreakdown.formalAccolades (calculateBreakdown k chef) <= 100
  /\ ScoreBreakdown.careerTrack (calculateBreakdown k chef) <= 100
  /\ ScoreBreakdown.publicSignals (calculateBreakdown k chef) <= 100
  /\ ScoreBreakdown.peerStanding (calculateBreakdown k chef) <= 100.
Proof.
  cbn. change 100 with (inject_Z 100).
  repeat split; apply round1_upper; change (inject_Z 100) with 100.
  - apply formalAccoladesRaw_range.
  - apply careerTrackRaw_upper.
  - apply publicSignalsRaw_upper.
  - apply peerStandingRaw_range.
Qed.

Lemma calculateBreakdown_count_based_nonneg :
  0 <= ScoreBreakdown.formalAccolades (calculateBreakdown k chef)
  /\ 0 <= ScoreBreakdown.peerStanding (calculateBreakdown k chef).
Proof.
  cbn. change 0 with (inject_Z 0).
  split; apply round1_lower; change (inject_Z 0) with 0.
  - apply formalAccoladesRaw_range.
  - apply peerStandingRaw_range.
Qed.

End Ranges.

(** C1.  The lower end of the interval [0, 100] is not enforced.  A chef
    with no records and [yearsExperience = -10] gets [careerTrack = -5];
    a chef whose only public signal has the value -1000000 gets
    [publicSignals = -85]. *)
Theorem breakdown_below_zero :
  (ScoreBreakdown.careerTrack
     (calculateBreakdown sampleClock
        (ChefRecords.mk [] [] [] [] (Some (-10)%Z))) == -5)%Q
  /\ (ScoreBreakdown.publicSignals
        (calculateBreakdown sampleClock
           (ChefRecords.mk [] []
              [PublicSignal.mk "INSTAGRAM" (Some (-1000000)%Q) 1500] []
              None)) == -85)%Q.
Proof. split; vm_compute; reflexivity. Qed.

(** C10.  When [yearsExperience] is null or not negative, [careerTrack] is
    at least 15: the role component is 30 when some career entry in the
    window matches the executive pattern and 15 otherwise, also when the
    chef has no career entry; so [careerTrack] is never 0. *)
Theorem careerTrack_at_least_15 (k : Clock.t) (chef : ChefRecords.t) :
  (forall y, ChefRecords.yearsExperience chef = Some y -> (0 <= y)%Z) ->
  roleScore k chef = (if hasExecRole k chef then 30 else 15)%Q
  /\ (ChefRecords.careerEntries chef = [] -> roleScore k chef = 15%Q)
  /\ (15 <= ScoreBreakdown.careerTrack (calculateBreakdown k chef))%Q
  /\ ~ (ScoreBreakdown.careerTrack (calculateBreakdown k chef) == 0)%Q.
Proof.
  intros H.
  assert (L : (15 <= ScoreBreakdown.careerTrack (calculateBreakdown k chef))%Q).
  { cbn. change 15%Q with (inject_Z 15). apply round1_lower.
    change (inject_Z 15) with 15%Q. unfold careerTrackRaw.
    apply Q.min_glb; [discriminate|].
    assert (0 <= yearScore chef)%Q.
    { unfold yearScore. apply Q.min_glb; [discriminate|].
      pose proof (years_nonneg chef H). lra. }
    pose proof (positionScore_nonneg k chef).
    pose proof (roleScore_lower k chef). lra. }
  split; [reflexivity|]. split; [|split; [exact L|]].
  - intros E. unfold roleScore, hasExecRole, recentCareer. rewrite E.
    reflexivity.
  - intros E. rewrite E in L. apply L. reflexivity.
Qed.

(** A chef with ten years of experience and no career entry. *)
Lemma careerTrack_at_least_15_witness :
  roleScore (Clock.mk 2026 0 0) (ChefRecords.mk [] [] [] [] (Some 10%Z))
  = 15%Q
  /\ (15 <= ScoreBreakdown.careerTrack
              (calculateBreakdown (Clock.mk 2026 0 0)
                 (ChefRecords.mk [] [] [] [] (Some 10%Z))))%Q.
Proof.
  destruct (careerTrack_at_least_15 (Clock.mk 2026 0 0)
              (ChefRecords.mk [] [] [] [] (Some 10%Z))) as (_ & R & L & _).
  - intros y [= <-]. lia.
  - split; [apply R; reflexivity | exact L].
Defined.

(** ** What the two calculators depend on *)

(** C9, as amended.  [calculateBreakdown] reads the clock: its result is
    determined by the chef's records together with which of them the
    ten-year window selects at the time of the call, and by nothing else;
    [calculateTotalScore] is determined by the breakdown and by the weights
    of the four categories.  Neither takes nor returns the store. *)
Theorem calculators_determined_by_inputs_and_window
    (k1 k2 : Clock.t) (chef : ChefRecords.t) :
  sameWindow k1 k2 chef ->
  calculateBreakdown k1 chef = calculateBreakdown k2 chef
  /\ forall (w1 w2 : gmap string Q),
       (forall c, In c categories -> w1 !! c = w2 !! c) ->
       calculateTotalScore (calculateBreakdown k1 chef) w1
       = calculateTotalScore (calculateBreakdown k2 chef) w2.
Proof.
  intros (Ha & Hc & Hs & Hp).
  assert (E : calculateBreakdown k1 chef = calculateBreakdown k2 chef).
  { unfold calculateBreakdown, formalAccoladesRaw, careerTrackRaw,
      publicSignalsRaw, peerStandingRaw, michelinScore, jbScore, w50Score,
      bocuseScore, otherAccoladeScore, positionScore, positionCount,
      roleScore, hasExecRole, signalCount, totalSignalValue, peerCount,
      mentored, collabs, endorsements, recentAccolades, recentCareer,
      recentSignals, recentPeers.
    rewrite (List.filter_ext_in _ _ _ Ha), (List.filter_ext_in _ _ _ Hc),
      (List.filter_ext_in _ _ _ Hs), (List.filter_ext_in _ _ _ Hp).
    reflexivity. }
  split; [exact E|].
  intros w1 w2 Hw. rewrite E. unfold calculateTotalScore, Obj.get.
  rewrite !Hw by (cbn; auto 10). reflexivity.
Qed.

(** Two readings of the clock in the same year, before and after a record
    was created more than ten years ago. *)
Lemma calculators_determined_by_inputs_and_window_witness :
  calculateBreakdown (Clock.mk 2026 50 0)
    (ChefRecords.mk [Accolade.mk "JAMES_BEARD" None (Some 2020%Z) 10]
       [] [] [PeerStanding.mk "MENTORED" 70] (Some 10%Z))
  = calculateBreakdown (Clock.mk 2026 60 0)
      (ChefRecords.mk [Accolade.mk "JAMES_BEARD" None (Some 2020%Z) 10]
         [] [] [PeerStanding.mk "MENTORED" 70] (Some 10%Z)).
Proof.
  apply (calculators_determined_by_inputs_and_window
           (Clock.mk 2026 50 0) (Clock.mk 2026 60 0)
           (ChefRecords.mk [Accolade.mk "JAMES_BEARD" None (Some 2020%Z) 10]
              [] [] [PeerStanding.mk "MENTORED" 70] (Some 10%Z))).
  repeat split; intros x Hx; cbn in Hx; intuition (subst; reflexivity).
Defined.

(** C9, counterexample.  The same chef, with one James Beard award of 2016,
    scores 80 on formal accolades when the clock reads 2026 and 0 when it
    reads 2027: the result depends on the time of the call. *)
Lemma calculateBreakdown_depends_on_clock :
  calculateBreakdown (Clock.mk 2026 0 0)
    (ChefRecords.mk [Accolade.mk "JAMES_BEARD" None (Some 2016%Z) 0]
       [] [] [] None)
  <> calculateBreakdown (Clock.mk 2027 0 0)
       (ChefRecords.mk [Accolade.mk "JAMES_BEARD" None (Some 2016%Z) 0]
          [] [] [] None).
Proof.
  intros H. apply (f_equal ScoreBreakdown.formalAccolades) in H.
  vm_compute in H. discriminate.
Qed.

(** ** The weight store *)

Section Weights.

Lemma find_app {A} (p : A -> bool) (l1 l2 : list A) :
  List.find p (l1 ++ l2)
  = match List.find p l1 with
    | Some x => Some x
    | None => List.find p l2
    end.
Proof.
  induction l1 as [|a l1 IH]; [reflexivity|]. cbn.
  destruct (p a); [reflexivity | exact IH].
Qed.

Lemma dom_DEFAULT_WEIGHTS : dom DEFAULT_WEIGHTS = categorySet.
Proof.
  unfold DEFAULT_WEIGHTS, categorySet, categories.
  rewrite !dom_insert_L, dom_empty_L. cbn. set_solver.
Qed.

Lemma inherited_proto (c : string) :
  Obj.inherited c = false -> String.eqb c "__proto__" = false.
Proof.
  intros H. destruct (String.eqb_spec c "__proto__") as [E|]; [|done].
  subst c. vm_compute in H. discriminate.
Qed.

Lemma applyRow_spec (w : gmap string Q) (row : ScoringWeight.t) :
  Obj.inherited (ScoringWeight.category row) = false ->
  dom (applyRow w row) = dom w
  /\ forall c, c ∈ dom w ->
       applyRow w row !! c
       = if String.eqb (ScoringWeight.category row) c
         then Some (ScoringWeight.weight row) else w !! c.
Proof.
  intros Hi. unfold applyRow, Obj.has, Obj.set.
  rewrite Hi, (inherited_proto _ Hi), orb_false_r.
  destruct (bool_decide_reflect (is_Some (w !! ScoringWeight.category row)))
    as [Hs|Hn].
  - split.
    + apply dom_insert_lookup_L, Hs.
    + intros c _. destruct (String.eqb_spec (ScoringWeight.category row) c)
        as [->|Hne].
      * apply lookup_insert_eq.
      * apply lookup_insert_ne. exact Hne.
  - split; [done|]. intros c Hc.
    destruct (String.eqb_spec (ScoringWeight.category row) c) as [E|]; [|done].
    subst c. apply elem_of_dom in Hc. contradiction.
Qed.

Lemma fold_applyRow_spec (rows : list ScoringWeight.t) (w : gmap string Q) :
  Forall (fun r => Obj.inherited (ScoringWeight.category r) = false) rows ->
  dom (fold_left applyRow rows w) = dom w
  /\ forall c, c ∈ dom w ->
       fold_left applyRow rows w !! c
       = match storedWeight c rows with
         | Some v => Some v
         | None => w !! c
         end.
Proof.
  revert w. induction rows as [|row rows IH]; intros w Hall.
  - split; [done|]. intros c _. reflexivity.
  - inversion Hall as [|? ? Hrow Hrows]; subst.
    destruct (applyRow_spec w row Hrow) as [D L].
    destruct (IH (applyRow w row) Hrows) as [D' L'].
    cbn [fold_left]. split; [congruence|].
    intros c Hc. rewrite L' by (rewrite D; exact Hc). rewrite (L c Hc).
    unfold storedWeight. cbn [rev]. rewrite find_app.
    destruct (List.find _ (rev rows)) as [r|]; [reflexivity|]. cbn.
    destruct (String.eqb (ScoringWeight.category row) c); reflexivity.
Qed.

End Weights.




(** ** The stable sort *)

Section Sorting.
Context {A : Type} (le : A -> A -> bool).

Lemma insertBy_Permutation (x : A) (l : list A) : insertBy le x l ≡ₚ x :: l.
Proof.
  induction l as [|y l IH]; [done|]. cbn. destruct (le x y); [done|].
  rewrite IH. apply Permutation_swap.
Qed.

Lemma sortBy_Permutation (l : list A) : sortBy le l ≡ₚ l.
Proof.
  induction l as [|x l IH]; [done|]. cbn.
  rewrite insertBy_Permutation. by f_equiv.
Qed.

Lemma sortBy_length (l : list A) : length (sortBy le l) = length l.
Proof. apply Permutation_length, sortBy_Permutation. Qed.

Lemma before_cons (a x y : A) (l : list A) :
  before x y l -> before x y (a :: l).
Proof. intros (l1 & l2 & l3 & ->). by exists (a :: l1), l2, l3. Qed.

Lemma before_head (x y : A) (l : list A) : In y l -> before x y (x :: l).
Proof.
  intros H. apply in_split in H as (l2 & l3 & ->). by exists [], l2, l3.
Qed.

Lemma before_inv_cons (a x y : A) (l : list A) :
  before x y (a :: l) -> (a = x /\ In y l) \/ before x y l.
Proof.
  intros ([|b l1] & l2 & l3 & E); cbn in E; injection E as -> ->.
  - left. split; [done|]. apply in_or_app. right. by left.
  - right. by exists l1, l2, l3.
Qed.

Lemma insertBy_before_keep (a x y : A) (l : list A) :
  before x y l -> before x y (insertBy le a l).
Proof.
  induction l as [|b l IH]; intros H.
  - destruct H as ([|? ?] & ? & ? & ?); discriminate.
  - cbn. destruct (le a b); [by apply before_cons|].
    apply before_inv_cons in H as [[-> Hy]|H].
    + apply before_head.
      apply (Permutation_in _ (Permutation_sym (insertBy_Permutation a l))).
      by right.
    + apply before_cons, IH, H.
Qed.

Lemma insertBy_before_new (a y : A) (l : list A) :
  In y l -> le a y = true -> before a y (insertBy le a l).
Proof.
  induction l as [|b l IH]; intros Hy Hle; [destruct Hy|].
  cbn. destruct (le a b) eqn:E; [by apply before_head|].
  destruct Hy as [->|Hy]; [congruence|].
  apply before_cons, IH; assumption.
Qed.

(** Stability: an element that may stay in front of a later one does. *)
Lemma sortBy_stable (l : list A) (i j : nat) (x y : A) :
  l !! i = Some x -> l !! j = Some y -> (i < j)%nat -> le x y = true ->
  before x y (sortBy le l).
Proof.
  revert i j. induction l as [|a l IH]; intros i j Hi Hj Hlt Hle; [done|].
  cbn [sortBy foldr]. fold (sortBy le l).
  destruct j as [|j]; [lia|]. cbn in Hj.
  destruct i as [|i]; cbn in Hi.
  - injection Hi as ->. apply insertBy_before_new; [|done].
    apply (Permutation_in _ (Permutation_sym (sortBy_Permutation l))).
    apply list_elem_of_In. by eapply list_elem_of_lookup_2.
  - apply insertBy_before_keep. eapply IH; eauto. lia.
Qed.

Hypothesis le_total : forall x y, le x y = true \/ le y x = true.
Hypothesis le_trans :
  forall x y z, le x y = true -> le y z = true -> le x z = true.

Lemma insertBy_sorted (x : A) (l : list A) :
  StronglySorted (fun a b => le a b = true) l ->
  StronglySorted (fun a b => le a b = true) (insertBy le x l).
Proof.
  induction 1 as [|y l Hs IH Hy]; cbn.
  - repeat constructor.
  - destruct (le x y) eqn:E.
    + constructor; [by constructor|]. constructor; [done|].
      eapply Forall_impl; [exact Hy|]. cbn. eauto.
    + constructor; [exact IH|].
      rewrite (insertBy_Permutation x l).
      constructor; [|exact Hy]. destruct (le_total x y); congruence.
Qed.

Lemma sortBy_sorted (l : list A) :
  StronglySorted (fun a b => le a b = true) (sortBy le l).
Proof.
  induction l as [|x l IH]; [constructor|]. by apply insertBy_sorted.
Qed.

Lemma before_sorted (x y : A) (l : list A) :
  StronglySorted (fun a b => le a b = true) l -> before x y l ->
  le x y = true.
Proof.
  intros Hs (l1 & l2 & l3 & ->).
  apply StronglySorted_app_1_r in Hs. inversion Hs as [|? ? _ Hall]; subst.
  rewrite Forall_forall in Hall. apply Hall.
  apply list_elem_of_In, in_or_app. right. by left.
Qed.

End Sorting.

(** ** The recalculation batch in closed form *)

Section Batch.

Lemma getWeights_run (s : Store.t) : getWeights s = (s, Some (weightsOf s)).
Proof.
  unfold getWeights, weightsOf, mbind, M_bind, bind,
    Prisma.scoringWeight_findMany.
  destruct (length (Store.scoringWeights s) =? 0)%nat; reflexivity.
Qed.

Lemma withChefs_same (s : Store.t) : withChefs (Store.chefs s) s = s.
Proof. by destruct s. Qed.

Lemma setScore_id (t : Q) (r : Z) (c : Chef.t) :
  Chef.id (Chef.setScore t r c) = Chef.id c.
Proof. reflexivity. Qed.

Lemma rankChef_id (i : nat) (scored : list Scored.t) (c : Chef.t) :
  Chef.id (rankChef i scored c) = Chef.id c.
Proof. unfold rankChef. by destruct (position _ _) as [[? ?]|]. Qed.

Lemma rankChef_active (i : nat) (scored : list Scored.t) (c : Chef.t) :
  Prisma.active (rankChef i scored c) = Prisma.active c.
Proof. unfold rankChef. by destruct (position _ _) as [[? ?]|]. Qed.

Lemma rankChef_records (i : nat) (scored : list Scored.t) (c : Chef.t) :
  Chef.records (rankChef i scored c) = Chef.records c.
Proof. unfold rankChef. by destruct (position _ _) as [[? ?]|]. Qed.

Lemma position_None (id : string) (scored : list Scored.t) :
  ~ In id (map Scored.id scored) -> position id scored = None.
Proof.
  induction scored as [|x r IH]; [done|]. cbn. intros H.
  destruct (String.eqb_spec (Scored.id x) id) as [E|_]; [tauto|].
  rewrite IH; tauto.
Qed.

Lemma position_Some (id : string) (scored : list Scored.t) (j : nat)
    (x : Scored.t) :
  position id scored = Some (j, x) ->
  scored !! j = Some x /\ Scored.id x = id.
Proof.
  revert j. induction scored as [|y r IH]; intros j; [done|]. cbn.
  destruct (String.eqb_spec (Scored.id y) id) as [E|_].
  - intros [= <- <-]. done.
  - destruct (position id r) as [[j' z]|]; [|done].
    intros [= <- <-]. by apply IH.
Qed.

Lemma position_lookup (scored : list Scored.t) (j : nat) (x : Scored.t) :
  NoDup (map Scored.id scored) -> scored !! j = Some x ->
  position (Scored.id x) scored = Some (j, x).
Proof.
  revert j. induction scored as [|y r IH]; intros j Hnd Hj; [done|].
  apply NoDup_cons in Hnd as [Hy Hnd]. cbn.
  destruct j as [|j]; cbn in Hj.
  - injection Hj as ->. by rewrite String.eqb_refl.
  - destruct (String.eqb_spec (Scored.id y) (Scored.id x)) as [E|_].
    + exfalso. apply Hy. rewrite E. apply list_elem_of_fmap_2.
      by eapply list_elem_of_lookup_2.
    + by rewrite (IH j Hnd Hj).
Qed.

Lemma rankChef_step (i : nat) (x : Scored.t) (r : list Scored.t)
    (c : Chef.t) :
  ~ In (Scored.id x) (map Scored.id r) ->
  rankChef (S i) r
    (if Prisma.hasId (Scored.id x) c
     then Chef.setScore (Scored.total x) (Z.of_nat i + 1) c else c)
  = rankChef i (x :: r) c.
Proof.
  intros Hx. unfold rankChef at 2. cbn [position]. unfold Prisma.hasId.
  rewrite (String.eqb_sym (Scored.id x)).
  destruct (String.eqb_spec (Chef.id c) (Scored.id x)) as [E|_].
  - unfold rankChef. rewrite setScore_id, E, (position_None _ _ Hx).
    by rewrite Nat.add_0_r.
  - unfold rankChef. destruct (position (Chef.id c) r) as [[j y]|]; [|done].
    by rewrite Nat.add_succ_comm.
Qed.

Lemma forIndexed_chef_update (scored : list Scored.t) (i : nat) (s : Store.t) :
  NoDup (map Scored.id scored) ->
  (forall x, In x scored -> In (Scored.id x) (chefIds s)) ->
  forIndexed
    (fun i x =>
       Prisma.chef_update (Scored.id x) (Scored.total x) (Z.of_nat i + 1)%Z)
    i scored s
  = (withChefs (map (rankChef i scored) (Store.chefs s)) s, Some tt).
Proof.
  revert i s. induction scored as [|x r IH]; intros i s Hnd Hin.
  - cbn. unfold rankChef. cbn. by rewrite map_id, withChefs_same.
  - apply NoDup_cons in Hnd as [Hx Hnd].
    cbn [forIndexed]. unfold mbind, M_bind, bind.
    unfold Prisma.chef_update at 1.
    assert (Hex : existsb (Prisma.hasId (Scored.id x)) (Store.chefs s) = true).
    { apply existsb_exists.
      specialize (Hin x (or_introl eq_refl)). unfold chefIds in Hin.
      apply in_map_iff in Hin as (c & E & Hc). exists c. split; [done|].
      unfold Prisma.hasId. rewrite E. apply String.eqb_refl. }
    rewrite Hex. rewrite IH; [|done|].
    + cbn. unfold withChefs. cbn. f_equal. f_equal.
      rewrite map_map. apply map_ext. intros c. apply rankChef_step.
      by rewrite <- list_elem_of_In.
    + intros y Hy. specialize (Hin y (or_intror Hy)).
      unfold chefIds in *. cbn. rewrite map_map.
      erewrite map_ext; [exact Hin|]. intros c. cbn.
      by destruct (Prisma.hasId _ c).
Qed.

Lemma activeChefs_ids_NoDup (s : Store.t) :
  NoDup (chefIds s) -> NoDup (map Chef.id (activeChefs s)).
Proof.
  unfold chefIds, activeChefs. generalize (Store.chefs s) as cs.
  induction cs as [|c cs IH]; cbn; intros Hnd; [constructor|].
  apply NoDup_cons in Hnd as [Hc Hnd]. destruct (Prisma.active c); [|auto].
  cbn. apply NoDup_cons. split; [|auto].
  intros H. apply Hc. apply list_elem_of_In in H. apply list_elem_of_In.
  apply in_map_iff in H as (c' & E & Hc'). apply in_map_iff. exists c'.
  split; [done|]. by apply filter_In in Hc' as [? _].
Qed.

Lemma ranking_ids (k : Clock.t) (s : Store.t) :
  map Scored.id (ranking k s) ≡ₚ map Chef.id (activeChefs s).
Proof.
  unfold ranking. rewrite (sortBy_Permutation byTotalDesc), map_map.
  reflexivity.
Qed.

Lemma ranking_NoDup (k : Clock.t) (s : Store.t) :
  NoDup (chefIds s) -> NoDup (map Scored.id (ranking k s)).
Proof.
  intros H. rewrite ranking_ids. by apply activeChefs_ids_NoDup.
Qed.

Lemma recalculateAllScores_run (k : Clock.t) (s : Store.t) :
  NoDup (chefIds s) ->
  recalculateAllScores k s
  = (withChefs (map (rankChef 0 (ranking k s)) (Store.chefs s)) s, Some tt).
Proof.
  intros Hnd. unfold recalculateAllScores, mbind, M_bind, bind.
  unfold Prisma.chef_findMany_active at 1. rewrite getWeights_run.
  apply forIndexed_chef_update; [by apply ranking_NoDup|].
  intros x Hx. apply (in_map Scored.id) in Hx.
  apply list_elem_of_In in Hx. rewrite ranking_ids in Hx.
  apply list_elem_of_In, in_map_iff in Hx as (c & <- & Hc).
  apply in_map. by apply filter_In in Hc as [? _].
Qed.

End Batch.

(** ** Ranks after a batch *)

Section Ranks.

Variable k : Clock.t.
Variable s : Store.t.
Hypothesis ids_unique : NoDup (chefIds s).

Lemma byTotalDesc_total (x y : Scored.t) :
  byTotalDesc x y = true \/ byTotalDesc y x = true.
Proof.
  unfold byTotalDesc. rewrite !Qle_bool_iff.
  destruct (Qlt_le_dec (Scored.total x) (Scored.total y)) as [H|H]; [|auto].
  right. by apply Qlt_le_weak.
Qed.

Lemma byTotalDesc_trans (x y z : Scored.t) :
  byTotalDesc x y = true -> byTotalDesc y z = true -> byTotalDesc x z = true.
Proof.
  unfold byTotalDesc. rewrite !Qle_bool_iff. intros; by eapply Qle_trans.
Qed.

Lemma lookup_before {A} (l : list A) (i j : nat) (x y : A) :
  l !! i = Some x -> l !! j = Some y -> (i < j)%nat -> before x y l.
Proof.
  intros Hi Hj Hlt.
  assert (Hj' : drop (S i) l !! (j - S i)%nat = Some y).
  { rewrite lookup_drop. by replace (S i + (j - S i))%nat with j by lia. }
  exists (take i l), (take (j - S i) (drop (S i) l)),
    (drop (S (j - S i)) (drop (S i) l)).
  by rewrite (take_drop_middle _ _ _ Hj'), (take_drop_middle _ _ _ Hi).
Qed.

Lemma before_lookup {A} (l : list A) (x y : A) :
  before x y l ->
  exists i j, l !! i = Some x /\ l !! j = Some y /\ (i < j)%nat.
Proof.
  intros (l1 & l2 & l3 & ->).
  exists (length l1), (length l1 + S (length l2))%nat. repeat split.
  - by apply list_lookup_middle.
  - rewrite lookup_app_r by lia.
    replace (length l1 + S (length l2) - length l1)%nat
      with (S (length l2)) by lia.
    cbn. by apply list_lookup_middle.
  - lia.
Qed.

Lemma activeChefs_after :
  activeChefs (withChefs (map (rankChef 0 (ranking k s)) (Store.chefs s)) s)
  = map (rankChef 0 (ranking k s)) (activeChefs s).
Proof.
  unfold activeChefs. cbn. generalize (Store.chefs s) as cs.
  induction cs as [|c cs IH]; [done|]. cbn.
  rewrite rankChef_active. destruct (Prisma.active c); cbn; by rewrite IH.
Qed.

(** A chef of the batch is given the rank of its place in the ranking. *)
Lemma rankChef_active_spec (c : Chef.t) :
  In c (activeChefs s) ->
  exists j,
    ranking k s !! j = Some (score k (weightsOf s) c)
    /\ rankChef 0 (ranking k s) c
       = Chef.setScore (Scored.total (score k (weightsOf s) c))
           (Z.of_nat j + 1) c.
Proof.
  intros Hc.
  assert (Hx : score k (weightsOf s) c ∈ ranking k s).
  { unfold ranking. rewrite (sortBy_Permutation byTotalDesc).
    apply list_elem_of_In, in_map, Hc. }
  apply list_elem_of_lookup in Hx as [j Hj]. exists j. split; [done|].
  unfold rankChef.
  change (Chef.id c) with (Scored.id (score k (weightsOf s) c)).
  by rewrite (position_lookup _ _ _ (ranking_NoDup k s ids_unique) Hj).
Qed.

Lemma ranking_ranks :
  map
    (fun x =>
       match position (Scored.id x) (ranking k s) with
       | Some (j, _) => Some (Z.of_nat j + 1)%Z
       | None => None
       end)
    (ranking k s)
  = map (fun i => Some (Z.of_nat i)) (seq 1 (length (ranking k s))).
Proof.
  apply list_eq. intros j. rewrite !list_lookup_fmap.
  destruct (ranking k s !! j) as [x|] eqn:Hj; cbn.
  - rewrite (position_lookup _ _ _ (ranking_NoDup k s ids_unique) Hj).
    rewrite lookup_seq_lt by (by eapply lookup_lt_Some). cbn.
    do 2 f_equal. lia.
  - apply lookup_ge_None in Hj. by rewrite lookup_seq_ge.
Qed.

Lemma ranks_after :
  map Chef.rank (map (rankChef 0 (ranking k s)) (activeChefs s))
  ≡ₚ map (fun i => Some (Z.of_nat i)) (seq 1 (length (activeChefs s))).
Proof.
  assert (E : map Chef.rank (map (rankChef 0 (ranking k s)) (activeChefs s))
              = map
                  (fun id =>
                     match position id (ranking k s) with
                     | Some (j, _) => Some (Z.of_nat j + 1)%Z
                     | None => None
                     end)
                  (map Chef.id (activeChefs s))).
  { rewrite !map_map. apply map_ext_in. intros c Hc.
    destruct (rankChef_active_spec c Hc) as (j & Hj & ->). cbn.
    change (Chef.id c) with (Scored.id (score k (weightsOf s) c)).
    by rewrite (position_lookup _ _ _ (ranking_NoDup k s ids_unique) Hj). }
  rewrite E, <- (ranking_ids k s), map_map, ranking_ranks.
  unfold ranking. by rewrite sortBy_length, length_map.
Qed.

End Ranks.

Section RanksAfter.

Variable k : Clock.t.
Variable s : Store.t.
Hypothesis ids_unique : NoDup (chefIds s).

Lemma ranked_lookup_inv (i : nat) (c : Chef.t) :
  map (rankChef 0 (ranking k s)) (activeChefs s) !! i = Some c ->
  exists c0 j,
    activeChefs s !! i = Some c0
    /\ ranking k s !! j = Some (score k (weightsOf s) c0)
    /\ c = Chef.setScore (Scored.total (score k (weightsOf s) c0))
             (Z.of_nat j + 1) c0.
Proof.
  intros H. change map with (@fmap list _) in H.
  rewrite list_lookup_fmap in H.
  destruct (activeChefs s !! i) as [c0|] eqn:E; [|done].
  injection H as <-.
  assert (Hc : In c0 (activeChefs s)).
  { apply list_elem_of_In. by eapply list_elem_of_lookup_2. }
  destruct (rankChef_active_spec k s ids_unique c0 Hc) as (j & Hj & ->).
  by exists c0, j.
Qed.

Lemma ranked_In_inv (c : Chef.t) :
  In c (map (rankChef 0 (ranking k s)) (activeChefs s)) ->
  exists c0 j,
    In c0 (activeChefs s)
    /\ ranking k s !! j = Some (score k (weightsOf s) c0)
    /\ c = Chef.setScore (Scored.total (score k (weightsOf s) c0))
             (Z.of_nat j + 1) c0.
Proof.
  intros H. apply list_elem_of_In, list_elem_of_lookup in H as [i Hi].
  destruct (ranked_lookup_inv i c Hi) as (c0 & j & H0 & Hj & E).
  exists c0, j. split; [|done].
  apply list_elem_of_In. by eapply list_elem_of_lookup_2.
Qed.

Lemma ranking_sorted_lookup (i j : nat) (x y : Scored.t) :
  ranking k s !! i = Some x -> ranking k s !! j = Some y -> (i < j)%nat ->
  (Scored.total y <= Scored.total x)%Q.
Proof.
  intros Hi Hj Hlt. apply Qle_bool_iff.
  change (byTotalDesc x y = true).
  eapply before_sorted; [|by eapply lookup_before].
  apply sortBy_sorted; [apply byTotalDesc_total | apply byTotalDesc_trans].
Qed.

Lemma ranking_stable (i j : nat) (c1 c2 : Chef.t) :
  activeChefs s !! i = Some c1 -> activeChefs s !! j = Some c2 ->
  (i < j)%nat ->
  (Scored.total (score k (weightsOf s) c2)
   <= Scored.total (score k (weightsOf s) c1))%Q ->
  exists i' j',
    ranking k s !! i' = Some (score k (weightsOf s) c1)
    /\ ranking k s !! j' = Some (score k (weightsOf s) c2)
    /\ (i' < j')%nat.
Proof.
  intros Hi Hj Hlt Hle. apply before_lookup.
  apply (sortBy_stable byTotalDesc _ i j); [| |done|].
  - change map with (@fmap list _). by rewrite list_lookup_fmap, Hi.
  - change map with (@fmap list _). by rewrite list_lookup_fmap, Hj.
  - by apply Qle_bool_iff.
Qed.

Lemma ranking_index_unique (i j : nat) (x : Scored.t) :
  ranking k s !! i = Some x -> ranking k s !! j = Some x -> i = j.
Proof.
  intros Hi Hj.
  pose proof (position_lookup _ _ _ (ranking_NoDup k s ids_unique) Hi) as Pi.
  pose proof (position_lookup _ _ _ (ranking_NoDup k s ids_unique) Hj) as Pj.
  congruence.
Qed.

End RanksAfter.

(** C2.  After [recalculateAllScores] over the N chefs that are not
    archived, their ranks are exactly 1, ..., N, each once; every one of
    them carries the total recomputed from its records; a chef ranked in
    front of another has a total at least as high; and of two chefs with
    equal totals the one fetched first is ranked first. *)
Theorem recalculateAllScores_dense_ranks (k : Clock.t) (s : Store.t) :
  NoDup (chefIds s) ->
  exists s',
    recalculateAllScores k s = (s', Some tt)
    /\ map Chef.id (activeChefs s') = map Chef.id (activeChefs s)
    /\ map Chef.rank (activeChefs s')
       ≡ₚ map (fun i => Some (Z.of_nat i)) (seq 1 (length (activeChefs s')))
    /\ (forall c, In c (activeChefs s') ->
          Chef.totalScore c
          = calculateTotalScore (calculateBreakdown k (Chef.records c))
              (weightsOf s))
    /\ (forall c1 c2 r1 r2,
          In c1 (activeChefs s') -> In c2 (activeChefs s') ->
          Chef.rank c1 = Some r1 -> Chef.rank c2 = Some r2 -> (r1 < r2)%Z ->
          (Chef.totalScore c2 <= Chef.totalScore c1)%Q)
    /\ (forall i j c1 c2,
          activeChefs s' !! i = Some c1 -> activeChefs s' !! j = Some c2 ->
          (i < j)%nat -> (Chef.totalScore c1 == Chef.totalScore c2)%Q ->
          exists r1 r2,
            Chef.rank c1 = Some r1 /\ Chef.rank c2 = Some r2 /\ (r1 < r2)%Z).
Proof.
  intros Hnd. eexists. split; [by apply recalculateAllScores_run|].
  rewrite activeChefs_after. repeat split.
  - rewrite map_map. apply map_ext. intros c. apply rankChef_id.
  - rewrite length_map. by apply ranks_after.
  - intros c Hc.
    destruct (ranked_In_inv k s Hnd c Hc) as (c0 & j & _ & _ & ->).
    reflexivity.
  - intros c1 c2 r1 r2 H1 H2 R1 R2 Hlt.
    destruct (ranked_In_inv k s Hnd c1 H1) as (a & i & _ & Hi & ->).
    destruct (ranked_In_inv k s Hnd c2 H2) as (b & j & _ & Hj & ->).
    cbn in *. injection R1 as <-. injection R2 as <-.
    apply (ranking_sorted_lookup k s i j _ _ Hi Hj). lia.
  - intros i j c1 c2 H1 H2 Hlt Heq.
    destruct (ranked_lookup_inv k s Hnd i c1 H1) as (a & i1 & Ha & Hi & ->).
    destruct (ranked_lookup_inv k s Hnd j c2 H2) as (b & j1 & Hb & Hj & ->).
    cbn in *. do 2 eexists. repeat split.
    destruct (ranking_stable k s i j a b Ha Hb Hlt)
      as (i' & j' & Hi' & Hj' & L).
    { cbn. rewrite Heq. apply Qle_refl. }
    rewrite (ranking_index_unique k s Hnd _ _ _ Hi Hi').
    rewrite (ranking_index_unique k s Hnd _ _ _ Hj Hj'). lia.
Qed.

(** C7.  [recalculateAllScores] is idempotent: a second run at the same
    clock reading, with the records and the weights unchanged, leaves every
    total and every rank as the first run set them. *)
Theorem recalculateAllScores_idempotent (k : Clock.t) (s : Store.t) :
  NoDup (chefIds s) ->
  exists s1,
    recalculateAllScores k s = (s1, Some tt)
    /\ recalculateAllScores k s1 = (s1, Some tt).
Proof.
  intros Hnd. eexists. split; [by apply recalculateAllScores_run|].
  set (s1 := withChefs _ s).
  assert (Hids : chefIds s1 = chefIds s).
  { unfold chefIds, s1. cbn. rewrite map_map. apply map_ext.
    intros c. apply rankChef_id. }
  assert (Hr : ranking k s1 = ranking k s).
  { unfold ranking at 1. unfold s1 at 2. rewrite activeChefs_after.
    change (weightsOf s1) with (weightsOf s). rewrite map_map.
    unfold ranking at 2. f_equal. apply map_ext. intros c.
    unfold score. by rewrite rankChef_id, rankChef_records. }
  rewrite recalculateAllScores_run by (by rewrite Hids).
  rewrite Hr. f_equal. unfold s1, withChefs. cbn. f_equal.
  rewrite map_map. apply map_ext. intros c.
  unfold rankChef at 1. rewrite rankChef_id. unfold rankChef.
  by destruct (position (Chef.id c) (ranking k s)) as [[j x]|].
Qed.

(** ** The order of months *)

Section Months.

Lemma ascii_compare_Lt_trans (a b c : ascii) :
  Ascii.compare a b = Lt -> Ascii.compare b c = Lt -> Ascii.compare a c = Lt.
Proof.
  unfold Ascii.compare. rewrite !N.compare_lt_iff. apply N.lt_trans.
Qed.

Lemma compare_Lt_trans (a b c : string) :
  String.compare a b = Lt -> String.compare b c = Lt ->
  String.compare a c = Lt.
Proof.
  revert b c. induction a as [|x a IH]; intros [|y b] [|z c]; cbn;
    try done.
  destruct (Ascii.compare x y) eqn:Exy; try done;
    destruct (Ascii.compare y z) eqn:Eyz; try done; intros Hab Hbc.
  - apply Ascii.compare_eq_iff in Exy, Eyz. subst.
    assert (E : Ascii.compare z z = Eq) by apply N.compare_refl.
    rewrite E. by eapply IH.
  - apply Ascii.compare_eq_iff in Exy. subst. by rewrite Eyz.
  - apply Ascii.compare_eq_iff in Eyz. subst. by rewrite Exy.
  - by rewrite (ascii_compare_Lt_trans _ _ _ Exy Eyz).
Qed.

Lemma ltb_trans (a b c : string) :
  String.ltb a b = true -> String.ltb b c = true -> String.ltb a c = true.
Proof.
  unfold String.ltb. intros Hab Hbc.
  rewrite (compare_Lt_trans a b c); [done| |].
  - by destruct (String.compare a b).
  - by destruct (String.compare b c).
Qed.

Lemma ltb_incomparable (a b : string) :
  String.ltb a b = false -> String.ltb b a = false -> a = b.
Proof.
  unfold String.ltb. rewrite (String.compare_antisym b a).
  destruct (String.compare a b) eqn:E; try done.
  intros _ _. by apply String.compare_eq_iff.
Qed.

(** The fold of [Prisma.latest] keeps a row of greatest month. *)
Lemma latest_fold (l : list MonthlySnapshot.t) (b : MonthlySnapshot.t) :
  exists p,
    fold_left
      (fun best m =>
         match best with
         | None => Some m
         | Some b =>
             if String.ltb (MonthlySnapshot.month b) (MonthlySnapshot.month m)
             then Some m else best
         end)
      l (Some b) = Some p
    /\ In p (b :: l)
    /\ forall m, In m (b :: l) ->
         String.ltb (MonthlySnapshot.month p) (MonthlySnapshot.month m)
         = false.
Proof.
  revert b. induction l as [|a l IH]; intros b.
  - exists b. repeat split; [by left|]. intros m [<-|[]].
    unfold String.ltb.
    assert (E : String.compare (MonthlySnapshot.month b)
                  (MonthlySnapshot.month b) = Eq).
    { pose proof (String.compare_antisym (MonthlySnapshot.month b)
                    (MonthlySnapshot.month b)) as H.
      by destruct (String.compare _ _). }
    by rewrite E.
  - cbn [fold_left].
    destruct (String.ltb (MonthlySnapshot.month b) (MonthlySnapshot.month a))
      eqn:E.
    + destruct (IH a) as (p & Hp & Hin & Hmax). exists p.
      split; [done|]. split; [by right|].
      intros m [<-|Hm]; [|by apply Hmax].
      apply not_true_is_false. intros H.
      assert (F : String.ltb (MonthlySnapshot.month p)
                    (MonthlySnapshot.month a) = false)
        by (apply Hmax; by left).
      rewrite (ltb_trans _ _ _ H E) in F. done.
    + destruct (IH b) as (p & Hp & Hin & Hmax). exists p.
      split; [done|]. split.
      * destruct Hin as [<-|Hin]; [by left | by right; right].
      * intros m [<-|[<-|Hm]].
        -- apply Hmax. by left.
        -- apply not_true_is_false. intros H.
           assert (F : String.ltb (MonthlySnapshot.month p)
                         (MonthlySnapshot.month b) = false)
             by (apply Hmax; by left).
           destruct (String.ltb (MonthlySnapshot.month b)
                       (MonthlySnapshot.month p)) eqn:G.
           ++ rewrite (ltb_trans _ _ _ G H) in E. done.
           ++ rewrite (ltb_incomparable _ _ G F) in E. congruence.
        -- apply Hmax. by right.
Qed.

Lemma latest_spec (l : list MonthlySnapshot.t) :
  match Prisma.latest l with
  | Some p =>
      In p l
      /\ forall m, In m l ->
           String.ltb (MonthlySnapshot.month p) (MonthlySnapshot.month m)
           = false
  | None => l = []
  end.
Proof.
  unfold Prisma.latest. destruct l as [|b l]; [done|]. cbn [fold_left].
  destruct (latest_fold l b) as (p & -> & H). exact H.
Qed.

End Months.

(** ** The previous snapshot and its rank map *)

Section Previous.

Lemma NoDup_map_inj {A B} (f : A -> B) (l : list A) (x y : A) :
  NoDup (map f l) -> In x l -> In y l -> f x = f y -> x = y.
Proof.
  induction l as [|a l IH]; [done|]. cbn. intros Hnd Hx Hy E.
  apply NoDup_cons in Hnd as [Ha Hnd].
  destruct Hx as [Hx|Hx]; destruct Hy as [Hy|Hy]; subst;
    [done| | |by apply IH].
  - exfalso. apply Ha. rewrite E. by apply list_elem_of_In, in_map.
  - exfalso. apply Ha. rewrite <- E. by apply list_elem_of_In, in_map.
Qed.

Lemma firstBefore_immediatelyPreceding
    (month : string) (s : Store.t) (p : MonthlySnapshot.t) :
  NoDup (months s) -> immediatelyPreceding month s p ->
  Prisma.firstBefore month s
  = Some (p, List.filter (Prisma.ofSnapshot (MonthlySnapshot.id p))
               (Store.snapshotEntries s)).
Proof.
  intros Hnd (Hin & Hlt & Hmax). unfold Prisma.firstBefore.
  enough (Prisma.latest
            (List.filter
               (fun m => String.ltb (MonthlySnapshot.month m) month)
               (Store.monthlySnapshots s)) = Some p) as -> by done.
  assert (Hp : In p (List.filter
                       (fun m => String.ltb (MonthlySnapshot.month m) month)
                       (Store.monthlySnapshots s)))
    by (by apply filter_In).
  pose proof (latest_spec
                (List.filter
                   (fun m => String.ltb (MonthlySnapshot.month m) month)
                   (Store.monthlySnapshots s))) as L.
  destruct (Prisma.latest _) as [q|]; [|by rewrite L in Hp].
  destruct L as [Hq Hqmax]. apply filter_In in Hq as [Hq Hqlt].
  f_equal. symmetry. apply (NoDup_map_inj MonthlySnapshot.month _ _ _ Hnd);
    [done..|].
  apply ltb_incomparable; [by apply Hmax | by apply Hqmax].
Qed.

Lemma firstBefore_noneBefore (month : string) (s : Store.t) :
  noneBefore month s -> Prisma.firstBefore month s = None.
Proof.
  intros H. unfold Prisma.firstBefore.
  assert (E : List.filter
                (fun m => String.ltb (MonthlySnapshot.month m) month)
                (Store.monthlySnapshots s) = []).
  { unfold noneBefore in H. revert H.
    generalize (Store.monthlySnapshots s) as l.
    induction l as [|a l IH]; intros H; [done|]. cbn.
    rewrite (H a) by (by left). apply IH. intros m Hm. apply H. by right. }
  by rewrite E.
Qed.

Lemma find_filter {A} (p q : A -> bool) (l : list A) :
  List.find q (List.filter p l) = List.find (fun a => p a && q a) l.
Proof.
  induction l as [|a l IH]; [done|]. cbn.
  destruct (p a); cbn; [|done]. by destruct (q a).
Qed.

Lemma fold_insert_lookup
    (l : list SnapshotEntry.t) (m0 : gmap string Z) (cid : string) :
  fold_left
    (fun m entry =>
       <[SnapshotEntry.chefId entry := SnapshotEntry.rank entry]> m)
    l m0 !! cid
  = match
      List.find (fun e => String.eqb (SnapshotEntry.chefId e) cid) (rev l)
    with
    | Some e => Some (SnapshotEntry.rank e)
    | None => m0 !! cid
    end.
Proof.
  revert m0. induction l as [|e l IH]; intros m0; [done|].
  cbn [fold_left rev]. rewrite IH, find_app.
  destruct (List.find _ (rev l)); [done|]. cbn.
  destruct (String.eqb_spec (SnapshotEntry.chefId e) cid) as [->|N].
  - apply lookup_insert_eq.
  - by apply lookup_insert_ne.
Qed.

Lemma prevRankMap_lookup
    (p : MonthlySnapshot.t) (s : Store.t) (cid : string) :
  prevRankMap
    (Some (p, List.filter (Prisma.ofSnapshot (MonthlySnapshot.id p))
                (Store.snapshotEntries s))) !! cid
  = priorRank p cid s.
Proof.
  unfold prevRankMap, priorRank.
  rewrite fold_insert_lookup, <- filter_rev, find_filter.
  fold (entryFor (MonthlySnapshot.id p) cid).
  change (fun a => Prisma.ofSnapshot (MonthlySnapshot.id p) a
                   && String.eqb (SnapshotEntry.chefId a) cid)
    with (entryFor (MonthlySnapshot.id p) cid).
  by destruct (List.find _ _).
Qed.

End Previous.

(** ** The snapshot builder in closed form *)

Section Snapshot.

Lemma append_length (a b : string) :
  String.length (String.append a b)
  = (String.length a + String.length b)%nat.
Proof. induction a as [|c a IH]; simpl; [done | by f_equal]. Qed.

Lemma freshId_length (used : list string) (x : string) :
  In x used ->
  (String.length x < String.length (freshId used))%nat.
Proof.
  unfold freshId. induction used as [|y used IH]; [done|].
  intros [->|H]; cbn in *.
  - rewrite append_length. lia.
  - specialize (IH H). rewrite append_length. lia.
Qed.

Lemma freshId_fresh (used : list string) : ~ In (freshId used) used.
Proof. intros H. apply freshId_length in H. lia. Qed.

Lemma filter_hasMonth_none (month : string) (rows : list MonthlySnapshot.t) :
  ~ In month (map MonthlySnapshot.month rows) ->
  List.filter (Prisma.hasMonth month) rows = [].
Proof.
  induction rows as [|a rows IH]; [done|]. cbn. intros H.
  assert (Ha : Prisma.hasMonth month a = false).
  { unfold Prisma.hasMonth. apply String.eqb_neq. intros E. apply H. by left. }
  rewrite Ha. apply IH. intros Hin. apply H. by right.
Qed.

Lemma filter_hasMonth_updated
    (month : string) (upd : MonthlySnapshot.t -> MonthlySnapshot.t)
    (rows : list MonthlySnapshot.t) (old : MonthlySnapshot.t) :
  (forall m, MonthlySnapshot.month (upd m) = MonthlySnapshot.month m) ->
  NoDup (map MonthlySnapshot.month rows) -> In old rows ->
  MonthlySnapshot.month old = month ->
  List.filter (Prisma.hasMonth month)
    (map (fun m => if Prisma.hasMonth month m then upd m else m) rows)
  = [upd old].
Proof.
  intros Hupd. induction rows as [|a rows IH]; [done|].
  cbn [map List.filter]. intros Hnd Hin Hm.
  apply NoDup_cons in Hnd as [Ha Hnd].
  assert (Hk : forall m, Prisma.hasMonth month
                           (if Prisma.hasMonth month m then upd m else m)
                         = Prisma.hasMonth month m).
  { intros m. destruct (Prisma.hasMonth month m) eqn:E; [|done].
    unfold Prisma.hasMonth in *. by rewrite Hupd. }
  rewrite Hk. destruct Hin as [->|Hin].
  - assert (E : Prisma.hasMonth month old = true).
    { unfold Prisma.hasMonth. rewrite Hm. apply String.eqb_refl. }
    rewrite E. f_equal.
    assert (F : List.filter (Prisma.hasMonth month) rows = []).
    { apply filter_hasMonth_none. rewrite <- Hm.
      by rewrite <- list_elem_of_In. }
    clear IH Hnd Ha. induction rows as [|b rows IH]; [done|].
    cbn in *. rewrite Hk.
    destruct (Prisma.hasMonth month b); [done | by apply IH].
  - assert (E : Prisma.hasMonth month a = false).
    { unfold Prisma.hasMonth. apply String.eqb_neq. intros E.
      apply Ha. rewrite E, <- Hm. by apply list_elem_of_In, in_map. }
    rewrite E. by apply IH.
Qed.

Lemma upsertMonth_spec
    (month : string) (notes : option string) (now : Z)
    (rows : list MonthlySnapshot.t) :
  In (Prisma.upsertMonth month notes now rows).2
    (Prisma.upsertMonth month notes now rows).1
  /\ MonthlySnapshot.month (Prisma.upsertMonth month notes now rows).2
     = month
  /\ (forall old, In old rows -> MonthlySnapshot.month old = month ->
        NoDup (map MonthlySnapshot.month rows) ->
        MonthlySnapshot.id (Prisma.upsertMonth month notes now rows).2
        = MonthlySnapshot.id old)
  /\ (NoDup (map MonthlySnapshot.month rows) ->
      NoDup
        (map MonthlySnapshot.month
           (Prisma.upsertMonth month notes now rows).1)
      /\ List.filter (Prisma.hasMonth month)
           (Prisma.upsertMonth month notes now rows).1
         = [(Prisma.upsertMonth month notes now rows).2]).
Proof.
  unfold Prisma.upsertMonth.
  destruct (List.find (Prisma.hasMonth month) rows) as [old|] eqn:F;
    cbn [fst snd].
  - apply find_some in F as [Hold Hm]. unfold Prisma.hasMonth in Hm.
    apply String.eqb_eq in Hm.
    set (upd := fun m : MonthlySnapshot.t =>
                  MonthlySnapshot.mk (MonthlySnapshot.id m)
                    (MonthlySnapshot.month m) (Some now)
                    match notes with
                    | Some n => Some n
                    | None => MonthlySnapshot.notes m
                    end).
    split; [|split; [done|split]].
    + apply in_map_iff. exists old. split; [|done].
      unfold Prisma.hasMonth. by rewrite Hm, String.eqb_refl.
    + intros o Ho Eo Hnd. cbn. f_equal.
      apply (NoDup_map_inj MonthlySnapshot.month rows); [done..|congruence].
    + intros Hnd. split.
      * rewrite map_map. erewrite map_ext; [exact Hnd|]. intros m. cbn.
        by destruct (Prisma.hasMonth month m).
      * by apply (filter_hasMonth_updated month upd rows old).
  - pose proof (find_none _ _ F) as Hn.
    assert (Hnone : ~ In month (map MonthlySnapshot.month rows)).
    { intros (o & Eo & Ho)%in_map_iff. specialize (Hn o Ho).
      unfold Prisma.hasMonth in Hn. by apply String.eqb_neq in Hn. }
    split; [|split; [done|split]].
    + apply in_or_app. right. by left.
    + intros old Ho Eo _. exfalso. apply Hnone. rewrite <- Eo.
      by apply in_map.
    + intros Hnd. split.
      * rewrite map_app. cbn. apply NoDup_app. repeat split; [done| |].
        -- intros m Hm [->|[]]%list_elem_of_In.
           by apply Hnone, list_elem_of_In.
        -- apply NoDup_singleton.
      * rewrite List.filter_app, (filter_hasMonth_none _ _ Hnone). cbn.
        unfold Prisma.hasMonth. cbn. by rewrite String.eqb_refl.
Qed.

End Snapshot.

Section SnapshotRun.

Lemma withEntries_same (s : Store.t) :
  withEntries (Store.snapshotEntries s) s = s.
Proof. by destruct s. Qed.

Lemma existsb_false {A} (p : A -> bool) (l : list A) :
  (forall x, In x l -> p x = false) -> existsb p l = false.
Proof.
  intros H. apply not_true_is_false. intros (x & Hx & Px)%existsb_exists.
  rewrite (H x Hx) in Px. done.
Qed.

Lemma snapshotEntry_create_run (e : SnapshotEntry.t) (s : Store.t) :
  (forall e', In e' (Store.snapshotEntries s) ->
     Prisma.ofSnapshot (SnapshotEntry.snapshotId e) e' = true ->
     SnapshotEntry.chefId e' <> SnapshotEntry.chefId e) ->
  In (SnapshotEntry.chefId e) (chefIds s) ->
  In (SnapshotEntry.snapshotId e)
    (map MonthlySnapshot.id (Store.monthlySnapshots s)) ->
  Prisma.snapshotEntry_create e s
  = (withEntries (Store.snapshotEntries s ++ [e]) s, Some tt).
Proof.
  intros Hkey Hchef Hsnap. unfold Prisma.snapshotEntry_create.
  rewrite existsb_false.
  - assert (E1 : existsb (Prisma.hasId (SnapshotEntry.chefId e))
                   (Store.chefs s) = true).
    { apply existsb_exists. apply in_map_iff in Hchef as (c & E & Hc).
      exists c. split; [done|]. unfold Prisma.hasId. rewrite E.
      apply String.eqb_refl. }
    assert (E2 : existsb
                   (fun m => String.eqb (MonthlySnapshot.id m)
                               (SnapshotEntry.snapshotId e))
                   (Store.monthlySnapshots s) = true).
    { apply existsb_exists. apply in_map_iff in Hsnap as (m & E & Hm).
      exists m. split; [done|]. rewrite E. apply String.eqb_refl. }
    by rewrite E1, E2.
  - intros e' He'. unfold Prisma.sameKey.
    destruct (String.eqb (SnapshotEntry.snapshotId e')
                (SnapshotEntry.snapshotId e)) eqn:E; [|done].
    cbn. apply String.eqb_neq. by apply Hkey.
Qed.

Lemma forEach_snapshotChef
    (k : Clock.t) (w : gmap string Q) (pr : gmap string Z)
    (snap : MonthlySnapshot.t) (cs : list Chef.t) (s : Store.t) :
  NoDup (map Chef.id cs) ->
  (forall c, In c cs ->
     In (Chef.id c) (chefIds s) /\ is_Some (Chef.rank c)) ->
  In (MonthlySnapshot.id snap)
    (map MonthlySnapshot.id (Store.monthlySnapshots s)) ->
  (forall e, In e (Store.snapshotEntries s) ->
     Prisma.ofSnapshot (MonthlySnapshot.id snap) e = true ->
     ~ In (SnapshotEntry.chefId e) (map Chef.id cs)) ->
  forEach (snapshotChef k w pr snap) cs s
  = (withEntries
       (Store.snapshotEntries s
        ++ map (entryOf k w pr (MonthlySnapshot.id snap)) cs) s,
     Some tt).
Proof.
  revert s. induction cs as [|c cs IH]; intros s Hnd Hcs Hsnap Hold.
  - cbn. by rewrite app_nil_r, withEntries_same.
  - apply NoDup_cons in Hnd as [Hc Hnd].
    destruct (Hcs c (or_introl eq_refl)) as [Hid [r Hr]].
    cbn [forEach]. unfold mbind, M_bind, bind.
    assert (Ee : snapshotChef k w pr snap c
                 = Prisma.snapshotEntry_create
                     (entryOf k w pr (MonthlySnapshot.id snap) c)).
    { unfold snapshotChef, entryOf. by rewrite Hr. }
    rewrite Ee, snapshotEntry_create_run; [|cbn..]; [|
      intros e' He' Hs E; apply (Hold e' He' Hs); left; by rewrite E
      | done | done].
    rewrite IH; [| done | | done |].
    + unfold withEntries. cbn [Store.chefs Store.scoringWeights
        Store.monthlySnapshots Store.snapshotEntries map].
      by rewrite <- app_assoc.
    + intros c' Hc'. apply (Hcs c'). by right.
    + cbn. intros e He Hs Hin. apply in_app_or in He as [He|[<-|[]]].
      * apply (Hold e He Hs). by right.
      * apply Hc. by apply list_elem_of_In.
Qed.

Lemma chefsByRank_Permutation (s : Store.t) :
  chefsByRank s ≡ₚ activeChefs s.
Proof. apply sortBy_Permutation. Qed.

(** One run of [createMonthlySnapshot]: the store it leaves and the
    identifier it returns. *)
Lemma createMonthlySnapshot_run
    (k : Clock.t) (month : string) (notes : option string) (s : Store.t) :
  NoDup (chefIds s) ->
  let s1 := withChefs (map (rankChef 0 (ranking k s)) (Store.chefs s)) s in
  let up :=
    Prisma.upsertMonth month notes (Clock.now k) (Store.monthlySnapshots s) in
  createMonthlySnapshot k month notes s
  = (Store.mk (Store.chefs s1) (Store.scoringWeights s) up.1
       (List.filter
          (fun e => negb (Prisma.ofSnapshot (MonthlySnapshot.id up.2) e))
          (Store.snapshotEntries s)
        ++ map
             (entryOf k (weightsOf s) (prevRankMap (Prisma.firstBefore month s))
                (MonthlySnapshot.id up.2))
             (chefsByRank s1)),
     Some (MonthlySnapshot.id up.2)).
Proof.
  intros Hnd s1 up. unfold createMonthlySnapshot, mbind, M_bind, bind.
  rewrite recalculateAllScores_run by done. fold s1.
  unfold Prisma.chef_findMany_active_byRank at 1. rewrite getWeights_run.
  unfold Prisma.monthlySnapshot_findFirst_before at 1.
  unfold Prisma.monthlySnapshot_upsert at 1.
  change (Store.monthlySnapshots s1) with (Store.monthlySnapshots s).
  fold up. destruct up as [rows snap] eqn:Eup. cbn [fst snd].
  unfold Prisma.snapshotEntry_deleteMany at 1.
  change (weightsOf s1) with (weightsOf s).
  change (Prisma.firstBefore month s1) with (Prisma.firstBefore month s).
  fold (activeChefs s1). fold (chefsByRank s1).
  assert (Hids1 : chefIds s1 = chefIds s).
  { unfold chefIds, s1. cbn. rewrite map_map. apply map_ext.
    intros c. apply rankChef_id. }
  rewrite forEach_snapshotChef.
  - reflexivity.
  - rewrite chefsByRank_Permutation. apply activeChefs_ids_NoDup.
    by rewrite Hids1.
  - intros c Hc. apply list_elem_of_In in Hc.
    rewrite chefsByRank_Permutation in Hc. apply list_elem_of_In in Hc.
    split.
    + cbn. change (map Chef.id (Store.chefs s1)) with (chefIds s1).
      unfold activeChefs in Hc. apply filter_In in Hc as [Hc _].
      by apply in_map.
    + unfold s1 in Hc. rewrite activeChefs_after in Hc.
      destruct (ranked_In_inv k s Hnd c Hc) as (c0 & j & _ & _ & ->).
      by eexists.
  - cbn. pose proof (upsertMonth_spec month notes (Clock.now k)
                       (Store.monthlySnapshots s)) as (Hin & _).
    fold up in Hin. rewrite Eup in Hin. by apply in_map.
  - cbn. intros e He Hs _. apply filter_In in He as [_ He].
    by rewrite Hs in He.
Qed.

End SnapshotRun.

(** ** Snapshots *)

Section SnapshotFacts.

Lemma filter_ofSnapshot_entries
    (k : Clock.t) (w : gmap string Q) (pr : gmap string Z) (sid sid' : string)
    (cs : list Chef.t) :
  List.filter (Prisma.ofSnapshot sid') (map (entryOf k w pr sid) cs)
  = if String.eqb sid sid' then map (entryOf k w pr sid) cs else [].
Proof.
  induction cs as [|c cs IH]; [by destruct (String.eqb sid sid')|].
  cbn [map List.filter]. rewrite IH.
  assert (E : Prisma.ofSnapshot sid' (entryOf k w pr sid c)
              = String.eqb sid sid') by reflexivity.
  rewrite E. by destruct (String.eqb sid sid').
Qed.

Lemma filter_ofSnapshot_others (sid sid' : string) (es : list SnapshotEntry.t) :
  List.filter (Prisma.ofSnapshot sid')
    (List.filter (fun e => negb (Prisma.ofSnapshot sid e)) es)
  = if String.eqb sid sid' then []
    else List.filter (Prisma.ofSnapshot sid') es.
Proof.
  induction es as [|e es IH]; [by destruct (String.eqb sid sid')|].
  cbn [List.filter].
  destruct (Prisma.ofSnapshot sid e) eqn:E1; cbn [negb List.filter];
    rewrite IH; destruct (Prisma.ofSnapshot sid' e) eqn:E2;
    destruct (String.eqb_spec sid sid') as [F|F]; try done.
  - unfold Prisma.ofSnapshot in E1, E2.
    apply String.eqb_eq in E1, E2. congruence.
  - subst sid'. congruence.
Qed.

(** The entries of the returned snapshot after a run. *)
Lemma entriesOf_after
    (k : Clock.t) (month : string) (notes : option string) (s : Store.t) :
  NoDup (chefIds s) ->
  let r := createMonthlySnapshot k month notes s in
  let s1 := withChefs (map (rankChef 0 (ranking k s)) (Store.chefs s)) s in
  let sid :=
    MonthlySnapshot.id
      (Prisma.upsertMonth month notes (Clock.now k)
         (Store.monthlySnapshots s)).2 in
  r.2 = Some sid
  /\ activeChefs r.1 = activeChefs s1
  /\ Store.monthlySnapshots r.1
     = (Prisma.upsertMonth month notes (Clock.now k)
          (Store.monthlySnapshots s)).1
  /\ entriesOf sid r.1
     = map (entryOf k (weightsOf s) (prevRankMap (Prisma.firstBefore month s))
              sid)
         (chefsByRank s1)
  /\ forall sid', sid' <> sid -> entriesOf sid' r.1 = entriesOf sid' s.
Proof.
  intros Hnd r s1 sid. unfold r.
  rewrite (createMonthlySnapshot_run k month notes s Hnd). cbn [fst snd].
  fold s1 sid. repeat split.
  - unfold entriesOf. cbn. rewrite List.filter_app.
    rewrite filter_ofSnapshot_others, filter_ofSnapshot_entries.
    by rewrite String.eqb_refl.
  - intros sid' N. unfold entriesOf. cbn. rewrite List.filter_app.
    rewrite filter_ofSnapshot_others, filter_ofSnapshot_entries.
    destruct (String.eqb_spec sid sid') as [E|_]; [congruence|].
    by rewrite app_nil_r.
Qed.

End SnapshotFacts.

(** The constraints on the store are kept by a run, so they hold in every
    store the builder can leave. *)
Lemma createMonthlySnapshot_storeOk
    (k : Clock.t) (month : string) (notes : option string) (s : Store.t) :
  storeOk s -> storeOk (createMonthlySnapshot k month notes s).1.
Proof.
  intros (Hnd & Hm & Hr).
  rewrite (createMonthlySnapshot_run k month notes s Hnd). cbn [fst].
  destruct (upsertMonth_spec month notes (Clock.now k)
              (Store.monthlySnapshots s)) as (_ & _ & _ & Hone).
  destruct (Hone Hm) as [Hm' _]. split; [|split].
  - unfold chefIds. cbn. rewrite map_map.
    erewrite map_ext; [exact Hnd|]. intros c. apply rankChef_id.
  - exact Hm'.
  - cbn [Store.snapshotEntries]. apply List.Forall_app. split.
    + rewrite List.Forall_forall in *. intros e He.
      apply filter_In in He as [He _]. by apply Hr.
    + rewrite List.Forall_forall. intros e (c & <- & Hc)%in_map_iff.
      apply list_elem_of_In in Hc. rewrite chefsByRank_Permutation in Hc.
      apply list_elem_of_In in Hc. rewrite activeChefs_after in Hc.
      destruct (ranked_In_inv k s Hnd c Hc) as (c0 & j & _ & _ & ->).
      cbn. lia.
Qed.

Lemma empty_storeOk : storeOk Store.empty.
Proof. repeat split; constructor. Qed.

(** C6.  [createMonthlySnapshot] replaces the snapshot of a month: after
    the call the month has exactly one row, which is the row it had before
    when there was one; the entries of that row are one for each chef that
    is not archived now, and nothing else, whatever entries an earlier
    publication left; the entries of other snapshots are untouched. *)
Theorem createMonthlySnapshot_replaces
    (k : Clock.t) (month : string) (notes : option string) (s : Store.t) :
  NoDup (chefIds s) -> NoDup (months s) ->
  exists s' snapshot,
    createMonthlySnapshot k month notes s
    = (s', Some (MonthlySnapshot.id snapshot))
    /\ snapshotsOf month s' = [snapshot]
    /\ (forall old, In old (snapshotsOf month s) ->
          MonthlySnapshot.id snapshot = MonthlySnapshot.id old)
    /\ map SnapshotEntry.chefId (entriesOf (MonthlySnapshot.id snapshot) s')
       ≡ₚ map Chef.id (activeChefs s')
    /\ NoDup
         (map SnapshotEntry.chefId (entriesOf (MonthlySnapshot.id snapshot) s'))
    /\ forall sid, sid <> MonthlySnapshot.id snapshot ->
         entriesOf sid s' = entriesOf sid s.
Proof.
  intros Hnd Hm.
  destruct (entriesOf_after k month notes s Hnd) as (R & A & S & E & O).
  destruct (upsertMonth_spec month notes (Clock.now k)
              (Store.monthlySnapshots s)) as (_ & _ & Hold & Hone).
  destruct (Hone Hm) as [_ One].
  exists (createMonthlySnapshot k month notes s).1,
    (Prisma.upsertMonth month notes (Clock.now k)
       (Store.monthlySnapshots s)).2.
  assert (Ec : map SnapshotEntry.chefId
                 (entriesOf
                    (MonthlySnapshot.id
                       (Prisma.upsertMonth month notes (Clock.now k)
                          (Store.monthlySnapshots s)).2)
                    (createMonthlySnapshot k month notes s).1)
               ≡ₚ map Chef.id
                    (activeChefs (createMonthlySnapshot k month notes s).1)).
  { rewrite E, A, map_map.
    rewrite <- (chefsByRank_Permutation
                  (withChefs (map (rankChef 0 (ranking k s)) (Store.chefs s))
                     s)).
    reflexivity. }
  split; [|split; [|split; [|split; [|split]]]].
  - rewrite <- R. by destruct (createMonthlySnapshot k month notes s).
  - unfold snapshotsOf. by rewrite S.
  - intros old [Ho Eo]%filter_In. apply Hold; [done| |done].
    by apply String.eqb_eq.
  - exact Ec.
  - rewrite Ec, A. apply activeChefs_ids_NoDup.
    unfold chefIds. cbn. rewrite map_map.
    erewrite map_ext; [exact Hnd|]. intros c. apply rankChef_id.
  - exact O.
Qed.

Lemma priorRank_positive
    (p : MonthlySnapshot.t) (cid : string) (s : Store.t) (r : Z) :
  Forall (fun e => (1 <= SnapshotEntry.rank e)%Z) (Store.snapshotEntries s) ->
  priorRank p cid s = Some r -> (1 <= r)%Z.
Proof.
  intros Hall. unfold priorRank.
  destruct (List.find _ _) as [e|] eqn:F; [|done]. intros [= <-].
  apply find_some in F as [He _]. apply in_rev in He.
  rewrite List.Forall_forall in Hall. by apply Hall.
Qed.

(** C3.  Every entry [createMonthlySnapshot] writes carries the chef's
    current rank.  When the chef has an entry in the latest snapshot whose
    month is less than the target month, [delta] is that entry's rank minus
    the current rank; when it has none there, and when no earlier snapshot
    exists, [delta] is null. *)
Theorem createMonthlySnapshot_delta
    (k : Clock.t) (month : string) (notes : option string) (s : Store.t) :
  storeOk s ->
  exists s' sid,
    createMonthlySnapshot k month notes s = (s', Some sid)
    /\ forall e, In e (entriesOf sid s') ->
         (exists c, In c (activeChefs s')
                    /\ Chef.id c = SnapshotEntry.chefId e
                    /\ Chef.rank c = Some (SnapshotEntry.rank e))
         /\ (forall p, immediatelyPreceding month s p ->
               SnapshotEntry.delta e
               = match priorRank p (SnapshotEntry.chefId e) s with
                 | Some previousRank =>
                     Some (previousRank - SnapshotEntry.rank e)%Z
                 | None => None
                 end)
         /\ (noneBefore month s -> SnapshotEntry.delta e = None).
Proof.
  intros (Hnd & Hm & Hr).
  destruct (entriesOf_after k month notes s Hnd) as (R & A & _ & E & _).
  exists (createMonthlySnapshot k month notes s).1. eexists.
  split; [rewrite <- R; by destruct (createMonthlySnapshot k month notes s)|].
  intros e He. rewrite E in He. apply in_map_iff in He as (c & <- & Hc).
  apply list_elem_of_In in Hc. rewrite chefsByRank_Permutation in Hc.
  apply list_elem_of_In in Hc. rewrite A.
  pose proof Hc as Hc'. rewrite activeChefs_after in Hc'.
  destruct (ranked_In_inv k s Hnd c Hc') as (c0 & j & _ & _ & Ec).
  assert (Rc : Chef.rank c = Some (Z.of_nat j + 1)%Z) by (by rewrite Ec).
  split; [|split].
  - exists c. repeat split; [done|]. cbn. by rewrite Rc.
  - intros p Hp. cbn [SnapshotEntry.delta SnapshotEntry.chefId
                        SnapshotEntry.rank entryOf].
    rewrite (firstBefore_immediatelyPreceding month s p Hm Hp).
    rewrite prevRankMap_lookup, Rc.
    destruct (priorRank p (Chef.id c) s) as [r|] eqn:P; [|done].
    pose proof (priorRank_positive p _ s r Hr P) as Hpos.
    unfold deltaOf, JS.truthy.
    destruct (Z.eqb_spec r 0) as [->|_]; [lia|].
    destruct (Z.eqb_spec (Z.of_nat j + 1) 0) as [?|_]; [lia|]. done.
  - intros Hn. cbn [SnapshotEntry.delta entryOf].
    by rewrite (firstBefore_noneBefore month s Hn).
Qed.

(** C5, as amended.  The route [POST /api/snapshots] answers a month that
    is missing, empty or not of the form of four digits, a hyphen and two
    digits with status 400 and leaves the store as it is: nothing is
    recalculated and no snapshot row or entry is written. *)
Theorem POST_rejects_malformed_month
    (k : Clock.t) (body : SnapshotsRoute.Body) (s : Store.t) :
  (forall m, SnapshotsRoute.month body = Some m ->
             JS.testMonthPattern m = false) ->
  exists error,
    SnapshotsRoute.POST k body s = (s, SnapshotsRoute.Json400 error).
Proof.
  intros H. unfold SnapshotsRoute.POST.
  destruct (SnapshotsRoute.month body) as [m|]; [|by eexists].
  rewrite (H m eq_refl), orb_true_r. by eexists.
Qed.

(** C5, counterexample.  [createMonthlySnapshot] itself does not look at
    the form of the month: called with "2026-1" it recalculates the ranks
    and writes a snapshot row and four entries. *)
Lemma createMonthlySnapshot_accepts_malformed_month :
  JS.testMonthPattern "2026-1" = false
  /\ exists s' sid,
       createMonthlySnapshot sampleClock "2026-1" None sampleStore
       = (s', Some sid)
       /\ months s' = ["2026-1"]
       /\ length (entriesOf sid s') = 4%nat
       /\ map Chef.rank (Store.chefs s')
          = [Some 3%Z; Some 2%Z; None; Some 4%Z; Some 1%Z].
Proof.
  split; [reflexivity|].
  exists (createMonthlySnapshot sampleClock "2026-1" None sampleStore).1.
  eexists. split; [|split; [|split]]; vm_compute; reflexivity.
Qed.

(** ** The properties on the example stores *)

Lemma sampleStore_ids : NoDup (chefIds sampleStore).
Proof. apply (bool_decide_unpack _). vm_compute. exact I. Defined.

Lemma changedStore_ok : storeOk changedStore.
Proof.
  repeat split; apply (bool_decide_unpack _); vm_compute; exact I.
Defined.

(** The batch on the five example chefs. *)
Lemma recalculateAllScores_dense_ranks_witness :
  NoDup (chefIds sampleStore)
  /\ exists s',
       recalculateAllScores sampleClock sampleStore = (s', Some tt)
       /\ map Chef.rank (activeChefs s')
          ≡ₚ map (fun i => Some (Z.of_nat i))
               (seq 1 (length (activeChefs s'))).
Proof.
  split; [exact sampleStore_ids|].
  destruct (recalculateAllScores_dense_ranks sampleClock sampleStore
              sampleStore_ids) as (s' & R & _ & P & _).
  exists s'. split; [exact R | exact P].
Defined.

Lemma recalculateAllScores_idempotent_witness :
  NoDup (chefIds sampleStore)
  /\ exists s1,
       recalculateAllScores sampleClock sampleStore = (s1, Some tt)
       /\ recalculateAllScores sampleClock s1 = (s1, Some tt).
Proof.
  split; [exact sampleStore_ids|].
  exact (recalculateAllScores_idempotent sampleClock sampleStore
           sampleStore_ids).
Defined.

Lemma january_precedes_february :
  immediatelyPreceding "2026-02" changedStore
    (MonthlySnapshot.mk "c" "2026-01" (Some 2000%Z) None).
Proof.
  unfold immediatelyPreceding.
  assert (E : Store.monthlySnapshots changedStore
              = [MonthlySnapshot.mk "c" "2026-01" (Some 2000%Z) None])
    by (vm_compute; reflexivity).
  rewrite E. split; [by left|]. split; [reflexivity|].
  intros m [<-|[]] _. reflexivity.
Defined.

(** The snapshot of February 2026 after that of January and a change of
    roster: every delta is taken against the entries of January. *)
Lemma createMonthlySnapshot_delta_witness :
  storeOk changedStore
  /\ exists s' sid,
       createMonthlySnapshot sampleClock "2026-02" None changedStore
       = (s', Some sid)
       /\ forall e, In e (entriesOf sid s') ->
            SnapshotEntry.delta e
            = match
                priorRank (MonthlySnapshot.mk "c" "2026-01" (Some 2000%Z) None)
                  (SnapshotEntry.chefId e) changedStore
              with
              | Some previousRank =>
                  Some (previousRank - SnapshotEntry.rank e)%Z
              | None => None
              end.
Proof.
  split; [exact changedStore_ok|].
  destruct (createMonthlySnapshot_delta sampleClock "2026-02" None
              changedStore changedStore_ok) as (s' & sid & R & H).
  exists s', sid. split; [exact R|].
  intros e He. destruct (H e He) as (_ & P & _).
  exact (P _ january_precedes_february).
Defined.

(** Publishing January 2026 a second time after the roster changed. *)
Lemma createMonthlySnapshot_replaces_witness :
  NoDup (chefIds changedStore) /\ NoDup (months changedStore)
  /\ exists s' snapshot,
       createMonthlySnapshot sampleClock "2026-01" (Some "again") changedStore
       = (s', Some (MonthlySnapshot.id snapshot))
       /\ snapshotsOf "2026-01" s' = [snapshot]
       /\ map SnapshotEntry.chefId (entriesOf (MonthlySnapshot.id snapshot) s')
          ≡ₚ map Chef.id (activeChefs s').
Proof.
  destruct changedStore_ok as (I & M & _).
  split; [exact I|]. split; [exact M|].
  destruct (createMonthlySnapshot_replaces sampleClock "2026-01"
              (Some "again") changedStore I M)
    as (s' & snapshot & R & One & _ & P & _).
  exists s', snapshot. split; [exact R|]. split; [exact One | exact P].
Defined.

Lemma POST_rejects_malformed_month_witness :
  JS.testMonthPattern "2026-1" = false
  /\ exists error,
       SnapshotsRoute.POST sampleClock
         (SnapshotsRoute.mkBody (Some "2026-1") None) sampleStore
       = (sampleStore, SnapshotsRoute.Json400 error).
Proof.
  split; [reflexivity|].
  apply (POST_rejects_malformed_month sampleClock
           (SnapshotsRoute.mkBody (Some "2026-1") None) sampleStore).
  intros m [= <-]. reflexivity.
Defined.

(** The entries of February 2026 in the example: the two chefs that were
    not in the snapshot of January have no delta, the chef that went from
    rank 1 to rank 2 has delta -1, and the two that kept their rank have
    delta 0. *)
Example february_deltas :
  map (fun e => (SnapshotEntry.chefId e, SnapshotEntry.rank e,
                 SnapshotEntry.delta e))
    (entriesOf "cc"
       (createMonthlySnapshot sampleClock "2026-02" None changedStore).1)
  = [("z", 1%Z, None); ("d", 2%Z, Some (-1)%Z); ("a", 3%Z, Some 0%Z);
     ("c", 4%Z, Some 0%Z); ("e", 5%Z, None)].
Proof. vm_compute. reflexivity. Qed.

(** A second publication of January 2026 leaves one row for the month and
    the five entries of the current roster. *)
Example january_republished :
  let s' :=
    (createMonthlySnapshot sampleClock "2026-01" None changedStore).1 in
  months s' = ["2026-01"]
  /\ map SnapshotEntry.chefId (Store.snapshotEntries s')
     = ["z"; "d"; "a"; "c"; "e"].
Proof. vm_compute. split; reflexivity. Qed.

(** The end-to-end scenario: ten years of experience and one current
    position as executive chef give [careerTrack = 56] and, at the default
    weights, a total of 14. *)
Example executive_chef_scenario :
  let chef :=
    ChefRecords.mk []
      [CareerEntry.mk true None None "Executive Chef" 0] [] [] (Some 10%Z) in
  let b := calculateBreakdown sampleClock chef in
  (ScoreBreakdown.careerTrack b == 56)%Q
  /\ (ScoreBreakdown.formalAccolades b == 0)%Q
  /\ (calculateTotalScore b DEFAULT_WEIGHTS == 14)%Q.
Proof. vm_compute. repeat split. Qed.

(** * Further properties *)

(** ** Bounds that need no assumption *)

(** X1.  For every input, also one with negative experience or negative
    signal values, no category of the breakdown exceeds 100, and the two
    categories computed from counts alone, [formalAccolades] and
    [peerStanding], are never negative. *)
Theorem calculateBreakdown_bounds_for_every_input
    (k : Clock.t) (chef : ChefRecords.t) :
  (0 <= ScoreBreakdown.formalAccolades (calculateBreakdown k chef) <= 100)%Q
  /\ (ScoreBreakdown.careerTrack (calculateBreakdown k chef) <= 100)%Q
  /\ (ScoreBreakdown.publicSignals (calculateBreakdown k chef) <= 100)%Q
  /\ (0 <= ScoreBreakdown.peerStanding (calculateBreakdown k chef) <= 100)%Q.
Proof.
  destruct (calculateBreakdown_upper k chef) as (U1 & U2 & U3 & U4).
  destruct (calculateBreakdown_count_based_nonneg k chef) as (L1 & L4).
  by repeat split.
Qed.

(** ** The breakdown on well-formed input *)

Section BreakdownMore.
Local Open Scope Q_scope.

Lemma round1_mono (x y : Q) : x <= y -> round1 x <= round1 y.
Proof.
  intros H. unfold round1, JS.Math_round.
  apply Qmult_le_compat_r; [|discriminate].
  rewrite <- Zle_Qle. apply Qfloor_resp_le. lra.
Qed.

Lemma signalSum_nonneg (l : list PublicSignal.t) (acc : Q) :
  0 <= acc ->
  (forall s v, In s l -> PublicSignal.value s = Some v -> 0 <= v) ->
  0 <= fold_left (fun sum s => sum + JS.orZero (PublicSignal.value s)) l acc.
Proof.
  revert acc. induction l as [|s l IH]; intros acc Ha Hl; [exact Ha|].
  cbn [fold_left]. apply IH.
  - assert (0 <= JS.orZero (PublicSignal.value s)).
    { destruct (PublicSignal.value s) as [v|] eqn:E; cbn; [|apply Qle_refl].
      apply (Hl s v); [by left | exact E]. }
    lra.
  - intros s' v Hs. apply Hl. by right.
Qed.

Lemma bonus_nonneg (n : nat) :
  0 <= (if (1 <? n)%nat then Qmin 20 ((num n - 1) * 5) else 0).
Proof.
  destruct (Nat.ltb_spec 1 n) as [L|L]; [|apply Qle_refl].
  apply Q.min_glb; [discriminate|].
  assert (1 <= num n).
  { unfold num. change 1 with (inject_Z 1). rewrite <- Zle_Qle. lia. }
  nra.
Qed.

Lemma num_le (n m : nat) : (n <= m)%nat -> num n <= num m.
Proof. intros H. unfold num. rewrite <- Zle_Qle. lia. Qed.

Lemma bonus_mono (n m : nat) :
  (n <= m)%nat ->
  (if (1 <? n)%nat then Qmin 20 ((num n - 1) * 5) else 0)
  <= (if (1 <? m)%nat then Qmin 20 ((num m - 1) * 5) else 0).
Proof.
  intros H. destruct (Nat.ltb_spec 1 n) as [Ln|Ln].
  - destruct (Nat.ltb_spec 1 m) as [Lm|Lm]; [|lia].
    apply Q.min_le_compat_l. pose proof (num_le n m H). lra.
  - apply (bonus_nonneg m).
Qed.

End BreakdownMore.

(** X2.  When [yearsExperience] is null or not negative and no public
    signal carries a negative value, each of the four categories lies
    between 0 and 100. *)
Theorem calculateBreakdown_range (k : Clock.t) (chef : ChefRecords.t) :
  (forall y, ChefRecords.yearsExperience chef = Some y -> (0 <= y)%Z) ->
  (forall s v, In s (ChefRecords.publicSignals chef) ->
               PublicSignal.value s = Some v -> (0 <= v)%Q) ->
  (0 <= ScoreBreakdown.formalAccolades (calculateBreakdown k chef) <= 100)%Q
  /\ (0 <= ScoreBreakdown.careerTrack (calculateBreakdown k chef) <= 100)%Q
  /\ (0 <= ScoreBreakdown.publicSignals (calculateBreakdown k chef) <= 100)%Q
  /\ (0 <= ScoreBreakdown.peerStanding (calculateBreakdown k chef) <= 100)%Q.
Proof.
  intros Hy Hs. cbn.
  assert (C : (0 <= careerTrackRaw k chef)%Q).
  { unfold careerTrackRaw. apply Q.min_glb; [discriminate|].
    assert (0 <= yearScore chef)%Q.
    { unfold yearScore. apply Q.min_glb; [discriminate|].
      pose proof (years_nonneg chef Hy). lra. }
    pose proof (positionScore_nonneg k chef).
    pose proof (roleScore_lower k chef). lra. }
  assert (P : (0 <= publicSignalsRaw k chef)%Q).
  { unfold publicSignalsRaw. apply Q.min_glb; [discriminate|].
    pose proof (num_nonneg (signalCount k chef)).
    assert (0 <= totalSignalValue k chef)%Q.
    { unfold totalSignalValue. apply signalSum_nonneg; [apply Qle_refl|].
      intros s v Hin. apply Hs. unfold recentSignals in Hin.
      by apply filter_In in Hin as [? _]. }
    assert (0 <= Qmin 50 (totalSignalValue k chef / 10000))%Q.
    { apply Q.min_glb; [discriminate|].
      apply Qle_shift_div_l; [reflexivity|]. lra. }
    lra. }
  assert (R : forall x, (0 <= x <= 100)%Q -> (0 <= round1 x <= 100)%Q).
  { intros x [L U]. split.
    - apply (round1_lower 0 x L).
    - apply (round1_upper 100 x U). }
  split; [|split; [|split]]; apply R.
  - apply formalAccoladesRaw_range.
  - split; [exact C | apply careerTrackRaw_upper].
  - split; [exact P | apply publicSignalsRaw_upper].
  - apply peerStandingRaw_range.
Qed.

Lemma calculateBreakdown_range_witness :
  (0 <= ScoreBreakdown.publicSignals
          (calculateBreakdown sampleClock
             (ChefRecords.mk [] []
                [PublicSignal.mk "INSTAGRAM" (Some 120000%Q) 1500] []
                (Some 12%Z))) <= 100)%Q.
Proof.
  apply (calculateBreakdown_range sampleClock
           (ChefRecords.mk [] []
              [PublicSignal.mk "INSTAGRAM" (Some 120000%Q) 1500] []
              (Some 12%Z))).
  - intros y [= <-]. lia.
  - intros s v [<-|[]] [= <-]. discriminate.
Defined.

Section Awards.
Local Open Scope Q_scope.

Lemma existsb_insert {A} (p : A -> bool) (a : A) (l1 l2 : list A) :
  existsb p (l1 ++ a :: l2) = existsb p (l1 ++ l2) || p a.
Proof.
  rewrite !existsb_app. cbn.
  destruct (existsb p l1), (p a), (existsb p l2); reflexivity.
Qed.

Lemma scoreMichelinStars_insert (a : Accolade.t) (l1 l2 : list Accolade.t) :
  scoreMichelinStars (l1 ++ l2) <= scoreMichelinStars (l1 ++ a :: l2).
Proof.
  rewrite !scoreMichelinStars_closed, !existsb_insert.
  assert (I : michelinWith 3 a = true \/ michelinWith 2 a = true ->
              isType "MICHELIN_STAR" a = true).
  { unfold michelinWith. intros [H|H]; by apply andb_true_iff in H as [? _]. }
  assert (F : forall n, existsb (michelinWith n) (l1 ++ l2) = true ->
                        existsb (isType "MICHELIN_STAR") (l1 ++ l2) = true).
  { intros n (x & Hx & H)%existsb_exists. apply existsb_exists. exists x.
    split; [done|]. unfold michelinWith in H.
    by apply andb_true_iff in H as [? _]. }
  destruct (existsb (michelinWith 3) (l1 ++ l2)) eqn:E3;
    destruct (existsb (michelinWith 2) (l1 ++ l2)) eqn:E2;
    destruct (existsb (isType "MICHELIN_STAR") (l1 ++ l2)) eqn:EM;
    destruct (michelinWith 3 a) eqn:A3;
    destruct (michelinWith 2 a) eqn:A2;
    destruct (isType "MICHELIN_STAR" a) eqn:AM;
    cbn; try discriminate;
    try (specialize (I (or_introl eq_refl)); discriminate);
    try (specialize (I (or_intror eq_refl)); discriminate).
Qed.

Lemma scoreAccoladeType_insert
    (a : Accolade.t) (l1 l2 : list Accolade.t) (ty : string) (m : Q) :
  0 <= m ->
  scoreAccoladeType (l1 ++ l2) ty m <= scoreAccoladeType (l1 ++ a :: l2) ty m.
Proof.
  intros Hm. unfold scoreAccoladeType. rewrite existsb_insert.
  destruct (existsb (isType ty) (l1 ++ l2)), (isType ty a); cbn;
    first [apply Qle_refl | exact Hm].
Qed.

Lemma scoreAccoladeType_present
    (a : Accolade.t) (l : list Accolade.t) (ty : string) (m : Q) :
  In a l -> isType ty a = true -> scoreAccoladeType l ty m = m.
Proof.
  intros Hin Ha. unfold scoreAccoladeType.
  assert (E : existsb (isType ty) l = true) by (apply existsb_exists; eauto).
  by rewrite E.
Qed.

Lemma scoreMichelinStars_present (n : Z) (a : Accolade.t) (l : list Accolade.t) :
  In a l -> michelinWith n a = true ->
  (if (n =? 3)%Z then 100 else if (n =? 2)%Z then 70 else 40)
  <= scoreMichelinStars l.
Proof.
  intros Hin Ha. rewrite scoreMichelinStars_closed.
  assert (En : existsb (michelinWith n) l = true)
    by (apply existsb_exists; eauto).
  assert (EM : existsb (isType "MICHELIN_STAR") l = true).
  { apply existsb_exists. exists a. split; [done|].
    unfold michelinWith in Ha. by apply andb_true_iff in Ha as [? _]. }
  rewrite EM.
  destruct (Z.eqb_spec n 3) as [->|N3].
  - rewrite En. apply Qle_refl.
  - destruct (Z.eqb_spec n 2) as [->|N2].
    + rewrite En. destruct (existsb (michelinWith 3) l); discriminate.
    + destruct (existsb (michelinWith 3) l), (existsb (michelinWith 2) l);
        discriminate.
Qed.

(** The raw formal-accolade score is at least its best component. *)
Lemma formalAccoladesRaw_floor (k : Clock.t) (chef : ChefRecords.t) (t : Q) :
  t <= 100 ->
  (t <= michelinScore k chef \/ t <= jbScore k chef
   \/ t <= w50Score k chef \/ t <= bocuseScore k chef) ->
  t <= formalAccoladesRaw k chef.
Proof.
  intros Ht H. unfold formalAccoladesRaw. apply Q.min_glb; [exact Ht|].
  pose proof (Q.le_max_l (michelinScore k chef) (jbScore k chef)) as M1.
  pose proof (Q.le_max_r (michelinScore k chef) (jbScore k chef)) as M1'.
  pose proof (Q.le_max_l (Qmax (michelinScore k chef) (jbScore k chef))
                (w50Score k chef)) as M2.
  pose proof (Q.le_max_r (Qmax (michelinScore k chef) (jbScore k chef))
                (w50Score k chef)) as M2'.
  pose proof (Q.le_max_l
                (Qmax (Qmax (michelinScore k chef) (jbScore k chef))
                   (w50Score k chef)) (bocuseScore k chef)) as M3.
  pose proof (Q.le_max_r
                (Qmax (Qmax (michelinScore k chef) (jbScore k chef))
                   (w50Score k chef)) (bocuseScore k chef)) as M3'.
  pose proof (bonus_nonneg (length (recentAccolades k chef))) as B.
  assert (O : 0 <= otherAccoladeScore k chef)
    by (apply scoreAccoladeType_nonneg; discriminate).
  destruct H as [H|[H|[H|H]]]; lra.
Qed.

End Awards.

(** X3.  An award inside the ten-year window sets a floor under
    [formalAccolades]: 100 for a Michelin accolade read as three stars, 70
    for one read as two stars, 40 for any Michelin accolade, 80 for a
    James Beard award, 90 for World's 50 Best and 85 for Bocuse d'Or. *)
Theorem formalAccolades_award_floor
    (k : Clock.t) (chef : ChefRecords.t) (a : Accolade.t) :
  In a (ChefRecords.accolades chef) -> recentAccolade k a = true ->
  let score := ScoreBreakdown.formalAccolades (calculateBreakdown k chef) in
  (michelinWith 3 a = true -> (score == 100)%Q)
  /\ (michelinWith 2 a = true -> (70 <= score)%Q)
  /\ (isType "MICHELIN_STAR" a = true -> (40 <= score)%Q)
  /\ (isType "JAMES_BEARD" a = true -> (80 <= score)%Q)
  /\ (isType "WORLDS_50_BEST" a = true -> (90 <= score)%Q)
  /\ (isType "BOCUSE_DOR" a = true -> (85 <= score)%Q).
Proof.
  intros Hin Hrec score.
  assert (Ha : In a (recentAccolades k chef)) by (by apply filter_In).
  assert (F : forall n : Z,
             (inject_Z n <= 100)%Q ->
             (inject_Z n <= michelinScore k chef
              \/ inject_Z n <= jbScore k chef
              \/ inject_Z n <= w50Score k chef
              \/ inject_Z n <= bocuseScore k chef)%Q ->
             (inject_Z n <= score)%Q).
  { intros n Hn H. apply round1_lower.
    by apply formalAccoladesRaw_floor. }
  split; [|split; [|split; [|split; [|split]]]].
  - intros H. apply Qle_antisym.
    + apply (round1_upper 100). apply formalAccoladesRaw_range.
    + apply (F 100%Z); [discriminate|]. left.
      apply (scoreMichelinStars_present 3 a _ Ha H).
  - intros H. apply (F 70%Z); [discriminate|]. left.
    apply (scoreMichelinStars_present 2 a _ Ha H).
  - intros H. apply (F 40%Z); [discriminate|]. left.
    unfold michelinScore. rewrite scoreMichelinStars_closed.
    assert (EM : existsb (isType "MICHELIN_STAR") (recentAccolades k chef)
                 = true) by (apply existsb_exists; eauto).
    rewrite EM.
    destruct (existsb (michelinWith 3) (recentAccolades k chef)),
      (existsb (michelinWith 2) (recentAccolades k chef)); discriminate.
  - intros H. apply (F 80%Z); [discriminate|]. right; left.
    unfold jbScore. rewrite (scoreAccoladeType_present a); [|done..].
    apply Qle_refl.
  - intros H. apply (F 90%Z); [discriminate|]. right; right; left.
    unfold w50Score. rewrite (scoreAccoladeType_present a); [|done..].
    apply Qle_refl.
  - intros H. apply (F 85%Z); [discriminate|]. right; right; right.
    unfold bocuseScore. rewrite (scoreAccoladeType_present a); [|done..].
    apply Qle_refl.
Qed.

Lemma formalAccolades_award_floor_witness :
  (ScoreBreakdown.formalAccolades
     (calculateBreakdown sampleClock
        (ChefRecords.mk
           [Accolade.mk "MICHELIN_STAR" (Some "3 stars") (Some 2026%Z) 0]
           [] [] [] None)) == 100)%Q.
Proof.
  destruct (formalAccolades_award_floor sampleClock
              (ChefRecords.mk
                 [Accolade.mk "MICHELIN_STAR" (Some "3 stars") (Some 2026%Z) 0]
                 [] [] [] None)
              (Accolade.mk "MICHELIN_STAR" (Some "3 stars") (Some 2026%Z) 0))
    as (H & _).
  - by left.
  - reflexivity.
  - apply H. reflexivity.
Defined.

(** X4.  Adding an accolade to a chef never lowers [formalAccolades],
    whatever the accolade and wherever it is added; the other three
    categories stay as they are. *)
Theorem adding_accolade_never_lowers
    (k : Clock.t) (chef chef' : ChefRecords.t) (a : Accolade.t) :
  withAccolade a chef chef' ->
  (ScoreBreakdown.formalAccolades (calculateBreakdown k chef)
   <= ScoreBreakdown.formalAccolades (calculateBreakdown k chef'))%Q
  /\ ScoreBreakdown.careerTrack (calculateBreakdown k chef')
     = ScoreBreakdown.careerTrack (calculateBreakdown k chef)
  /\ ScoreBreakdown.publicSignals (calculateBreakdown k chef')
     = ScoreBreakdown.publicSignals (calculateBreakdown k chef)
  /\ ScoreBreakdown.peerStanding (calculateBreakdown k chef')
     = ScoreBreakdown.peerStanding (calculateBreakdown k chef).
Proof.
  intros ((l1 & l2 & E & E') & Ec & Es & Ep & Ey).
  split; [|split; [|split]].
  - cbn. apply round1_mono.
    unfold formalAccoladesRaw, michelinScore, jbScore, w50Score, bocuseScore,
      otherAccoladeScore, recentAccolades.
    rewrite E, E', !List.filter_app. cbn [List.filter].
    destruct (recentAccolade k a); [|apply Qle_refl].
    set (f1 := List.filter (recentAccolade k) l1).
    set (f2 := List.filter (recentAccolade k) l2).
    apply Q.min_le_compat_l.
    pose proof (scoreMichelinStars_insert a f1 f2) as M.
    assert (St : forall ty m, (0 <= m)%Q ->
                   (scoreAccoladeType (f1 ++ f2) ty m
                    <= scoreAccoladeType (f1 ++ a :: f2) ty m)%Q)
      by (intros; by apply scoreAccoladeType_insert).
    pose proof (St "JAMES_BEARD" 80%Q ltac:(discriminate)) as J.
    pose proof (St "WORLDS_50_BEST" 90%Q ltac:(discriminate)) as W.
    pose proof (St "BOCUSE_DOR" 85%Q ltac:(discriminate)) as B.
    pose proof (St "OTHER" 30%Q ltac:(discriminate)) as O.
    assert (N : (length (f1 ++ f2) <= length (f1 ++ a :: f2))%nat)
      by (rewrite !length_app; cbn; lia).
    apply bonus_mono in N.
    pose proof (Q.max_le_compat _ _ _ _ M J) as X1.
    pose proof (Q.max_le_compat _ _ _ _ X1 W) as X2.
    pose proof (Q.max_le_compat _ _ _ _ X2 B) as X3.
    lra.
  - cbn. unfold careerTrackRaw, yearScore, years, positionScore,
      positionCount, roleScore, hasExecRole, recentCareer.
    by rewrite Ec, Ey.
  - cbn. unfold publicSignalsRaw, signalCount, totalSignalValue,
      recentSignals. by rewrite Es.
  - cbn. unfold peerStandingRaw, peerCount, mentored, collabs, endorsements,
      recentPeers. by rewrite Ep.
Qed.

Lemma adding_accolade_never_lowers_witness :
  (ScoreBreakdown.formalAccolades
     (calculateBreakdown sampleClock
        (ChefRecords.mk [Accolade.mk "OTHER" None (Some 2020%Z) 0]
           [] [] [] None))
   <= ScoreBreakdown.formalAccolades
        (calculateBreakdown sampleClock
           (ChefRecords.mk
              [Accolade.mk "OTHER" None (Some 2020%Z) 0;
               Accolade.mk "MICHELIN_STAR" (Some "1 star") (Some 2025%Z) 0]
              [] [] [] None)))%Q.
Proof.
  apply (adding_accolade_never_lowers sampleClock _ _
           (Accolade.mk "MICHELIN_STAR" (Some "1 star") (Some 2025%Z) 0)).
  repeat split.
  by exists [Accolade.mk "OTHER" None (Some 2020%Z) 0], [].
Defined.

(** ** The total score *)

(** X5.  With weights that are not negative and sum to at most 1, the total
    score of any chef at any time is at most 100. *)
Theorem calculateTotalScore_at_most_100
    (k : Clock.t) (chef : ChefRecords.t) (w : gmap string Q) :
  weightsNonneg w -> (weightsSum w <= 1)%Q ->
  (calculateTotalScore (calculateBreakdown k chef) w <= 100)%Q.
Proof.
  intros (W1 & W2 & W3 & W4) Hs. unfold weightsSum in Hs.
  unfold calculateTotalScore. apply (round1_upper 100). cbn.
  pose proof (round1_upper 100 _ (proj2 (formalAccoladesRaw_range k chef))).
  pose proof (round1_upper 100 _ (careerTrackRaw_upper k chef)).
  pose proof (round1_upper 100 _ (publicSignalsRaw_upper k chef)).
  pose proof (round1_upper 100 _ (proj2 (peerStandingRaw_range k chef))).
  change (inject_Z 100) with 100%Q in *.
  nra.
Qed.

Lemma calculateTotalScore_at_most_100_witness :
  (calculateTotalScore
     (calculateBreakdown sampleClock
        (ChefRecords.mk
           [Accolade.mk "MICHELIN_STAR" (Some "3 stars") (Some 2026%Z) 0]
           [] [] [] (Some 40%Z)))
     DEFAULT_WEIGHTS <= 100)%Q.
Proof.
  apply calculateTotalScore_at_most_100.
  - repeat split; vm_compute; discriminate.
  - vm_compute. discriminate.
Defined.

(** X6.  With weights that are not negative, the total score does not go
    down when no category goes down. *)
Theorem calculateTotalScore_monotone
    (b b' : ScoreBreakdown.t) (w : gmap string Q) :
  weightsNonneg w ->
  (ScoreBreakdown.formalAccolades b <= ScoreBreakdown.formalAccolades b')%Q ->
  (ScoreBreakdown.careerTrack b <= ScoreBreakdown.careerTrack b')%Q ->
  (ScoreBreakdown.publicSignals b <= ScoreBreakdown.publicSignals b')%Q ->
  (ScoreBreakdown.peerStanding b <= ScoreBreakdown.peerStanding b')%Q ->
  (calculateTotalScore b w <= calculateTotalScore b' w)%Q.
Proof.
  intros (W1 & W2 & W3 & W4) H1 H2 H3 H4.
  unfold calculateTotalScore. apply round1_mono. nra.
Qed.

Lemma calculateTotalScore_monotone_witness :
  (calculateTotalScore (ScoreBreakdown.mk 0 56 0 0) DEFAULT_WEIGHTS
   <= calculateTotalScore (ScoreBreakdown.mk 100 56 0 0) DEFAULT_WEIGHTS)%Q.
Proof.
  apply calculateTotalScore_monotone.
  - repeat split; vm_compute; discriminate.
  - discriminate.
  - discriminate.
  - discriminate.
  - discriminate.
Defined.

(** ** The client scorer *)

Lemma fold_best_empty_or_not (l : list Accolade.t) :
  scoreMichelinStars l
  = fold_left (fun b m => Qmax b (starScore m))
      (List.filter (isType "MICHELIN_STAR") l) 0%Q.
Proof.
  unfold scoreMichelinStars.
  by destruct (List.filter (isType "MICHELIN_STAR") l).
Qed.

Lemma client_on_window (k : Clock.t) (chef : ChefRecords.t) :
  calculateBreakdown k chef
  = ScoringClient.calculateBreakdownClient (windowed k chef).
Proof.
  unfold calculateBreakdown, ScoringClient.calculateBreakdownClient.
  f_equal.
  unfold formalAccoladesRaw, ScoringClient.formalAccolades,
    ScoringClient.michelinScore, ScoringClient.has, michelinScore, jbScore,
    w50Score, bocuseScore, otherAccoladeScore, scoreAccoladeType, windowed.
  cbn [ChefRecords.accolades]. by rewrite fold_best_empty_or_not.
Qed.

Lemma filter_all {A} (p : A -> bool) (l : list A) :
  forallb p l = true -> List.filter p l = l.
Proof.
  induction l as [|a l IH]; [done|]. cbn.
  intros [-> H]%andb_true_iff. by rewrite IH.
Qed.

(** X7.  The server scorer is the client scorer applied to the records
    inside the ten-year window; so the breakdown the profile page computes
    with [calculateBreakdownClient] is the one the ranking uses whenever
    every record of the chef is inside the window. *)
Theorem client_breakdown_agrees_inside_window
    (k : Clock.t) (chef : ChefRecords.t) :
  allRecent k chef ->
  calculateBreakdown k chef
  = ScoringClient.calculateBreakdownClient (windowed k chef)
  /\ ScoringClient.calculateBreakdownClient chef = calculateBreakdown k chef.
Proof.
  intros (Ha & Hc & Hs & Hp). split; [apply client_on_window|].
  rewrite client_on_window. unfold windowed, recentAccolades, recentCareer,
    recentSignals, recentPeers.
  rewrite !filter_all by done. by destruct chef.
Qed.

Lemma client_breakdown_agrees_inside_window_witness :
  ScoringClient.calculateBreakdownClient
    (ChefRecords.mk
       [Accolade.mk "JAMES_BEARD" None (Some 2020%Z) 0]
       [CareerEntry.mk true None None "Executive Chef" 0] [] [] (Some 10%Z))
  = calculateBreakdown sampleClock
      (ChefRecords.mk
         [Accolade.mk "JAMES_BEARD" None (Some 2020%Z) 0]
         [CareerEntry.mk true None None "Executive Chef" 0] [] []
         (Some 10%Z)).
Proof.
  apply (client_breakdown_agrees_inside_window sampleClock).
  repeat split.
Defined.

(** ** Text written by one part of the code and read by another *)

Section Numerals.

Lemma of_uint_acc_value (l : Decimal.uint) (q : positive) :
  Zpos (Pos.of_uint_acc l q) = valueAcc l (Zpos q).
Proof.
  revert q. induction l as [|l IH|l IH|l IH|l IH|l IH|l IH|l IH|l IH|l IH|l IH];
    intros q; cbn [Pos.of_uint_acc valueAcc]; [done|..];
    rewrite IH; f_equal; lia.
Qed.

Lemma of_uint_value (d : Decimal.uint) :
  Z.of_N (Pos.of_uint d) = valueAcc d 0.
Proof.
  induction d as [|l IH|l IH|l IH|l IH|l IH|l IH|l IH|l IH|l IH|l IH];
    cbn [Pos.of_uint valueAcc]; [done|exact IH|..];
    cbn [Z.of_N]; rewrite of_uint_acc_value; reflexivity.
Qed.

Lemma to_uint_value (p : positive) : valueAcc (Pos.to_uint p) 0 = Zpos p.
Proof. by rewrite <- of_uint_value, DecimalPos.Unsigned.of_to. Qed.

(** Reading the digits of a numeral that is followed by a space. *)
Lemma readDigits_numeral (d : Decimal.uint) (acc : Z) (r : string) :
  JS.readDigits 10 (Some acc)
    (String.append (NilEmpty.string_of_uint d) (String " " r))
  = Some (valueAcc d acc).
Proof.
  revert acc.
  induction d as [|l IH|l IH|l IH|l IH|l IH|l IH|l IH|l IH|l IH|l IH];
    intros acc; [reflexivity|..];
    cbn [NilEmpty.string_of_uint String.append valueAcc];
    exact (IH _).
Qed.

Lemma append_cons (c : ascii) (s r : string) :
  String.append (String c s) r = String c (String.append s r).
Proof. reflexivity. Qed.

Lemma append_empty (r : string) : String.append EmptyString r = r.
Proof. reflexivity. Qed.

Lemma trimStart_nonspace (c : ascii) (s : string) :
  JS.isWhiteSpace c = false -> JS.trimStart (String c s) = String c s.
Proof. intros H. cbn [JS.trimStart]. by rewrite H. Qed.

Lemma readDigits_step (c : ascii) (d : Z) (acc : option Z) (s : string) :
  JS.digitValue c = Some d -> (d <? 10)%Z = true ->
  JS.readDigits 10 acc (String c s)
  = JS.readDigits 10 (Some (10 * default 0 acc + d)%Z) s.
Proof. intros Hd Hlt. cbn [JS.readDigits]. by rewrite Hd, Hlt. Qed.

Lemma parseInt_numeral (d : Decimal.uint) (r : string) :
  d <> Decimal.Nil ->
  JS.parseInt (String.append (NilEmpty.string_of_uint d) (String " " r))
  = Some (valueAcc d 0).
Proof.
  intros Hd.
  assert (F : forall x, match x with
                        | Some n => Some (1 * n)%Z
                        | None => None
                        end = x).
  { intros [n|]; [|done]. f_equal. lia. }
  destruct d as [|l|l|l|l|l|l|l|l|l|l]; [done|..];
    destruct l as [|l|l|l|l|l|l|l|l|l|l];
    cbn [NilEmpty.string_of_uint]; rewrite ?append_cons, ?append_empty;
    unfold JS.parseInt; rewrite trimStart_nonspace by reflexivity;
    cbv beta iota zeta;
    erewrite readDigits_step by reflexivity;
    rewrite F;
    first [ reflexivity
          | erewrite readDigits_step by reflexivity;
            apply (readDigits_numeral l) ].
Qed.

End Numerals.

(** X8.  The detail the Michelin collector writes for a star count that
    is a positive integer, at most [Number.MAX_SAFE_INTEGER], is read back
    by the scorer as that count: the accolade scores 100 for three stars,
    70 for two and 40 for any other count. *)
Theorem michelin_detail_read_back (n createdAt : Z) :
  (0 < n <= JSNumber.MAX_SAFE_INTEGER)%Z ->
  stars (MichelinCollector.accolade n createdAt) = Some n
  /\ starScore (MichelinCollector.accolade n createdAt)
     = (if (n =? 3)%Z then 100 else if (n =? 2)%Z then 70 else 40)%Q.
Proof.
  intros [Hn _].
  assert (E : stars (MichelinCollector.accolade n createdAt) = Some n).
  { destruct n as [|p|p]; [lia| |lia].
    unfold stars, MichelinCollector.accolade, MichelinCollector.detail,
      JSNumber.toString. cbn [Accolade.detail Z.to_int Pos.to_int].
    unfold NilZero.string_of_int, NilZero.string_of_uint.
    pose proof (DecimalPos.Unsigned.to_uint_nonnil p) as Hnil.
    assert (T : forall r,
               JS.orString
                 (Some (String.append (NilEmpty.string_of_uint (Pos.to_uint p))
                          (String " " r))) "1"
               = String.append (NilEmpty.string_of_uint (Pos.to_uint p))
                   (String " " r)).
    { intros r. destruct (Pos.to_uint p); done. }
    destruct (Pos.to_uint p) as [|l|l|l|l|l|l|l|l|l|l] eqn:Ep; [done|..];
      rewrite <- Ep in *;
      (destruct (1 <? Z.pos p)%Z;
       [ change (String.append " star" "s") with (String " " "stars")
       | change (String.append " star" "") with (String " " "star") ];
       rewrite T, parseInt_numeral by done;
       by rewrite to_uint_value). }
  split; [exact E|]. unfold starScore. rewrite E.
  destruct (Z.eqb_spec n 3) as [->|N3]; [done|].
  destruct (Z.eqb_spec n 2) as [->|N2]; [done|].
  destruct n as [|p|p]; [lia| |lia].
  destruct p as [[|[]|]|[|[]|]|]; try reflexivity; congruence.
Qed.

Lemma michelin_detail_read_back_witness :
  MichelinCollector.detail 3 = "3 stars"
  /\ stars (MichelinCollector.accolade 3 0) = Some 3%Z.
Proof.
  split; [reflexivity|].
  apply (michelin_detail_read_back 3 0).
  unfold JSNumber.MAX_SAFE_INTEGER. lia.
Defined.


Section MonthText.

Lemma string_of_uint_length (d : Decimal.uint) :
  String.length (NilEmpty.string_of_uint d) = Decimal.nb_digits d.
Proof.
  induction d; cbn [NilEmpty.string_of_uint String.length Decimal.nb_digits];
    congruence.
Qed.

Lemma string_of_uint_digits (d : Decimal.uint) :
  allDigits (NilEmpty.string_of_uint d) = true.
Proof.
  unfold allDigits.
  induction d; cbn [NilEmpty.string_of_uint list_ascii_of_string forallb];
    [done|..]; rewrite IHd; reflexivity.
Qed.

Lemma valueAcc_shift (d : Decimal.uint) (acc : Z) :
  valueAcc d acc = (acc * 10 ^ Z.of_nat (Decimal.nb_digits d) + valueAcc d 0)%Z.
Proof.
  revert acc. induction d; intros acc; cbn [valueAcc Decimal.nb_digits];
    [cbn; lia|..];
    rewrite IHd, (IHd (10 * 0 + _)%Z), Nat2Z.inj_succ, Z.pow_succ_r by lia; lia.
Qed.

Lemma valueAcc_upper (d : Decimal.uint) :
  (0 <= valueAcc d 0 < 10 ^ Z.of_nat (Decimal.nb_digits d))%Z.
Proof.
  induction d; cbn [valueAcc Decimal.nb_digits]; [cbn; lia|..];
    rewrite valueAcc_shift, Nat2Z.inj_succ, Z.pow_succ_r by lia; lia.
Qed.

Lemma valueAcc_lower (d : Decimal.uint) :
  Decimal.unorm d = d -> d <> Decimal.zero ->
  (10 ^ (Z.of_nat (Decimal.nb_digits d) - 1) <= valueAcc d 0)%Z.
Proof.
  intros U N. pose proof (valueAcc_upper) as B.
  destruct d; cbn [valueAcc Decimal.nb_digits];
    try (rewrite valueAcc_shift, Nat2Z.inj_succ;
         replace (Z.succ (Z.of_nat (Decimal.nb_digits d)) - 1)%Z
           with (Z.of_nat (Decimal.nb_digits d)) by lia;
         specialize (B d);
         assert (0 < 10 ^ Z.of_nat (Decimal.nb_digits d))%Z by lia; nia).
  - cbn in U. discriminate U.
  - exfalso. unfold Decimal.unorm in U. cbn [Decimal.nzhead] in U.
    destruct (Decimal.nzhead d) eqn:E; try discriminate U.
    + apply N. symmetry. exact U.
    + by apply (DecimalFacts.nzhead_nonzero d u).
Qed.

Lemma to_uint_normal (p : positive) :
  Decimal.unorm (Pos.to_uint p) = Pos.to_uint p.
Proof.
  rewrite <- DecimalPos.Unsigned.to_of, DecimalPos.Unsigned.of_to.
  reflexivity.
Qed.

Lemma to_uint_nonzero (p : positive) : Pos.to_uint p <> Decimal.zero.
Proof.
  intros E. pose proof (to_uint_value p) as V. rewrite E in V.
  cbn in V. lia.
Qed.

(** The numeral of a number between 10^n and 10^(n+1) has n+1 digits. *)
Lemma nb_digits_to_uint (p : positive) (n : nat) :
  (10 ^ Z.of_nat n <= Zpos p < 10 ^ Z.of_nat (S n))%Z ->
  Decimal.nb_digits (Pos.to_uint p) = S n.
Proof.
  intros [L U].
  pose proof (valueAcc_upper (Pos.to_uint p)) as [_ B1].
  pose proof (valueAcc_lower (Pos.to_uint p) (to_uint_normal p)
                (to_uint_nonzero p)) as B2.
  rewrite to_uint_value in B1, B2.
  set (m := Decimal.nb_digits (Pos.to_uint p)) in *.
  destruct (Nat.lt_trichotomy m (S n)) as [Lt|[Eq|Gt]]; [|exact Eq|].
  - assert (10 ^ Z.of_nat m <= 10 ^ Z.of_nat n)%Z
      by (apply Z.pow_le_mono_r; lia). lia.
  - assert (10 ^ Z.of_nat (S n) <= 10 ^ (Z.of_nat m - 1))%Z
      by (apply Z.pow_le_mono_r; lia). lia.
Qed.

Lemma toString_length (n : Z) (k : nat) :
  (10 ^ Z.of_nat k <= n < 10 ^ Z.of_nat (S k))%Z ->
  String.length (JSNumber.toString n) = S k
  /\ allDigits (JSNumber.toString n) = true.
Proof.
  intros H. assert (0 < 10 ^ Z.of_nat k)%Z by (apply Z.pow_pos_nonneg; lia).
  destruct n as [|p|p]; [lia| |lia].
  unfold JSNumber.toString. cbn [Z.to_int Pos.to_int].
  unfold NilZero.string_of_int, NilZero.string_of_uint.
  pose proof (DecimalPos.Unsigned.to_uint_nonnil p) as Hnil.
  pose proof (nb_digits_to_uint p k H) as D.
  pose proof (string_of_uint_length (Pos.to_uint p)) as Len.
  pose proof (string_of_uint_digits (Pos.to_uint p)) as Dig.
  destruct (Pos.to_uint p); [done|..]; rewrite <- D; split; assumption.
Qed.

Lemma testMonthPattern_parts (y m : string) :
  String.length y = 4%nat -> String.length m = 2%nat ->
  allDigits y = true -> allDigits m = true ->
  JS.testMonthPattern (String.append y (String "-" m)) = true.
Proof.
  unfold allDigits.
  destruct y as [|y1 [|y2 [|y3 [|y4 [|]]]]]; try done.
  destruct m as [|m1 [|m2 [|]]]; try done.
  cbn [list_ascii_of_string forallb String.append].
  intros _ _ Y M.
  change (JS.isDigit y1 && JS.isDigit y2 && JS.isDigit y3 && JS.isDigit y4
          && JS.isDigit m1 && JS.isDigit m2 = true).
  repeat (apply andb_prop in Y as [? Y]). repeat (apply andb_prop in M as [? M]).
  by rewrite H, H0, H1, H2, H3, H4.
Qed.

Lemma month_text (m : Z) :
  (0 <= m <= 11)%Z ->
  String.length (JSNumber.padStart 2 "0" (JSNumber.toString (m + 1))) = 2%nat
  /\ allDigits (JSNumber.padStart 2 "0" (JSNumber.toString (m + 1))) = true.
Proof.
  intros H. unfold JSNumber.padStart.
  destruct (Z_lt_le_dec m 9) as [Lt|Ge].
  - destruct (toString_length (m + 1) 0) as [L D]; [cbn; lia|].
    rewrite L. cbn [Nat.sub JSNumber.repeat].
    rewrite append_cons, append_empty.
    unfold allDigits in *. cbn [String.length list_ascii_of_string forallb].
    by rewrite L, D.
  - destruct (toString_length (m + 1) 1) as [L D]; [cbn; lia|].
    rewrite L. cbn [Nat.sub JSNumber.repeat]. by rewrite append_empty.
Qed.

End MonthText.

(** X9.  For a year of four digits, [getCurrentMonth] gives a month of the
    form the snapshot routes accept, so [POST /api/snapshots] never answers
    it with the validation error. *)
Theorem getCurrentMonth_accepted
    (now : Utils.Today) (k : Clock.t) (notes : option string) (s : Store.t) :
  (1000 <= Utils.getFullYear now <= 9999)%Z ->
  (0 <= Utils.getMonth now <= 11)%Z ->
  JS.testMonthPattern (Utils.getCurrentMonth now) = true
  /\ forall error,
       (SnapshotsRoute.POST k
          (SnapshotsRoute.mkBody (Some (Utils.getCurrentMonth now)) notes) s).2
       <> SnapshotsRoute.Json400 error.
Proof.
  intros Hy Hm.
  assert (T : JS.testMonthPattern (Utils.getCurrentMonth now) = true).
  { destruct (toString_length (Utils.getFullYear now) 3) as [L D];
      [cbn; lia|].
    destruct (month_text (Utils.getMonth now) Hm) as [L' D'].
    by apply testMonthPattern_parts. }
  split; [exact T|]. intros error. unfold SnapshotsRoute.POST.
  cbn [SnapshotsRoute.month]. rewrite T.
  assert (N : String.eqb (Utils.getCurrentMonth now) "" = false).
  { destruct (Utils.getCurrentMonth now); [discriminate T | done]. }
  rewrite N. cbn [orb negb].
  match goal with
  | |- context [match ?x with _ => _ end] => by destruct x as [s' [r|]]
  end.
Qed.

Lemma getCurrentMonth_accepted_witness :
  Utils.getCurrentMonth (Utils.mkToday 2026 10) = "2026-11"
  /\ JS.testMonthPattern (Utils.getCurrentMonth (Utils.mkToday 2026 10))
     = true.
Proof.
  split; [reflexivity|].
  refine (proj1 (getCurrentMonth_accepted (Utils.mkToday 2026 10) sampleClock
                   None Store.empty _ _)); cbn; lia.
Defined.

Section MonthOrder.

Lemma testMonthPattern_inv (s : string) :
  JS.testMonthPattern s = true ->
  exists y1 y2 y3 y4 m1 m2,
    s = String y1 (String y2 (String y3 (String y4
          (String "-" (String m1 (String m2 EmptyString))))))
    /\ JS.isDigit y1 = true /\ JS.isDigit y2 = true
    /\ JS.isDigit y3 = true /\ JS.isDigit y4 = true
    /\ JS.isDigit m1 = true /\ JS.isDigit m2 = true.
Proof.
  destruct s as [|y1 [|y2 [|y3 [|y4 [|d [|m1 [|m2 [|]]]]]]]]; try done;
    try (by destruct d as [[] [] [] [] [] [] [] []]).
  destruct d as [[] [] [] [] [] [] [] []]; try done.
  cbn [JS.testMonthPattern]. intros H.
  change (JS.isDigit y1 && JS.isDigit y2 && JS.isDigit y3 && JS.isDigit y4
          && JS.isDigit m1 && JS.isDigit m2 = true) in H.
  do 5 (apply andb_prop in H as [H ?]).
  by exists y1, y2, y3, y4, m1, m2.
Qed.

Lemma digitOf_range (c : ascii) :
  JS.isDigit c = true -> (0 <= digitOf c <= 9)%Z.
Proof.
  unfold JS.isDigit, digitOf. cbv zeta. intros H.
  apply andb_prop in H as [L U].
  apply N.leb_le in L. apply N.leb_le in U. lia.
Qed.

Lemma compare_digits (c d : ascii) :
  match Ascii.compare c d with
  | Lt => (digitOf c < digitOf d)%Z
  | Eq => digitOf c = digitOf d
  | Gt => (digitOf d < digitOf c)%Z
  end.
Proof.
  unfold Ascii.compare, digitOf, JS.code.
  destruct (N.compare_spec (N_of_ascii c) (N_of_ascii d)); lia.
Qed.

End MonthOrder.

(** X10.  On strings of the form YYYY-MM the text order that picks the
    previous snapshot is the order of the calendar: one month is below
    another exactly when its year is earlier, or the year is the same and
    its month number is smaller. *)
Theorem month_order_is_calendar_order (a b : string) :
  JS.testMonthPattern a = true ->
  JS.testMonthPattern b = true ->
  String.ltb a b = true
  <-> (yearOf a < yearOf b
       \/ (yearOf a = yearOf b /\ monthOf a < monthOf b))%Z.
Proof.
  intros Ha Hb.
  apply testMonthPattern_inv in Ha
    as (a1 & a2 & a3 & a4 & a5 & a6 & -> & A1 & A2 & A3 & A4 & A5 & A6).
  apply testMonthPattern_inv in Hb
    as (b1 & b2 & b3 & b4 & b5 & b6 & -> & B1 & B2 & B3 & B4 & B5 & B6).
  apply digitOf_range in A1, A2, A3, A4, A5, A6, B1, B2, B3, B4, B5, B6.
  unfold String.ltb, yearOf, monthOf. cbn [String.compare].
  pose proof (compare_digits a1 b1) as C1.
  pose proof (compare_digits a2 b2) as C2.
  pose proof (compare_digits a3 b3) as C3.
  pose proof (compare_digits a4 b4) as C4.
  pose proof (compare_digits a5 b5) as C5.
  pose proof (compare_digits a6 b6) as C6.
  change (Ascii.compare "-" "-") with Eq. cbv iota.
  destruct (Ascii.compare a1 b1); [|split; [lia|intros [|[]]; [lia|lia]]
                                   |split; [done|lia]].
  destruct (Ascii.compare a2 b2); [|split; [lia|intros [|[]]; [lia|lia]]
                                   |split; [done|lia]].
  destruct (Ascii.compare a3 b3); [|split; [lia|intros [|[]]; [lia|lia]]
                                   |split; [done|lia]].
  destruct (Ascii.compare a4 b4); [|split; [lia|intros [|[]]; [lia|lia]]
                                   |split; [done|lia]].
  destruct (Ascii.compare a5 b5); [|split; [lia|intros [|[]]; [lia|lia]]
                                   |split; [done|lia]].
  destruct (Ascii.compare a6 b6); split; try done; lia.
Qed.

Lemma month_order_is_calendar_order_witness :
  String.ltb "2025-12" "2026-01" = true
  <-> (yearOf "2025-12" < yearOf "2026-01"
       \/ (yearOf "2025-12" = yearOf "2026-01"
           /\ monthOf "2025-12" < monthOf "2026-01"))%Z.
Proof.
  apply (month_order_is_calendar_order "2025-12" "2026-01"); reflexivity.
Defined.

(** ** The batch and the single-chef scorer *)

Section BatchFrame.



Lemma archived_not_ranked (k : Clock.t) (s : Store.t) (c : Chef.t) :
  NoDup (chefIds s) -> In c (Store.chefs s) -> Chef.isArchived c = true ->
  rankChef 0 (ranking k s) c = c.
Proof.
  intros Hnd Hin Ha. unfold rankChef.
  rewrite position_None; [done|].
  rewrite <- list_elem_of_In, ranking_ids, list_elem_of_In.
  unfold activeChefs, chefIds in *.
  induction (Store.chefs s) as [|x r IH]; [done|].
  cbn in Hnd. apply NoDup_cons in Hnd as [Hx Hr].
  cbn [List.filter]. destruct Hin as [->|Hin].
  - unfold Prisma.active at 1. rewrite Ha. cbn [negb].
    intros H. apply Hx. apply list_elem_of_In.
    apply in_map_iff in H as (y & E & Hy). apply List.filter_In in Hy as [Hy _].
    rewrite <- E. by apply in_map.
  - destruct (Prisma.active x); [|by apply IH].
    intros [E|H]; [|by apply IH].
    apply Hx. rewrite E. apply list_elem_of_In. by apply in_map.
Qed.

Lemma chefIds_after (k : Clock.t) (s : Store.t) :
  chefIds (withChefs (map (rankChef 0 (ranking k s)) (Store.chefs s)) s)
  = chefIds s.
Proof.
  unfold chefIds. cbn. rewrite map_map. apply map_ext.
  intros c. apply rankChef_id.
Qed.

Lemma ranking_after (k : Clock.t) (s : Store.t) :
  ranking k (withChefs (map (rankChef 0 (ranking k s)) (Store.chefs s)) s)
  = ranking k s.
Proof.
  unfold ranking at 1. rewrite activeChefs_after.
  change (weightsOf (withChefs _ s)) with (weightsOf s). rewrite map_map.
  unfold ranking at 2. f_equal. apply map_ext. intros c.
  unfold score. by rewrite rankChef_id, rankChef_records.
Qed.

Lemma rerank_fixed (k : Clock.t) (s : Store.t) :
  map (rankChef 0 (ranking k s)) (map (rankChef 0 (ranking k s)) (Store.chefs s))
  = map (rankChef 0 (ranking k s)) (Store.chefs s).
Proof.
  rewrite map_map. apply map_ext. intros c.
  unfold rankChef at 1. rewrite rankChef_id. unfold rankChef.
  by destruct (position (Chef.id c) (ranking k s)) as [[j x]|].
Qed.

End BatchFrame.

(** X11.  [recalculateAllScores] writes only the total and the rank of the
    chefs that are not archived: the weights, the snapshots and their
    entries stay as they are, every chef keeps its place in the table, its
    identifier, its archive flag and its records, and an archived chef
    keeps the total and the rank it had. *)
Theorem recalculateAllScores_frame (k : Clock.t) (s : Store.t) :
  NoDup (chefIds s) ->
  exists s',
    recalculateAllScores k s = (s', Some tt)
    /\ Store.scoringWeights s' = Store.scoringWeights s
    /\ Store.monthlySnapshots s' = Store.monthlySnapshots s
    /\ Store.snapshotEntries s' = Store.snapshotEntries s
    /\ Forall2
         (fun c c' =>
            Chef.id c' = Chef.id c
            /\ Chef.isArchived c' = Chef.isArchived c
            /\ Chef.records c' = Chef.records c
            /\ (Chef.isArchived c = true -> c' = c))
         (Store.chefs s) (Store.chefs s').
Proof.
  intros Hnd. eexists.
  split; [by apply recalculateAllScores_run|].
  cbn [withChefs Store.scoringWeights Store.monthlySnapshots
         Store.snapshotEntries Store.chefs].
  do 3 (split; [reflexivity|]).
  apply Forall2_fmap_r, Forall2_same_length_lookup. split; [done|].
  intros i c c' Hc Hc'. rewrite Hc in Hc'. injection Hc' as <-.
  split; [apply rankChef_id|].
  split.
  { pose proof (rankChef_active 0 (ranking k s) c) as A.
    unfold Prisma.active in A.
    by destruct (Chef.isArchived c), (Chef.isArchived (rankChef _ _ c)). }
  split; [apply rankChef_records|].
  intros Ha. apply archived_not_ranked; [done| |done].
  apply list_elem_of_In. by eapply list_elem_of_lookup_2.
Qed.

Lemma recalculateAllScores_frame_witness :
  NoDup (chefIds sampleStore)
  /\ exists s',
       recalculateAllScores sampleClock sampleStore = (s', Some tt)
       /\ Store.scoringWeights s' = Store.scoringWeights sampleStore
       /\ Store.monthlySnapshots s' = Store.monthlySnapshots sampleStore
       /\ Store.snapshotEntries s' = Store.snapshotEntries sampleStore
       /\ Forall2
            (fun c c' =>
               Chef.id c' = Chef.id c
               /\ Chef.isArchived c' = Chef.isArchived c
               /\ Chef.records c' = Chef.records c
               /\ (Chef.isArchived c = true -> c' = c))
            (Store.chefs sampleStore) (Store.chefs s').
Proof.
  assert (H : NoDup (chefIds sampleStore))
    by (apply (bool_decide_unpack _); vm_compute; exact I).
  split; [exact H|]. exact (recalculateAllScores_frame sampleClock sampleStore H).
Defined.



(** ** The entries of a published snapshot *)

Section Published.

Lemma sortBy_sorted_id {A} (le : A -> A -> bool) (l : list A) :
  StronglySorted (fun a b => le a b = true) l -> sortBy le l = l.
Proof.
  induction 1 as [|x r Hr IH Hx]; [done|].
  unfold sortBy in *. cbn [foldr]. rewrite IH.
  destruct r as [|y r']; [done|]. cbn [insertBy].
  apply Forall_cons in Hx as [Hxy _]. by rewrite Hxy.
Qed.

#[local] Instance rankOrder_antisym : AntiSymm eq rankOrder.
Proof.
  intros [x|] [y|]; cbn; try done. intros. f_equal. lia.
Qed.

Lemma seq_rankOrder (a n : nat) :
  StronglySorted rankOrder (map (fun i => Some (Z.of_nat i)) (seq a n)).
Proof.
  revert a. induction n as [|n IH]; intros a; cbn [seq map]; constructor.
  - apply IH.
  - apply Forall_forall. intros x Hx. apply list_elem_of_In in Hx.
    apply in_map_iff in Hx as (i & <- & Hi). apply in_seq in Hi. cbn. lia.
Qed.

Variable k : Clock.t.
Variable s : Store.t.
Hypothesis Hnd : NoDup (chefIds s).

Let s1 := withChefs (map (rankChef 0 (ranking k s)) (Store.chefs s)) s.

Lemma chefsByRank_ranks :
  map Chef.rank (chefsByRank s1)
  = map (fun i => Some (Z.of_nat i)) (seq 1 (length (activeChefs s))).
Proof.
  apply (StronglySorted_unique rankOrder).
  - apply (StronglySorted_fmap _ (fun a b => Prisma.rankLe a b = true)).
    + intros x y. unfold Prisma.rankLe, rankOrder.
      destruct (Chef.rank x), (Chef.rank y); try done.
      apply Z.leb_le.
    + apply sortBy_sorted.
      * intros x y. unfold Prisma.rankLe.
        destruct (Chef.rank x), (Chef.rank y); try (by left); try (by right).
        rewrite !Z.leb_le. lia.
      * intros x y z. unfold Prisma.rankLe.
        destruct (Chef.rank x), (Chef.rank y), (Chef.rank z); try done.
        rewrite !Z.leb_le. lia.
  - apply seq_rankOrder.
  - unfold chefsByRank. rewrite sortBy_Permutation.
    unfold s1. rewrite activeChefs_after. by apply ranks_after.
Qed.

Lemma chefsByRank_length : length (chefsByRank s1) = length (activeChefs s).
Proof.
  unfold chefsByRank. rewrite sortBy_length. unfold s1.
  by rewrite activeChefs_after, length_map.
Qed.

Lemma chefsByRank_lookup (i : nat) (c : Chef.t) :
  chefsByRank s1 !! i = Some c ->
  Chef.rank c = Some (Z.of_nat i + 1)%Z
  /\ ranking k s !! i = Some (score k (weightsOf s) c)
  /\ Chef.totalScore c = Scored.total (score k (weightsOf s) c)
  /\ In c (activeChefs s1).
Proof.
  intros Hc.
  assert (Hr : Chef.rank c = Some (Z.of_nat i + 1)%Z).
  { pose proof chefsByRank_ranks as E.
    apply (f_equal (fun l => l !! i)) in E.
    assert (Hi : (i < length (activeChefs s))%nat).
    { rewrite <- chefsByRank_length. by eapply lookup_lt_Some. }
    rewrite !list_lookup_fmap, Hc, lookup_seq_lt in E by done.
    cbn in E. injection E as ->. f_equal. lia. }
  assert (Hin : In c (activeChefs s1)).
  { apply list_elem_of_In. rewrite <- (chefsByRank_Permutation s1).
    by eapply list_elem_of_lookup_2. }
  split; [exact Hr|].
  pose proof Hin as Hin'. unfold s1 in Hin'. rewrite activeChefs_after in Hin'.
  apply ranked_In_inv in Hin' as (c0 & j & _ & Hj & ->); [|done].
  cbn in Hr. assert (j = i) as -> by (injection Hr; lia).
  by repeat split.
Qed.

Lemma chefsByRank_scores :
  map (score k (weightsOf s)) (chefsByRank s1) = ranking k s.
Proof.
  apply (list_eq_same_length _ _ (length (activeChefs s))).
  - unfold ranking. by rewrite sortBy_length, length_map.
  - by rewrite length_map, chefsByRank_length.
  - intros i x y _ Hx Hy. rewrite list_lookup_fmap in Hx.
    destruct (chefsByRank s1 !! i) as [c|] eqn:Hc; [|done].
    injection Hx as <-.
    apply chefsByRank_lookup in Hc as (_ & Hc & _). congruence.
Qed.

End Published.

(** ** The entries of a snapshot and the clock *)

Section EntryClock.

Lemma calculateBreakdown_sameWindow (k1 k2 : Clock.t) (chef : ChefRecords.t) :
  sameWindow k1 k2 chef ->
  calculateBreakdown k1 chef = calculateBreakdown k2 chef.
Proof.
  intros (Ha & Hc & Hs & Hp).
  unfold calculateBreakdown, formalAccoladesRaw, careerTrackRaw,
    publicSignalsRaw, peerStandingRaw, michelinScore, jbScore, w50Score,
    bocuseScore, otherAccoladeScore, positionScore, positionCount,
    roleScore, hasExecRole, signalCount, totalSignalValue, peerCount,
    mentored, collabs, endorsements, recentAccolades, recentCareer,
    recentSignals, recentPeers.
  rewrite (List.filter_ext_in _ _ _ Ha), (List.filter_ext_in _ _ _ Hc),
    (List.filter_ext_in _ _ _ Hs), (List.filter_ext_in _ _ _ Hp).
  reflexivity.
Qed.

Lemma forEach_snapshotChefAt
    (entryClock : string -> Clock.t) (w : gmap string Q) (pr : gmap string Z)
    (snap : MonthlySnapshot.t) (cs : list Chef.t) (s : Store.t) :
  NoDup (map Chef.id cs) ->
  (forall c, In c cs ->
     In (Chef.id c) (chefIds s) /\ is_Some (Chef.rank c)) ->
  In (MonthlySnapshot.id snap)
    (map MonthlySnapshot.id (Store.monthlySnapshots s)) ->
  (forall e, In e (Store.snapshotEntries s) ->
     Prisma.ofSnapshot (MonthlySnapshot.id snap) e = true ->
     ~ In (SnapshotEntry.chefId e) (map Chef.id cs)) ->
  forEach (fun c => snapshotChef (entryClock (Chef.id c)) w pr snap c) cs s
  = (withEntries
       (Store.snapshotEntries s
        ++ map
             (fun c =>
                entryOf (entryClock (Chef.id c)) w pr (MonthlySnapshot.id snap)
                  c)
             cs)
       s,
     Some tt).
Proof.
  revert s. induction cs as [|c cs IH]; intros s Hnd Hcs Hsnap Hold.
  - cbn. by rewrite app_nil_r, withEntries_same.
  - apply NoDup_cons in Hnd as [Hc Hnd].
    destruct (Hcs c (or_introl eq_refl)) as [Hid [r Hr]].
    cbn [forEach]. unfold mbind, M_bind, bind.
    assert (Ee : snapshotChef (entryClock (Chef.id c)) w pr snap c
                 = Prisma.snapshotEntry_create
                     (entryOf (entryClock (Chef.id c)) w pr
                        (MonthlySnapshot.id snap) c)).
    { unfold snapshotChef, entryOf. by rewrite Hr. }
    rewrite Ee, snapshotEntry_create_run; [|cbn..]; [|
      intros e' He' Hs E; apply (Hold e' He' Hs); left; by rewrite E
      | done | done].
    rewrite IH; [| done | | done |].
    + unfold withEntries. cbn [Store.chefs Store.scoringWeights
        Store.monthlySnapshots Store.snapshotEntries map].
      by rewrite <- app_assoc.
    + intros c' Hc'. apply (Hcs c'). by right.
    + cbn. intros e He Hs Hin. apply in_app_or in He as [He|[<-|[]]].
      * apply (Hold e He Hs). by right.
      * apply Hc. by apply list_elem_of_In.
Qed.

(** With a clock that does not move the two builders are one. *)
Lemma createMonthlySnapshotAt_same_clock
    (k : Clock.t) (month : string) (notes : option string) :
  createMonthlySnapshotAt k (fun _ => k) month notes
  = createMonthlySnapshot k month notes.
Proof. reflexivity. Qed.

Lemma createMonthlySnapshotAt_run
    (k : Clock.t) (entryClock : string -> Clock.t)
    (month : string) (notes : option string) (s : Store.t) :
  NoDup (chefIds s) ->
  let s1 := withChefs (map (rankChef 0 (ranking k s)) (Store.chefs s)) s in
  let up :=
    Prisma.upsertMonth month notes (Clock.now k) (Store.monthlySnapshots s) in
  createMonthlySnapshotAt k entryClock month notes s
  = (Store.mk (Store.chefs s1) (Store.scoringWeights s) up.1
       (List.filter
          (fun e => negb (Prisma.ofSnapshot (MonthlySnapshot.id up.2) e))
          (Store.snapshotEntries s)
        ++ map
             (fun c =>
                entryOf (entryClock (Chef.id c)) (weightsOf s)
                  (prevRankMap (Prisma.firstBefore month s))
                  (MonthlySnapshot.id up.2) c)
             (chefsByRank s1)),
     Some (MonthlySnapshot.id up.2)).
Proof.
  intros Hnd s1 up. unfold createMonthlySnapshotAt, mbind, M_bind, bind.
  rewrite recalculateAllScores_run by done. fold s1.
  unfold Prisma.chef_findMany_active_byRank at 1. rewrite getWeights_run.
  unfold Prisma.monthlySnapshot_findFirst_before at 1.
  unfold Prisma.monthlySnapshot_upsert at 1.
  change (Store.monthlySnapshots s1) with (Store.monthlySnapshots s).
  fold up. destruct up as [rows snap] eqn:Eup. cbn [fst snd].
  unfold Prisma.snapshotEntry_deleteMany at 1.
  change (weightsOf s1) with (weightsOf s).
  change (Prisma.firstBefore month s1) with (Prisma.firstBefore month s).
  fold (activeChefs s1). fold (chefsByRank s1).
  assert (Hids1 : chefIds s1 = chefIds s) by apply chefIds_after.
  rewrite forEach_snapshotChefAt.
  - reflexivity.
  - rewrite chefsByRank_Permutation. apply activeChefs_ids_NoDup.
    by rewrite Hids1.
  - intros c Hc. apply list_elem_of_In in Hc.
    rewrite chefsByRank_Permutation in Hc. apply list_elem_of_In in Hc.
    split.
    + cbn. change (map Chef.id (Store.chefs s1)) with (chefIds s1).
      unfold activeChefs in Hc. apply List.filter_In in Hc as [Hc _].
      by apply in_map.
    + unfold s1 in Hc. rewrite activeChefs_after in Hc.
      destruct (ranked_In_inv k s Hnd c Hc) as (c0 & j & _ & _ & ->).
      by eexists.
  - cbn. pose proof (upsertMonth_spec month notes (Clock.now k)
                       (Store.monthlySnapshots s)) as (Hin & _).
    fold up in Hin. rewrite Eup in Hin. by apply in_map.
  - cbn. intros e He Hs _. apply List.filter_In in He as [_ He].
    by rewrite Hs in He.
Qed.

Lemma filter_ofSnapshot_entriesAt
    (entryClock : string -> Clock.t) (w : gmap string Q) (pr : gmap string Z)
    (sid : string) (cs : list Chef.t) :
  List.filter (Prisma.ofSnapshot sid)
    (map (fun c => entryOf (entryClock (Chef.id c)) w pr sid c) cs)
  = map (fun c => entryOf (entryClock (Chef.id c)) w pr sid c) cs.
Proof.
  apply filter_all, forallb_forall.
  intros e He. apply in_map_iff in He as (c & <- & _).
  apply String.eqb_refl.
Qed.

End EntryClock.

(** X13.  The entries [createMonthlySnapshot] writes for the month follow
    the ranking of the batch, whatever the clock shows when the loop scores
    each chef: in the order they are written their ranks are 1, 2, ..., one
    for each chef that is not archived, their chefs are those of the scored
    rows in rank order, and every entry holds the rank stored on its chef.
    The breakdown and the total of an entry are computed at the reading of
    the loop; they are the breakdown and the total of the batch, the total
    stored on the chef, when that reading selects the same records of the
    chef as the reading of the batch, and when this is so for every chef no
    entry has a higher total than an entry before it. *)
Theorem createMonthlySnapshot_entries_follow_ranking
    (k : Clock.t) (entryClock : string -> Clock.t)
    (month : string) (notes : option string) (s : Store.t) :
  NoDup (chefIds s) ->
  exists s' sid,
    createMonthlySnapshotAt k entryClock month notes s = (s', Some sid)
    /\ map SnapshotEntry.rank (entriesOf sid s')
       = map Z.of_nat (seq 1 (length (activeChefs s)))
    /\ map SnapshotEntry.chefId (entriesOf sid s')
       = map Scored.id (ranking k s)
    /\ (forall e, In e (entriesOf sid s') ->
          exists c,
            In c (activeChefs s')
            /\ Chef.id c = SnapshotEntry.chefId e
            /\ Chef.rank c = Some (SnapshotEntry.rank e)
            /\ SnapshotEntry.breakdown e
               = calculateBreakdown (entryClock (Chef.id c)) (Chef.records c)
            /\ SnapshotEntry.totalScore e
               = calculateTotalScore (SnapshotEntry.breakdown e) (weightsOf s)
            /\ (sameWindow k (entryClock (Chef.id c)) (Chef.records c) ->
                SnapshotEntry.breakdown e
                = calculateBreakdown k (Chef.records c)
                /\ SnapshotEntry.totalScore e = Chef.totalScore c))
    /\ ((forall c, In c (activeChefs s) ->
           sameWindow k (entryClock (Chef.id c)) (Chef.records c)) ->
        map entryScore (entriesOf sid s') = map scoredRow (ranking k s)
        /\ forall i j a b,
             entriesOf sid s' !! i = Some a ->
             entriesOf sid s' !! j = Some b ->
             (i < j)%nat ->
             (SnapshotEntry.totalScore b <= SnapshotEntry.totalScore a)%Q).
Proof.
  intros Hnd.
  pose proof (createMonthlySnapshotAt_run k entryClock month notes s Hnd) as R.
  cbv zeta in R. rewrite R. clear R.
  set (s1 := withChefs (map (rankChef 0 (ranking k s)) (Store.chefs s)) s).
  set (sid := MonthlySnapshot.id _).
  set (pr := prevRankMap _).
  eexists _, sid. split; [reflexivity|].
  assert (He : entriesOf sid
                 (Store.mk (Store.chefs s1) (Store.scoringWeights s)
                    (Prisma.upsertMonth month notes (Clock.now k)
                       (Store.monthlySnapshots s)).1
                    (List.filter (fun e => negb (Prisma.ofSnapshot sid e))
                       (Store.snapshotEntries s)
                     ++ map
                          (fun c =>
                             entryOf (entryClock (Chef.id c)) (weightsOf s) pr
                               sid c)
                          (chefsByRank s1)))
               = map
                   (fun c =>
                      entryOf (entryClock (Chef.id c)) (weightsOf s) pr sid c)
                   (chefsByRank s1)).
  { unfold entriesOf. cbn [Store.snapshotEntries].
    rewrite List.filter_app, filter_ofSnapshot_others,
      filter_ofSnapshot_entriesAt.
    by rewrite String.eqb_refl. }
  rewrite He.
  assert (Ids : map SnapshotEntry.chefId
                  (map
                     (fun c =>
                        entryOf (entryClock (Chef.id c)) (weightsOf s) pr sid
                          c)
                     (chefsByRank s1))
                = map Scored.id (ranking k s)).
  { rewrite <- (chefsByRank_scores k s Hnd). fold s1.
    rewrite !map_map. by apply map_ext. }
  assert (Same : forall c,
            In c (chefsByRank s1) ->
            sameWindow k (entryClock (Chef.id c)) (Chef.records c) ->
            entryScore (entryOf (entryClock (Chef.id c)) (weightsOf s) pr sid c)
            = scoredRow (score k (weightsOf s) c)).
  { intros c _ Hw. unfold entryScore, scoredRow, entryOf, score. cbn.
    by rewrite (calculateBreakdown_sameWindow _ _ _ Hw). }
  split; [|split; [exact Ids|split]].
  - rewrite map_map.
    transitivity (map (default 0%Z) (map Chef.rank (chefsByRank s1)));
      [by rewrite map_map|].
    unfold s1. rewrite (chefsByRank_ranks k s Hnd), map_map.
    by apply map_ext.
  - intros e Hin. apply in_map_iff in Hin as (c & <- & Hc).
    pose proof Hc as Hc'.
    apply list_elem_of_In, list_elem_of_lookup in Hc as [i Hc].
    apply (chefsByRank_lookup k s Hnd) in Hc as (Hrank & _ & Htot & Hin).
    exists c. split; [exact Hin|]. split; [done|].
    cbn [entryOf SnapshotEntry.rank SnapshotEntry.totalScore
           SnapshotEntry.breakdown].
    rewrite Hrank. split; [done|]. split; [done|]. split; [done|].
    intros Hw. rewrite <- (calculateBreakdown_sameWindow _ _ _ Hw).
    split; [done|]. by rewrite Htot.
  - intros Hall.
    assert (Scores :
      map entryScore
        (map
           (fun c => entryOf (entryClock (Chef.id c)) (weightsOf s) pr sid c)
           (chefsByRank s1))
      = map scoredRow (ranking k s)).
    { rewrite <- (chefsByRank_scores k s Hnd). fold s1. rewrite !map_map.
      apply map_ext_in. intros c Hc. apply Same; [done|].
      assert (Hin : In c (activeChefs s1)).
      { apply list_elem_of_In. rewrite <- (chefsByRank_Permutation s1).
        by apply list_elem_of_In. }
      unfold s1 in Hin. rewrite activeChefs_after in Hin.
      apply ranked_In_inv in Hin as (c0 & j & Hc0 & _ & ->); [|done].
      exact (Hall c0 Hc0). }
    split; [exact Scores|].
    intros i j a b Hi Hj Hij.
    apply (f_equal (fun l => l !! i)) in Scores as Si.
    apply (f_equal (fun l => l !! j)) in Scores as Sj.
    rewrite (list_lookup_fmap entryScore),
      (list_lookup_fmap scoredRow) in Si, Sj.
    rewrite Hi in Si. rewrite Hj in Sj.
    destruct (ranking k s !! i) as [x|] eqn:Hx; [|done].
    destruct (ranking k s !! j) as [y|] eqn:Hy; [|done].
    cbn in Si, Sj. injection Si as _ -> _. injection Sj as _ -> _.
    by apply (ranking_sorted_lookup k s i j).
Qed.

(** The clock standing still at the reading of the batch. *)
Lemma createMonthlySnapshot_entries_follow_ranking_witness :
  exists s' sid,
    createMonthlySnapshot sampleClock "2026-01" None sampleStore
    = (s', Some sid)
    /\ map SnapshotEntry.rank (entriesOf sid s') = [1; 2; 3; 4]%Z.
Proof.
  assert (H : NoDup (chefIds sampleStore))
    by (apply (bool_decide_unpack _); vm_compute; exact I).
  destruct (createMonthlySnapshot_entries_follow_ranking sampleClock
              (fun _ => sampleClock) "2026-01" None sampleStore H)
    as (s' & sid & Run & Ranks & _).
  exists s', sid. split; [exact Run|exact Ranks].
Defined.

(** The hypothesis on the window is needed.  An executive chef whose only
    award is from 2016 is ranked in 2026 with the award inside the window,
    total 37; when the year has changed before the loop scores the chef,
    the entry is written without the award, total 9. *)
Example entry_total_when_the_window_moves :
  let chef :=
    Chef.mk "a" false
      (ChefRecords.mk [Accolade.mk "JAMES_BEARD" None (Some 2016%Z) 0]
         [CareerEntry.mk true None None "Executive Chef" 0] [] [] None)
      0 None in
  exists s' sid c e,
    createMonthlySnapshotAt sampleClock (fun _ => Clock.mk 2027 1100 2100)
      "2026-12" None (Store.mk [chef] [] [] [])
    = (s', Some sid)
    /\ Store.chefs s' = [c]
    /\ entriesOf sid s' = [e]
    /\ Chef.rank c = Some (SnapshotEntry.rank e)
    /\ (Chef.totalScore c == 37)%Q
    /\ (SnapshotEntry.totalScore e == 9)%Q.
Proof.
  eexists _, _, _, _.
  split; [vm_compute; reflexivity|].
  split; [reflexivity|]. split; [reflexivity|]. by repeat split.
Qed.

(** ** The snapshot routes *)

Section Routes.

Lemma find_id_upsert
    (month : string) (notes : option string) (now : Z)
    (rows : list MonthlySnapshot.t) :
  NoDup (map MonthlySnapshot.id rows) ->
  List.find
    (fun m =>
       String.eqb (MonthlySnapshot.id m)
         (MonthlySnapshot.id (Prisma.upsertMonth month notes now rows).2))
    (Prisma.upsertMonth month notes now rows).1
  = Some (Prisma.upsertMonth month notes now rows).2.
Proof.
  intros Hnd. unfold Prisma.upsertMonth.
  destruct (List.find (Prisma.hasMonth month) rows) as [old|] eqn:F;
    cbn [fst snd MonthlySnapshot.id].
  - apply find_some in F as [Hin Hm].
    induction rows as [|x r IH]; [done|].
    cbn in Hnd. apply NoDup_cons in Hnd as [Hx Hr].
    cbn [map List.find].
    destruct Hin as [->|Hin].
    + rewrite Hm. cbn [MonthlySnapshot.id]. by rewrite String.eqb_refl.
    + assert (N : MonthlySnapshot.id x <> MonthlySnapshot.id old).
      { intros E. apply Hx. rewrite E. apply list_elem_of_In.
        by apply in_map. }
      apply String.eqb_neq in N.
      destruct (Prisma.hasMonth month x); cbn [MonthlySnapshot.id];
        rewrite N; by apply IH.
  - rewrite find_app.
    assert (N : List.find
                  (fun m =>
                     String.eqb (MonthlySnapshot.id m)
                       (freshId (map MonthlySnapshot.id rows))) rows = None).
    { clear F. destruct (List.find _ rows) as [m|] eqn:E; [|done].
      apply find_some in E as [Hin E]. apply String.eqb_eq in E.
      exfalso. apply (freshId_fresh (map MonthlySnapshot.id rows)).
      rewrite <- E. by apply in_map. }
    rewrite N. cbn [List.find MonthlySnapshot.id].
    by rewrite String.eqb_refl.
Qed.

Lemma upsertMonth_publishedAt
    (month : string) (notes : option string) (now : Z)
    (rows : list MonthlySnapshot.t) :
  MonthlySnapshot.publishedAt (Prisma.upsertMonth month notes now rows).2
  = Some now.
Proof.
  unfold Prisma.upsertMonth.
  by destruct (List.find (Prisma.hasMonth month) rows).
Qed.

Lemma ranks_sorted (l : list SnapshotEntry.t) (a n : nat) :
  map SnapshotEntry.rank l = map Z.of_nat (seq a n) ->
  StronglySorted
    (fun x y => (SnapshotEntry.rank x <=? SnapshotEntry.rank y)%Z = true) l.
Proof.
  revert a n. induction l as [|x r IH]; intros a [|n] E; try done;
    [constructor|].
  cbn [seq map] in E. injection E as Ex Er. constructor; [by eapply IH|].
  apply Forall_forall. intros y Hy. apply list_elem_of_In in Hy.
  apply (in_map SnapshotEntry.rank) in Hy. rewrite Er in Hy.
  apply in_map_iff in Hy as (i & <- & Hi). apply in_seq in Hi.
  rewrite Ex. apply Z.leb_le. lia.
Qed.

End Routes.

(** X14.  For a month of the form YYYY-MM, with chef and snapshot
    identifiers unique, [POST /api/snapshots] answers 201 with the snapshot
    of that month, stamped with the time of the call, and with its entries
    in rank order 1, 2, ..., one for each chef that is not archived; the
    body is never empty and the call does not fail. *)
Theorem POST_publishes
    (k : Clock.t) (m : string) (notes : option string) (s : Store.t) :
  JS.testMonthPattern m = true ->
  NoDup (chefIds s) -> NoDup (snapshotIds s) ->
  exists s' snapshot entries,
    SnapshotsRoute.POST k (SnapshotsRoute.mkBody (Some m) notes) s
    = (s', SnapshotsRoute.Json201 (Some (snapshot, entries)))
    /\ createMonthlySnapshot k m notes s
       = (s', Some (MonthlySnapshot.id snapshot))
    /\ In snapshot (Store.monthlySnapshots s')
    /\ MonthlySnapshot.month snapshot = m
    /\ MonthlySnapshot.publishedAt snapshot = Some (Clock.now k)
    /\ entries = entriesOf (MonthlySnapshot.id snapshot) s'
    /\ map SnapshotEntry.rank entries
       = map Z.of_nat (seq 1 (length (activeChefs s))).
Proof.
  intros Hm Hnd Hids.
  pose proof (entriesOf_after k m notes s Hnd) as H. cbv zeta in H.
  destruct H as (Hr & _ & Hrows & He & _).
  pose proof (find_id_upsert m notes (Clock.now k) _ Hids) as Hfind.
  pose proof (upsertMonth_spec m notes (Clock.now k)
                (Store.monthlySnapshots s)) as (Hin & Hmonth & _).
  pose proof (upsertMonth_publishedAt m notes (Clock.now k)
                (Store.monthlySnapshots s)) as Hpub.
  assert (Ranks :
    map SnapshotEntry.rank
      (map
         (entryOf k (weightsOf s) (prevRankMap (Prisma.firstBefore m s))
            (MonthlySnapshot.id
               (Prisma.upsertMonth m notes (Clock.now k)
                  (Store.monthlySnapshots s)).2))
         (chefsByRank
            (withChefs (map (rankChef 0 (ranking k s)) (Store.chefs s)) s)))
    = map Z.of_nat (seq 1 (length (activeChefs s)))).
  { rewrite map_map.
    transitivity
      (map (default 0%Z)
         (map Chef.rank
            (chefsByRank
               (withChefs (map (rankChef 0 (ranking k s)) (Store.chefs s))
                  s))));
      [by rewrite map_map|].
    rewrite (chefsByRank_ranks k s Hnd), map_map. by apply map_ext. }
  unfold SnapshotsRoute.POST. cbn [SnapshotsRoute.month SnapshotsRoute.notes].
  rewrite Hm.
  assert (N : String.eqb m "" = false) by (by destruct m).
  rewrite N. cbn [orb negb].
  unfold mbind, M_bind, bind.
  destruct (createMonthlySnapshot k m notes s) as [s' r] eqn:Run.
  cbn [fst snd] in *. subst r.
  set (snapshot := (Prisma.upsertMonth _ _ _ _).2) in *.
  unfold Prisma.monthlySnapshot_findUnique. rewrite Hrows, Hfind.
  fold (entriesOf (MonthlySnapshot.id snapshot) s'). rewrite He.
  rewrite sortBy_sorted_id by (by eapply ranks_sorted).
  exists s', snapshot, (entriesOf (MonthlySnapshot.id snapshot) s').
  rewrite He, Hrows. by repeat split.
Qed.

Lemma POST_publishes_witness :
  exists s' snapshot entries,
    SnapshotsRoute.POST sampleClock
      (SnapshotsRoute.mkBody (Some "2026-01") None) sampleStore
    = (s', SnapshotsRoute.Json201 (Some (snapshot, entries)))
    /\ map SnapshotEntry.rank entries = [1; 2; 3; 4]%Z.
Proof.
  assert (H : NoDup (chefIds sampleStore))
    by (apply (bool_decide_unpack _); vm_compute; exact I).
  destruct (POST_publishes sampleClock "2026-01" None sampleStore eq_refl H
              (NoDup_nil_2 (A:=string)))
    as (s' & snapshot & entries & Run & _ & _ & _ & _ & _ & Ranks).
  exists s', snapshot, entries. split; [exact Run|exact Ranks].
Defined.

(** X15.  [GET /api/snapshots/:id] does not write; it answers 404 exactly
    when no snapshot has the identifier, and otherwise the snapshot with
    its entries, all of them, in ascending order of rank. *)
Theorem GET_id_answers (sid : string) (s : Store.t) :
  exists r,
    SnapshotsQueries.GET_id sid s = (s, Some r)
    /\ (~ In sid (snapshotIds s)
        -> r = SnapshotsQueries.Json404 "Snapshot not found")
    /\ (In sid (snapshotIds s) ->
        exists snapshot entries,
          r = SnapshotsQueries.Json200 snapshot entries
          /\ In snapshot (Store.monthlySnapshots s)
          /\ MonthlySnapshot.id snapshot = sid
          /\ entries ≡ₚ entriesOf sid s
          /\ StronglySorted
               (fun a b => (SnapshotEntry.rank a <= SnapshotEntry.rank b)%Z)
               entries).
Proof.
  unfold SnapshotsQueries.GET_id, mbind, M_bind, bind,
    Prisma.monthlySnapshot_findUnique, snapshotIds.
  destruct (List.find _ (Store.monthlySnapshots s)) as [m|] eqn:F.
  - eexists. split; [reflexivity|]. apply find_some in F as [Hin E].
    apply String.eqb_eq in E. split.
    + intros N. exfalso. apply N. rewrite <- E. by apply in_map.
    + intros _. eexists _, _. split; [reflexivity|].
      split; [done|]. split; [done|]. split; [apply sortBy_Permutation|].
      rewrite <- (list_fmap_id (sortBy _ _)). unfold Datatypes.id.
      eapply (StronglySorted_fmap (fun e => e)); [|apply sortBy_sorted].
      * intros a b. cbn. apply Z.leb_le.
      * intros a b. rewrite !Z.leb_le. lia.
      * intros a b c. rewrite !Z.leb_le. lia.
  - eexists. split; [reflexivity|]. split; [done|].
    intros Hin. exfalso. apply in_map_iff in Hin as (m & E & Hin).
    eapply find_none in F; [|exact Hin]. cbn in F.
    apply String.eqb_neq in F. done.
Qed.

(** ** The route [/api/scoring] *)

Section ScoringWeights.

Lemma find_map_same {A} (p : A -> bool) (f : A -> A) (l : list A) :
  (forall x, p (f x) = p x) ->
  List.find p (map f l) = f <$> List.find p l.
Proof.
  intros Hp. induction l as [|x r IH]; [done|].
  cbn [map List.find]. rewrite Hp. by destruct (p x).
Qed.

Lemma storedWeight_upsert
    (cat c : string) (w : Q) (rows : list ScoringWeight.t) :
  storedWeight c (PrismaMore.upsertWeight cat w rows)
  = if String.eqb cat c then Some w else storedWeight c rows.
Proof.
  unfold storedWeight, PrismaMore.upsertWeight.
  destruct (existsb (PrismaMore.hasCategory cat) rows) eqn:Ex.
  - rewrite <- map_rev, find_map_same.
    2:{ intros x. by destruct (PrismaMore.hasCategory cat x). }
    destruct (String.eqb_spec cat c) as [->|N].
    + destruct (List.find _ (rev rows)) as [r|] eqn:F.
      * apply find_some in F as [_ F]. cbn.
        unfold PrismaMore.hasCategory. by rewrite F.
      * exfalso. apply existsb_exists in Ex as (x & Hx & Hc).
        apply in_rev in Hx. apply (find_none _ _ F) in Hx.
        unfold PrismaMore.hasCategory in Hc. cbn in Hx. congruence.
    + destruct (List.find _ (rev rows)) as [r|] eqn:F; [|done].
      apply find_some in F as [_ F]. cbn.
      unfold PrismaMore.hasCategory. apply String.eqb_eq in F.
      rewrite F. apply String.eqb_neq in N.
      rewrite String.eqb_sym in N. by rewrite N.
  - rewrite rev_app_distr. cbn [rev app List.find ScoringWeight.category].
    by destruct (String.eqb cat c).
Qed.

Lemma upsertWeight_inherited
    (cat : string) (w : Q) (rows : list ScoringWeight.t) :
  Obj.inherited cat = false ->
  Forall (fun r => Obj.inherited (ScoringWeight.category r) = false) rows ->
  Forall (fun r => Obj.inherited (ScoringWeight.category r) = false)
    (PrismaMore.upsertWeight cat w rows).
Proof.
  intros Hc Hr. unfold PrismaMore.upsertWeight.
  destruct (existsb _ rows).
  - apply Forall_fmap. eapply Forall_impl; [exact Hr|].
    intros x Hx. cbn. by destruct (PrismaMore.hasCategory cat x).
  - apply Forall_app. split; [done|]. by constructor.
Qed.

Lemma putRows_spec
    (body : gmap string Q) (cats : list string)
    (rows : list ScoringWeight.t) :
  NoDup cats ->
  Forall (fun c => Obj.inherited c = false) cats ->
  Forall (fun r => Obj.inherited (ScoringWeight.category r) = false) rows ->
  Forall (fun r => Obj.inherited (ScoringWeight.category r) = false)
    (putRows body cats rows)
  /\ forall c,
       storedWeight c (putRows body cats rows)
       = if bool_decide (c ∈ cats)
         then match body !! c with
              | Some v => Some v
              | None => storedWeight c rows
              end
         else storedWeight c rows.
Proof.
  revert rows. induction cats as [|cat r IH]; intros rows Hnd Hc Hr.
  - split; [done|]. intros c.
    by rewrite bool_decide_eq_false_2 by (inversion 1).
  - apply NoDup_cons in Hnd as [Hx Hnd]. apply Forall_cons in Hc as [Hcat Hc].
    unfold putRows. cbn [fold_left].
    set (rows' := match body !! cat with
                  | Some weight => PrismaMore.upsertWeight cat weight rows
                  | None => rows
                  end).
    assert (Hr' : Forall
                    (fun r => Obj.inherited (ScoringWeight.category r) = false)
                    rows').
    { unfold rows'. destruct (body !! cat); [|done].
      by apply upsertWeight_inherited. }
    destruct (IH rows' Hnd Hc Hr') as [F S]. split; [exact F|].
    intros c. fold (putRows body r rows'). rewrite S.
    assert (St : storedWeight c rows'
                 = if String.eqb cat c
                   then match body !! c with
                        | Some v => Some v
                        | None => storedWeight c rows
                        end
                   else storedWeight c rows).
    { unfold rows'. destruct (String.eqb_spec cat c) as [->|N].
      - destruct (body !! c); [|done].
        by rewrite storedWeight_upsert, String.eqb_refl.
      - destruct (body !! cat); [|done].
        rewrite storedWeight_upsert. apply String.eqb_neq in N.
        by rewrite N. }
    destruct (decide (c ∈ r)) as [Hin|Hnin].
    + rewrite !bool_decide_eq_true_2 by (done || by constructor).
      destruct (body !! c); [done|]. rewrite St.
      destruct (String.eqb_spec cat c) as [->|N]; [|done].
      exfalso. by apply Hx.
    + rewrite (bool_decide_eq_false_2 (c ∈ r)) by done. rewrite St.
      destruct (String.eqb_spec cat c) as [->|N].
      * by rewrite bool_decide_eq_true_2 by (by constructor).
      * rewrite bool_decide_eq_false_2; [done|].
        intros E. inversion E; by subst.
Qed.

Lemma forEach_upserts
    (body : gmap string Q) (cats : list string) (s : Store.t) :
  forEach
    (fun cat =>
       match body !! cat with
       | Some weight => PrismaMore.scoringWeight_upsert cat weight
       | None => ret tt
       end)
    cats s
  = (withWeights (putRows body cats (Store.scoringWeights s)) s, Some tt).
Proof.
  revert s. induction cats as [|cat r IH]; intros s; [by destruct s|].
  cbn [forEach]. unfold mbind, M_bind, bind.
  unfold putRows. cbn [fold_left].
  destruct (body !! cat) as [w|]; cbn; rewrite IH; [reflexivity|].
  by destruct s.
Qed.

Lemma weightsOf_lookup (s : Store.t) (c : string) :
  Forall (fun r => Obj.inherited (ScoringWeight.category r) = false)
    (Store.scoringWeights s) ->
  In c categories ->
  weightsOf s !! c
  = match storedWeight c (Store.scoringWeights s) with
    | Some v => Some v
    | None => DEFAULT_WEIGHTS !! c
    end.
Proof.
  intros Hr Hc. unfold weightsOf.
  destruct (Store.scoringWeights s) as [|x r] eqn:E; [done|].
  cbn [length Nat.eqb]. rewrite <- E in *.
  apply (fold_applyRow_spec _ DEFAULT_WEIGHTS Hr).
  rewrite dom_DEFAULT_WEIGHTS. unfold categorySet.
  by apply elem_of_list_to_set, list_elem_of_In.
Qed.

Lemma weightsOf_dom (s : Store.t) :
  Forall (fun r => Obj.inherited (ScoringWeight.category r) = false)
    (Store.scoringWeights s) ->
  dom (weightsOf s) = categorySet.
Proof.
  intros Hr. unfold weightsOf.
  destruct (length (Store.scoringWeights s) =? 0)%nat;
    [apply dom_DEFAULT_WEIGHTS|].
  rewrite <- dom_DEFAULT_WEIGHTS.
  by apply (fold_applyRow_spec _ DEFAULT_WEIGHTS Hr).
Qed.

End ScoringWeights.

(** X16.  [PUT /api/scoring] stores the weights the body gives, whatever
    their values, and keeps the others: the weights it answers hold, for
    each of the four categories, the value of the body where the body has
    one and the weight in effect before otherwise; a later [GET] answers
    the same weights; and the total stored on every chef that is not
    archived is the chef's total under these weights.  Snapshots are not
    touched. *)
Theorem PUT_scoring_applies_weights
    (k : Clock.t) (body : gmap string Q) (s : Store.t) :
  NoDup (chefIds s) ->
  Forall (fun r => Obj.inherited (ScoringWeight.category r) = false)
    (Store.scoringWeights s) ->
  exists s' w,
    ScoringRoute.PUT k body s = (s', Some w)
    /\ dom w = categorySet
    /\ (forall c, In c categories ->
          w !! c = match body !! c with
                   | Some v => Some v
                   | None => weightsOf s !! c
                   end)
    /\ ScoringRoute.GET s' = (s', Some w)
    /\ (forall c, In c (activeChefs s') ->
          Chef.totalScore c
          = calculateTotalScore (calculateBreakdown k (Chef.records c)) w)
    /\ Store.monthlySnapshots s' = Store.monthlySnapshots s
    /\ Store.snapshotEntries s' = Store.snapshotEntries s.
Proof.
  intros Hnd Hr.
  set (s1 := withWeights (putRows body categories (Store.scoringWeights s)) s).
  destruct (putRows_spec body categories (Store.scoringWeights s))
    as [Hr1 St]; [| |exact Hr|].
  { apply (bool_decide_unpack _). vm_compute. exact I. }
  { repeat constructor. }
  set (s2 := withChefs (map (rankChef 0 (ranking k s1)) (Store.chefs s1)) s1).
  assert (Run : ScoringRoute.PUT k body s = (s2, Some (weightsOf s1))).
  { unfold ScoringRoute.PUT, mbind, M_bind, bind.
    change ["formalAccolades"; "careerTrack"; "publicSignals"; "peerStanding"]
      with categories.
    rewrite forEach_upserts. fold s1.
    rewrite recalculateAllScores_run by done. fold s2.
    by rewrite getWeights_run. }
  exists s2, (weightsOf s1). split; [exact Run|].
  split; [by apply weightsOf_dom|].
  split.
  { intros c Hc. rewrite weightsOf_lookup by done.
    cbn [s1 withWeights Store.scoringWeights]. rewrite St.
    rewrite bool_decide_eq_true_2 by (by apply list_elem_of_In).
    destruct (body !! c); [done|]. by rewrite weightsOf_lookup. }
  split; [unfold ScoringRoute.GET; by rewrite getWeights_run|].
  split; [|done].
  intros c Hc. unfold s2 in Hc. rewrite activeChefs_after in Hc.
  apply ranked_In_inv in Hc as (c0 & j & _ & _ & ->); [|done].
  reflexivity.
Qed.

Lemma PUT_scoring_applies_weights_witness :
  exists s' w,
    ScoringRoute.PUT sampleClock {["careerTrack" := 1%Q]} sampleStore
    = (s', Some w)
    /\ w !! "careerTrack" = Some 1%Q
    /\ w !! "peerStanding" = Some (25 # 100)%Q.
Proof.
  assert (H : NoDup (chefIds sampleStore))
    by (apply (bool_decide_unpack _); vm_compute; exact I).
  destruct (PUT_scoring_applies_weights sampleClock {["careerTrack" := 1%Q]}
              sampleStore H (Forall_nil_2 _))
    as (s' & w & Run & _ & W & _).
  exists s', w. split; [exact Run|]. split.
  - apply (W "careerTrack"). vm_compute. tauto.
  - apply (W "peerStanding"). vm_compute. tauto.
Defined.

Section SnapshotList.

Lemma monthDesc_total (a b : MonthlySnapshot.t) :
  PrismaMore.monthDesc a b = true \/ PrismaMore.monthDesc b a = true.
Proof.
  unfold PrismaMore.monthDesc, String.ltb.
  rewrite (String.compare_antisym (MonthlySnapshot.month a)).
  destruct (String.compare _ _); cbn; tauto.
Qed.

Lemma monthDesc_trans (a b c : MonthlySnapshot.t) :
  PrismaMore.monthDesc a b = true -> PrismaMore.monthDesc b c = true ->
  PrismaMore.monthDesc a c = true.
Proof.
  unfold PrismaMore.monthDesc. rewrite !negb_true_iff. intros Hab Hbc.
  destruct (String.ltb (MonthlySnapshot.month a) (MonthlySnapshot.month c))
    eqn:Hac; [|done].
  destruct (String.ltb (MonthlySnapshot.month b) (MonthlySnapshot.month a))
    eqn:Hba.
  - by rewrite (ltb_trans _ _ _ Hba Hac) in Hbc.
  - rewrite (ltb_incomparable _ _ Hab Hba) in Hac. congruence.
Qed.

End SnapshotList.

(** X17.  [GET /api/snapshots] does not write and lists every snapshot
    once, the newest month first: no snapshot of the list has a month below
    the month of a snapshot after it; each comes with the number of its
    entries. *)
Theorem GET_snapshots_newest_first (s : Store.t) :
  exists l,
    SnapshotsQueries.GET s = (s, Some l)
    /\ map fst l ≡ₚ Store.monthlySnapshots s
    /\ StronglySorted
         (fun a b =>
            String.ltb (MonthlySnapshot.month a) (MonthlySnapshot.month b)
            = false)
         (map fst l)
    /\ Forall
         (fun r => r.2 = length (entriesOf (MonthlySnapshot.id r.1) s)) l.
Proof.
  eexists. split; [reflexivity|].
  rewrite map_map. cbn [fst]. rewrite map_id.
  split; [apply sortBy_Permutation|]. split.
  - rewrite <- (list_fmap_id (sortBy _ _)).
    eapply (StronglySorted_fmap (fun m => m));
      [|apply sortBy_sorted; [apply monthDesc_total|apply monthDesc_trans]].
    intros a b. unfold PrismaMore.monthDesc. by rewrite negb_true_iff.
  - apply Forall_fmap, Forall_forall. by intros m _.
Qed.

(** ** The end-to-end check of snapshots *)

Section EndToEnd.

Variable k : Clock.t.
Variable s : Store.t.
Hypothesis Hnd : NoDup (chefIds s).
Hypothesis Hids : NoDup (snapshotIds s).

Let s1 := withChefs (map (rankChef 0 (ranking k s)) (Store.chefs s)) s.
Let up :=
  Prisma.upsertMonth E2E.testMonth (Some E2E.testNotes) (Clock.now k)
    (Store.monthlySnapshots s).
Let sid := MonthlySnapshot.id up.2.

Lemma createMonthlySnapshot_after_batch
    (month : string) (notes : option string) :
  createMonthlySnapshot k month notes s1
  = (Store.mk (Store.chefs s1) (Store.scoringWeights s)
       (Prisma.upsertMonth month notes (Clock.now k)
          (Store.monthlySnapshots s)).1
       (List.filter
          (fun e =>
             negb
               (Prisma.ofSnapshot
                  (MonthlySnapshot.id
                     (Prisma.upsertMonth month notes (Clock.now k)
                        (Store.monthlySnapshots s)).2) e))
          (Store.snapshotEntries s)
        ++ map
             (entryOf k (weightsOf s)
                (prevRankMap (Prisma.firstBefore month s))
                (MonthlySnapshot.id
                   (Prisma.upsertMonth month notes (Clock.now k)
                      (Store.monthlySnapshots s)).2))
             (chefsByRank s1)),
     Some
       (MonthlySnapshot.id
          (Prisma.upsertMonth month notes (Clock.now k)
             (Store.monthlySnapshots s)).2)).
Proof.
  pose proof (createMonthlySnapshot_run k month notes s1) as R.
  cbv zeta in R. rewrite R by (unfold s1; by rewrite chefIds_after).
  assert (F : withChefs (map (rankChef 0 (ranking k s1)) (Store.chefs s1)) s1
              = s1).
  { unfold s1 at 1. rewrite ranking_after. unfold s1, withChefs.
    cbn [Store.chefs Store.scoringWeights Store.monthlySnapshots
           Store.snapshotEntries].
    by rewrite rerank_fixed. }
  rewrite F. reflexivity.
Qed.

Let rows' :=
  List.filter (fun m => negb (String.eqb (MonthlySnapshot.id m) sid)) up.1.

Let steps :=
  [E2E.mkStep 1 "Recalculate all scores" true None;
   E2E.mkStep 2 "Create test snapshot" (negb (String.eqb sid "")) None;
   E2E.mkStep 3 "Verify snapshot saved"
     (0 <? length (activeChefs s))%nat
     (Some
        (E2E.Text
           (E2E.entriesText (Some (up.2, length (activeChefs s))))));
   E2E.mkStep 4 "Delete test snapshot" true None;
   E2E.mkStep 5 "Verify snapshot deleted"
     (match List.find (Prisma.hasMonth E2E.testMonth) rows' with
      | Some _ => false
      | None => true
      end)
     None].

Lemma filter_negb_twice {A} (p : A -> bool) (l : list A) :
  List.filter (fun x => negb (p x)) (List.filter (fun x => negb (p x)) l)
  = List.filter (fun x => negb (p x)) l.
Proof.
  induction l as [|x r IH]; [done|]. cbn [List.filter].
  destruct (p x) eqn:E; cbn [negb]; [done|].
  cbn [List.filter]. rewrite E. cbn [negb]. by rewrite IH.
Qed.

Lemma filter_negb_none {A} (p : A -> bool) (l : list A) :
  (forall x, In x l -> p x = true) ->
  List.filter (fun x => negb (p x)) l = [].
Proof.
  induction l as [|x r IH]; intros H; [done|]. cbn [List.filter].
  rewrite (H x) by (by left). cbn [negb]. apply IH. intros y Hy.
  apply H. by right.
Qed.

Lemma snapshotTest_run :
  E2E.snapshotTest k s
  = (Store.mk (Store.chefs s1) (Store.scoringWeights s) rows'
       (List.filter (fun e => negb (Prisma.ofSnapshot sid e))
          (Store.snapshotEntries s)),
     Some (E2E.mkResult steps (forallb E2E.passed steps))).
Proof.
  assert (Count :
    length
      (List.filter (Prisma.ofSnapshot sid)
         (List.filter (fun e => negb (Prisma.ofSnapshot sid e))
            (Store.snapshotEntries s)
          ++ map
               (entryOf k (weightsOf s)
                  (prevRankMap (Prisma.firstBefore E2E.testMonth s)) sid)
               (chefsByRank s1)))
    = length (activeChefs s)).
  { rewrite List.filter_app, filter_ofSnapshot_others,
      filter_ofSnapshot_entries, String.eqb_refl.
    cbn [app]. rewrite length_map. by apply chefsByRank_length. }
  assert (Entries :
    List.filter (fun e => negb (Prisma.ofSnapshot sid e))
      (List.filter (fun e => negb (Prisma.ofSnapshot sid e))
         (List.filter (fun e => negb (Prisma.ofSnapshot sid e))
            (Store.snapshotEntries s)
          ++ map
               (entryOf k (weightsOf s)
                  (prevRankMap (Prisma.firstBefore E2E.testMonth s)) sid)
               (chefsByRank s1)))
    = List.filter (fun e => negb (Prisma.ofSnapshot sid e))
        (Store.snapshotEntries s)).
  { rewrite filter_negb_twice, List.filter_app, filter_negb_twice.
    rewrite (filter_negb_none (Prisma.ofSnapshot sid) (map _ _)).
    - by rewrite app_nil_r.
    - intros e He. apply in_map_iff in He as (c & <- & _).
      unfold Prisma.ofSnapshot, entryOf. cbn. apply String.eqb_refl. }
  assert (Exists :
    existsb (fun m => String.eqb (MonthlySnapshot.id m) sid) up.1 = true).
  { apply existsb_exists. exists up.2. split.
    - apply upsertMonth_spec.
    - apply String.eqb_refl. }
  pose proof (find_id_upsert E2E.testMonth (Some E2E.testNotes) (Clock.now k)
                _ Hids) as Find.
  fold up in Find. fold sid in Find.
  unfold E2E.snapshotTest, E2E.tryCatchFinally.
  assert (Body :
    E2E.body k (E2E.mkLocals [] None) s
    = (E2E.mkLocals steps None,
       Store.mk (Store.chefs s1) (Store.scoringWeights s) rows'
         (List.filter (fun e => negb (Prisma.ofSnapshot sid e))
            (Store.snapshotEntries s)),
       Some tt)).
  { unfold E2E.body, mbind, E2E.T_bind, E2E.lift, E2E.push,
      E2E.setTestSnapshotId.
    rewrite recalculateAllScores_run by done. fold s1.
    cbv beta iota zeta. cbn [E2E.steps E2E.testSnapshotId app].
    rewrite createMonthlySnapshot_after_batch. fold up. fold sid.
    cbv beta iota zeta. cbn [E2E.steps E2E.testSnapshotId app].
    unfold PrismaMore.monthlySnapshot_findUnique_withCount,
      PrismaMore.countEntries.
    cbn [Store.monthlySnapshots Store.snapshotEntries].
    rewrite Find. cbv beta iota zeta. fold sid. rewrite Count.
    cbv beta iota zeta. cbn [E2E.steps E2E.testSnapshotId app].
    unfold Prisma.snapshotEntry_deleteMany, PrismaMore.monthlySnapshot_delete.
    cbn [Store.monthlySnapshots Store.snapshotEntries Store.chefs
           Store.scoringWeights].
    rewrite Exists.
    cbv beta iota zeta. cbn [E2E.steps E2E.testSnapshotId app].
    unfold PrismaMore.monthlySnapshot_findFirst_month.
    cbn [Store.monthlySnapshots Store.snapshotEntries Store.chefs
           Store.scoringWeights].
    rewrite Entries. reflexivity. }
  rewrite Body. unfold E2E.final, E2E.locals, mbind, E2E.T_bind.
  cbn [E2E.testSnapshotId E2E.steps]. reflexivity.
Qed.

End EndToEnd.

Section EndToEndFacts.

Lemma find_hasMonth_None (month : string) (rows : list MonthlySnapshot.t) :
  ~ In month (map MonthlySnapshot.month rows) ->
  List.find (Prisma.hasMonth month) rows = None.
Proof.
  intros H. destruct (List.find _ rows) as [m|] eqn:F; [|done].
  apply find_some in F as [Hin Hm]. apply String.eqb_eq in Hm.
  exfalso. apply H. rewrite <- Hm. by apply in_map.
Qed.

Lemma filter_In_true {A} (p : A -> bool) (l : list A) :
  (forall x, In x l -> p x = true) -> List.filter p l = l.
Proof.
  intros H. apply filter_all, forallb_forall. exact H.
Qed.

End EndToEndFacts.

(** X18.  On a store with no snapshot for the month 1999-01 the snapshot
    check of the health route leaves no trace: the store it ends with is
    the store a recalculation alone gives, with every snapshot and entry as
    before.  It reports five steps and fails only step 3, and only when no
    chef is active. *)
Theorem snapshotTest_leaves_no_trace (k : Clock.t) (s : Store.t) :
  NoDup (chefIds s) -> NoDup (snapshotIds s) ->
  ~ In E2E.testMonth (months s) ->
  Forall (fun e => In (SnapshotEntry.snapshotId e) (snapshotIds s))
    (Store.snapshotEntries s) ->
  exists result,
    E2E.snapshotTest k s = ((recalculateAllScores k s).1, Some result)
    /\ map E2E.step (E2E.resultSteps result) = [1; 2; 3; 4; 5]%nat
    /\ map E2E.passed (E2E.resultSteps result)
       = [true; true; (0 <? length (activeChefs s))%nat; true; true]
    /\ E2E.resultPassed result = (0 <? length (activeChefs s))%nat.
Proof.
  intros Hnd Hids Hm He.
  rewrite snapshotTest_run, recalculateAllScores_run by done.
  assert (U : Prisma.upsertMonth E2E.testMonth (Some E2E.testNotes)
                (Clock.now k) (Store.monthlySnapshots s)
              = (Store.monthlySnapshots s
                 ++ [MonthlySnapshot.mk (freshId (snapshotIds s))
                       E2E.testMonth (Some (Clock.now k))
                       (Some E2E.testNotes)],
                 MonthlySnapshot.mk (freshId (snapshotIds s))
                   E2E.testMonth (Some (Clock.now k))
                   (Some E2E.testNotes))).
  { unfold Prisma.upsertMonth. by rewrite find_hasMonth_None. }
  rewrite U. cbn [fst snd MonthlySnapshot.id].
  assert (R : List.filter
                (fun m =>
                   negb (String.eqb (MonthlySnapshot.id m)
                           (freshId (snapshotIds s))))
                (Store.monthlySnapshots s
                 ++ [MonthlySnapshot.mk (freshId (snapshotIds s))
                       E2E.testMonth (Some (Clock.now k))
                       (Some E2E.testNotes)])
              = Store.monthlySnapshots s).
  { rewrite List.filter_app. cbn [List.filter MonthlySnapshot.id].
    rewrite String.eqb_refl. cbn [negb]. rewrite app_nil_r.
    apply filter_In_true. intros m Hin. apply negb_true_iff, String.eqb_neq.
    intros E. apply (freshId_fresh (snapshotIds s)). rewrite <- E.
    by apply in_map. }
  assert (E : List.filter
                (fun e => negb (Prisma.ofSnapshot (freshId (snapshotIds s)) e))
                (Store.snapshotEntries s)
              = Store.snapshotEntries s).
  { apply filter_In_true. intros e Hin.
    apply negb_true_iff, String.eqb_neq. intros F.
    apply (freshId_fresh (snapshotIds s)). rewrite <- F.
    rewrite Forall_forall in He. by apply He, list_elem_of_In. }
  rewrite R, E, find_hasMonth_None by done.
  eexists. split; [reflexivity|].
  cbn [E2E.resultSteps E2E.resultPassed map E2E.step E2E.passed forallb
         freshId String.eqb negb andb].
  split; [done|]. split; [done|].
  by destruct (0 <? length (activeChefs s))%nat.
Qed.

Lemma snapshotTest_leaves_no_trace_witness :
  exists result,
    E2E.snapshotTest sampleClock sampleStore
    = ((recalculateAllScores sampleClock sampleStore).1, Some result)
    /\ E2E.resultPassed result = true.
Proof.
  assert (H : NoDup (chefIds sampleStore))
    by (apply (bool_decide_unpack _); vm_compute; exact I).
  destruct (snapshotTest_leaves_no_trace sampleClock sampleStore H
              (NoDup_nil_2 (A:=string)) (fun F => F) (Forall_nil_2 _))
    as (result & Run & _ & _ & P).
  exists result. split; [exact Run|exact P].
Defined.
Section TestMonthTaken.

Lemma filter_map_cond {A} (p q : A -> bool) (f : A -> A) (l : list A) :
  (forall x, In x l -> p (f x) = q x /\ (q x = true -> f x = x)) ->
  List.filter p (map f l) = List.filter q l.
Proof.
  induction l as [|x r IH]; intros H; [done|].
  cbn [map List.filter].
  destruct (H x (or_introl eq_refl)) as [-> Hf].
  rewrite IH by (intros y Hy; apply H; by right).
  destruct (q x); [|done]. by rewrite Hf.
Qed.

Lemma find_filter_negb {A} (p : A -> bool) (l : list A) :
  List.find p (List.filter (fun x => negb (p x)) l) = None.
Proof.
  destruct (List.find _ _) as [x|] eqn:F; [|done].
  apply find_some in F as [Hin Hp].
  apply List.filter_In in Hin as [_ Hn]. rewrite Hp in Hn. done.
Qed.

End TestMonthTaken.

(** X19.  The snapshot check does not spare real data: when the store
    holds a snapshot for the month 1999-01, the check republishes that
    snapshot and then deletes it with all its entries.  Every other
    snapshot and entry stays, and the check still reports success when the
    identifier is not empty and a chef is active. *)
Theorem snapshotTest_deletes_snapshot_of_test_month
    (k : Clock.t) (s : Store.t) (old : MonthlySnapshot.t) :
  NoDup (chefIds s) -> NoDup (snapshotIds s) -> NoDup (months s) ->
  In old (Store.monthlySnapshots s) ->
  MonthlySnapshot.month old = E2E.testMonth ->
  exists s' result,
    E2E.snapshotTest k s = (s', Some result)
    /\ Store.monthlySnapshots s'
       = List.filter (fun m => negb (Prisma.hasMonth E2E.testMonth m))
           (Store.monthlySnapshots s)
    /\ ~ In old (Store.monthlySnapshots s')
    /\ Store.snapshotEntries s'
       = List.filter
           (fun e => negb (Prisma.ofSnapshot (MonthlySnapshot.id old) e))
           (Store.snapshotEntries s)
    /\ E2E.resultPassed result
       = negb (String.eqb (MonthlySnapshot.id old) "")
         && (0 <? length (activeChefs s))%nat.
Proof.
  intros Hnd Hids Hmonths Hin Hm.
  rewrite snapshotTest_run by done.
  destruct (List.find (Prisma.hasMonth E2E.testMonth)
              (Store.monthlySnapshots s)) as [old'|] eqn:F.
  2:{ exfalso. apply (find_none _ _ F) in Hin.
      unfold Prisma.hasMonth in Hin. rewrite Hm in Hin.
      by rewrite String.eqb_refl in Hin. }
  apply find_some in F as F'. destruct F' as [Hin' Hm'].
  apply String.eqb_eq in Hm'.
  assert (old' = old) as ->.
  { apply (NoDup_map_inj MonthlySnapshot.month (Store.monthlySnapshots s));
      try done. congruence. }
  unfold Prisma.upsertMonth. rewrite F. cbn [fst snd MonthlySnapshot.id].
  assert (R :
    List.filter
      (fun m =>
         negb (String.eqb (MonthlySnapshot.id m) (MonthlySnapshot.id old)))
      (map
         (fun m =>
            if Prisma.hasMonth E2E.testMonth m
            then
              MonthlySnapshot.mk (MonthlySnapshot.id m)
                (MonthlySnapshot.month m) (Some (Clock.now k))
                (Some E2E.testNotes)
            else m)
         (Store.monthlySnapshots s))
    = List.filter (fun m => negb (Prisma.hasMonth E2E.testMonth m))
        (Store.monthlySnapshots s)).
  { apply filter_map_cond. intros x Hx. split.
    - assert (Hid : MonthlySnapshot.id
                      (if Prisma.hasMonth E2E.testMonth x
                       then
                         MonthlySnapshot.mk (MonthlySnapshot.id x)
                           (MonthlySnapshot.month x) (Some (Clock.now k))
                           (Some E2E.testNotes)
                       else x)
                    = MonthlySnapshot.id x)
        by (by destruct (Prisma.hasMonth E2E.testMonth x)).
      rewrite Hid. f_equal. unfold Prisma.hasMonth.
      destruct (String.eqb_spec (MonthlySnapshot.id x) (MonthlySnapshot.id old))
        as [E|N].
      + assert (x = old) as ->
          by (by apply (NoDup_map_inj MonthlySnapshot.id
                          (Store.monthlySnapshots s))).
        rewrite Hm. symmetry. apply String.eqb_refl.
      + symmetry. apply String.eqb_neq. intros E. apply N.
        f_equal.
        apply (NoDup_map_inj MonthlySnapshot.month (Store.monthlySnapshots s));
          try done. congruence.
    - intros Hq. apply negb_true_iff in Hq. by rewrite Hq. }
  rewrite R, find_filter_negb.
  eexists _, _. split; [reflexivity|].
  cbn [Store.monthlySnapshots Store.snapshotEntries E2E.resultPassed].
  split; [done|]. split.
  { intros Hold. apply List.filter_In in Hold as [_ Hold].
    unfold Prisma.hasMonth in Hold. rewrite Hm in Hold.
    by rewrite String.eqb_refl in Hold. }
  split; [done|].
  cbn [forallb E2E.passed].
  by destruct (negb _), (0 <? length (activeChefs s))%nat.
Qed.

Lemma snapshotTest_deletes_snapshot_of_test_month_witness :
  exists s' result,
    E2E.snapshotTest sampleClock
      (Store.mk (Store.chefs sampleStore) []
         [MonthlySnapshot.mk "c" "1999-01" (Some 5%Z) None] [])
    = (s', Some result)
    /\ Store.monthlySnapshots s' = []
    /\ E2E.resultPassed result = true.
Proof.
  assert (H : NoDup (chefIds sampleStore))
    by (apply (bool_decide_unpack _); vm_compute; exact I).
  destruct (snapshotTest_deletes_snapshot_of_test_month sampleClock
              (Store.mk (Store.chefs sampleStore) []
                 [MonthlySnapshot.mk "c" "1999-01" (Some 5%Z) None] [])
              (MonthlySnapshot.mk "c" "1999-01" (Some 5%Z) None)
              H
              ltac:(apply (bool_decide_unpack _); vm_compute; exact I)
              ltac:(apply (bool_decide_unpack _); vm_compute; exact I)
              (or_introl eq_refl) eq_refl)
    as (s' & result & Run & Rows & _ & _ & P).
  exists s', result. split; [exact Run|]. split; [exact Rows|exact P].
Defined.

(** ** The constraints of the schema *)

Section Schema.

Lemma NoDup_map_filter {A B} (f : A -> B) (p : A -> bool) (l : list A) :
  NoDup (map f l) -> NoDup (map f (List.filter p l)).
Proof.
  induction l as [|x r IH]; [done|]. cbn [map List.filter].
  intros [Hx Hr]%NoDup_cons. destruct (p x); [|by apply IH].
  cbn [map]. apply NoDup_cons. split; [|by apply IH].
  intros H. apply Hx. apply list_elem_of_In in H.
  apply in_map_iff in H as (y & E & Hy). apply List.filter_In in Hy as [Hy _].
  apply list_elem_of_In. rewrite <- E. by apply in_map.
Qed.

Lemma upsertMonth_ids
    (month : string) (notes : option string) (now : Z)
    (rows : list MonthlySnapshot.t) :
  NoDup (map MonthlySnapshot.id rows) ->
  NoDup (map MonthlySnapshot.id (Prisma.upsertMonth month notes now rows).1)
  /\ (forall x, In x (map MonthlySnapshot.id rows) ->
        In x (map MonthlySnapshot.id
                (Prisma.upsertMonth month notes now rows).1)).
Proof.
  intros Hnd. unfold Prisma.upsertMonth.
  destruct (List.find (Prisma.hasMonth month) rows) as [old|]; cbn [fst].
  - assert (E : map MonthlySnapshot.id
                  (map
                     (fun m =>
                        if Prisma.hasMonth month m
                        then
                          MonthlySnapshot.mk (MonthlySnapshot.id m)
                            (MonthlySnapshot.month m) (Some now)
                            match notes with
                            | Some n => Some n
                            | None => MonthlySnapshot.notes m
                            end
                        else m)
                     rows)
                = map MonthlySnapshot.id rows).
    { rewrite map_map. apply map_ext. intros m.
      by destruct (Prisma.hasMonth month m). }
    rewrite E. by split.
  - rewrite map_app. cbn [map MonthlySnapshot.id]. split.
    + apply NoDup_app. split; [done|]. split; [|apply NoDup_singleton].
      intros x Hx Hf. apply list_elem_of_In in Hx, Hf.
      destruct Hf as [<-|[]]. by apply (freshId_fresh _ Hx).
    + intros x Hx. apply in_or_app. by left.
Qed.

Lemma upsertWeight_categories
    (cat : string) (w : Q) (rows : list ScoringWeight.t) :
  NoDup (map ScoringWeight.category rows) ->
  NoDup (map ScoringWeight.category (PrismaMore.upsertWeight cat w rows)).
Proof.
  intros Hnd. unfold PrismaMore.upsertWeight.
  destruct (existsb (PrismaMore.hasCategory cat) rows) eqn:Ex.
  - rewrite map_map. erewrite map_ext; [exact Hnd|].
    intros r. by destruct (PrismaMore.hasCategory cat r).
  - rewrite map_app. cbn [map ScoringWeight.category].
    apply NoDup_app. split; [done|]. split; [|apply NoDup_singleton].
    intros x Hx Hf. apply list_elem_of_In in Hx, Hf.
    destruct Hf as [<-|[]]. apply in_map_iff in Hx as (r & E & Hr).
    assert (T : existsb (PrismaMore.hasCategory cat) rows = true).
    { apply existsb_exists. exists r. split; [done|].
      unfold PrismaMore.hasCategory. rewrite E. apply String.eqb_refl. }
    congruence.
Qed.

Lemma putRows_categories
    (body : gmap string Q) (cats : list string)
    (rows : list ScoringWeight.t) :
  NoDup (map ScoringWeight.category rows) ->
  NoDup (map ScoringWeight.category (putRows body cats rows)).
Proof.
  revert rows. induction cats as [|cat r IH]; intros rows Hnd; [done|].
  unfold putRows. cbn [fold_left]. apply IH.
  destruct (body !! cat); [by apply upsertWeight_categories|done].
Qed.

Lemma schemaOk_after_batch (k : Clock.t) (s : Store.t) :
  schemaOk s ->
  schemaOk (withChefs (map (rankChef 0 (ranking k s)) (Store.chefs s)) s).
Proof.
  intros (Hc & Hw & Hi & Hm & Hk & Hf).
  unfold schemaOk. rewrite chefIds_after. by repeat split.
Qed.

Lemma schemaOk_after_publish
    (k : Clock.t) (month : string) (notes : option string) (s : Store.t) :
  schemaOk s -> schemaOk (createMonthlySnapshot k month notes s).1.
Proof.
  intros (Hc & Hw & Hi & Hm & Hk & Hf).
  rewrite (createMonthlySnapshot_run k month notes s Hc). cbn [fst].
  destruct (upsertMonth_ids month notes (Clock.now k) _ Hi) as [Hi' Hsub].
  destruct (upsertMonth_spec month notes (Clock.now k)
              (Store.monthlySnapshots s)) as (Hin & _ & _ & Hone).
  destruct (Hone Hm) as [Hm' _].
  set (up := Prisma.upsertMonth month notes (Clock.now k)
               (Store.monthlySnapshots s)) in *.
  set (s1 := withChefs (map (rankChef 0 (ranking k s)) (Store.chefs s)) s).
  assert (Hids1 : chefIds s1 = chefIds s) by apply chefIds_after.
  assert (Hcs : forall c, In c (chefsByRank s1) -> In (Chef.id c) (chefIds s)).
  { intros c Hc'. rewrite <- Hids1. apply in_map.
    apply list_elem_of_In in Hc'. rewrite chefsByRank_Permutation in Hc'.
    apply list_elem_of_In in Hc'. unfold activeChefs in Hc'.
    by apply List.filter_In in Hc' as [Hc' _]. }
  assert (Hnds : NoDup (map Chef.id (chefsByRank s1))).
  { rewrite chefsByRank_Permutation. unfold activeChefs.
    apply NoDup_map_filter. fold (chefIds s1). by rewrite Hids1. }
  unfold schemaOk, chefIds, snapshotIds, months.
  cbn [Store.chefs Store.scoringWeights Store.monthlySnapshots
         Store.snapshotEntries].
  fold (chefIds s1). rewrite Hids1.
  split; [done|]. split; [done|]. split; [done|]. split; [done|]. split.
  - rewrite map_app. apply NoDup_app. split; [by apply NoDup_map_filter|].
    split.
    + intros key H1 H2. apply list_elem_of_In in H1, H2.
      apply in_map_iff in H1 as (e & <- & He).
      apply List.filter_In in He as [_ He].
      apply in_map_iff in H2 as (e' & E & He').
      apply in_map_iff in He' as (c & <- & _).
      unfold entryKey, entryOf in E. cbn in E. injection E as E _.
      unfold Prisma.ofSnapshot in He. rewrite <- E in He.
      by rewrite String.eqb_refl in He.
    + rewrite map_map. unfold entryKey, entryOf. cbn.
      change (map (fun c => (MonthlySnapshot.id up.2, Chef.id c))
                (chefsByRank s1))
        with (map (fun c => (fun i => (MonthlySnapshot.id up.2, i))
                              (Chef.id c)) (chefsByRank s1)).
      rewrite <- (map_map Chef.id).
      assert (I : Inj eq eq (fun i : string => (MonthlySnapshot.id up.2, i)))
        by (by intros x y [= ->]).
      by apply (NoDup_fmap_2 (fun i : string => (MonthlySnapshot.id up.2, i))).
  - apply Forall_app. split.
    + apply Forall_forall. intros e He. apply list_elem_of_In in He.
      apply List.filter_In in He as [He _].
      rewrite Forall_forall in Hf.
      destruct (Hf e) as [F1 F2]; [by apply list_elem_of_In|].
      split; [by apply Hsub|done].
    + apply Forall_forall. intros e He. apply list_elem_of_In in He.
      apply in_map_iff in He as (c & <- & Hc').
      cbn [entryOf SnapshotEntry.snapshotId SnapshotEntry.chefId].
      split; [by apply in_map|by apply Hcs].
Qed.

End Schema.

Section SchemaWriters.

Lemma PUT_run (k : Clock.t) (body : gmap string Q) (s : Store.t) :
  NoDup (chefIds s) ->
  let s1 :=
    withWeights (putRows body categories (Store.scoringWeights s)) s in
  ScoringRoute.PUT k body s
  = (withChefs (map (rankChef 0 (ranking k s1)) (Store.chefs s1)) s1,
     Some (weightsOf s1)).
Proof.
  intros Hnd s1. unfold ScoringRoute.PUT, mbind, M_bind, bind.
  change ["formalAccolades"; "careerTrack"; "publicSignals"; "peerStanding"]
    with categories.
  rewrite forEach_upserts. fold s1.
  rewrite recalculateAllScores_run by done.
  by rewrite getWeights_run.
Qed.

Lemma POST_store (k : Clock.t) (body : SnapshotsRoute.Body) (s : Store.t) :
  NoDup (chefIds s) ->
  (SnapshotsRoute.POST k body s).1 = s
  \/ exists month notes,
       (SnapshotsRoute.POST k body s).1
       = (createMonthlySnapshot k month notes s).1.
Proof.
  intros Hnd. unfold SnapshotsRoute.POST.
  destruct (SnapshotsRoute.month body) as [m|]; [|by left].
  destruct (String.eqb m "" || negb (JS.testMonthPattern m)); [by left|].
  right. exists m, (SnapshotsRoute.notes body).
  unfold mbind, M_bind, bind.
  rewrite (createMonthlySnapshot_run k m _ s Hnd). reflexivity.
Qed.

End SchemaWriters.

(** X20.  Every writer of the model keeps the constraints of the schema:
    from a store that satisfies the primary keys, the unique indexes and
    the foreign keys of the four tables, [recalculateAllScores],
    [createMonthlySnapshot], [POST /api/snapshots], [PUT /api/scoring] and
    the snapshot check of the health route each end in a store that
    satisfies them. *)
Theorem writers_keep_schema (k : Clock.t) (s : Store.t) :
  schemaOk s ->
  schemaOk (recalculateAllScores k s).1
  /\ (forall month notes, schemaOk (createMonthlySnapshot k month notes s).1)
  /\ (forall body, schemaOk (SnapshotsRoute.POST k body s).1)
  /\ (forall body, schemaOk (ScoringRoute.PUT k body s).1)
  /\ schemaOk (E2E.snapshotTest k s).1.
Proof.
  intros Hs. pose proof Hs as (Hc & Hw & Hi & Hm & Hk & Hf).
  split; [|split; [|split; [|split]]].
  - rewrite recalculateAllScores_run by done. by apply schemaOk_after_batch.
  - intros month notes. by apply schemaOk_after_publish.
  - intros body. destruct (POST_store k body s Hc) as [->|(m & n & ->)];
      [done|by apply schemaOk_after_publish].
  - intros body. pose proof (PUT_run k body s Hc) as R. cbv zeta in R.
    rewrite R. cbn [fst]. apply schemaOk_after_batch.
    unfold schemaOk, withWeights, chefIds, snapshotIds, months.
    cbn [Store.chefs Store.scoringWeights Store.monthlySnapshots
           Store.snapshotEntries].
    split; [done|]. split; [by apply putRows_categories|done].
  - rewrite snapshotTest_run by done. cbn [fst].
    destruct (upsertMonth_ids E2E.testMonth (Some E2E.testNotes)
                (Clock.now k) _ Hi) as [Hi' Hsub].
    destruct (upsertMonth_spec E2E.testMonth (Some E2E.testNotes)
                (Clock.now k) (Store.monthlySnapshots s))
      as (_ & _ & _ & Hone).
    destruct (Hone Hm) as [Hm' _].
    set (up := Prisma.upsertMonth E2E.testMonth (Some E2E.testNotes)
                 (Clock.now k) (Store.monthlySnapshots s)) in *.
    unfold schemaOk, chefIds, snapshotIds, months.
    cbn [Store.chefs Store.scoringWeights Store.monthlySnapshots
           Store.snapshotEntries withChefs].
    assert (Hids : map Chef.id
                     (map (rankChef 0 (ranking k s)) (Store.chefs s))
                   = chefIds s) by apply chefIds_after.
    rewrite Hids.
    split; [done|]. split; [done|].
    split; [by apply NoDup_map_filter|].
    split; [by apply NoDup_map_filter|].
    split; [by apply NoDup_map_filter|].
    apply Forall_forall. intros e He. apply list_elem_of_In in He.
    apply List.filter_In in He as [He Hn].
    rewrite Forall_forall in Hf.
    destruct (Hf e) as [F1 F2]; [by apply list_elem_of_In|].
    split; [|done].
    apply Hsub in F1. apply in_map_iff in F1 as (m & E & Hin).
    apply in_map_iff. exists m. split; [done|].
    apply List.filter_In. split; [done|].
    unfold Prisma.ofSnapshot in Hn. by rewrite E.
Qed.

Lemma writers_keep_schema_witness :
  schemaOk sampleStore
  /\ schemaOk
       (createMonthlySnapshot sampleClock "2026-01" None sampleStore).1.
Proof.
  assert (H : schemaOk sampleStore).
  { repeat split;
      try (apply (bool_decide_unpack _); vm_compute; exact I);
      constructor. }
  split; [exact H|].
  apply (proj1 (proj2 (writers_keep_schema sampleClock sampleStore H))).
Defined.

(** ** Publishing a month twice *)

Section Republish.

Lemma ltb_irrefl (a : string) : String.ltb a a = false.
Proof.
  unfold String.ltb. pose proof (String.compare_antisym a a) as E.
  by destruct (String.compare a a).
Qed.

Lemma find_map_upd {A} (p : A -> bool) (f : A -> A) (l : list A) :
  (forall x, p (f x) = p x) ->
  List.find p (map (fun x => if p x then f x else x) l)
  = f <$> List.find p l.
Proof.
  intros Hp. induction l as [|x r IH]; [done|]. cbn [map List.find].
  destruct (p x) eqn:E; [by rewrite Hp, E|]. by rewrite E.
Qed.

Lemma upsertMonth_twice
    (month : string) (notes : option string) (now : Z)
    (rows : list MonthlySnapshot.t) :
  Prisma.upsertMonth month notes now (Prisma.upsertMonth month notes now rows).1
  = Prisma.upsertMonth month notes now rows.
Proof.
  unfold Prisma.upsertMonth at 2 3.
  destruct (List.find (Prisma.hasMonth month) rows) as [old|] eqn:F;
    cbn [fst snd].
  - set (upd := fun m =>
                  MonthlySnapshot.mk (MonthlySnapshot.id m)
                    (MonthlySnapshot.month m) (Some now)
                    match notes with
                    | Some n => Some n
                    | None => MonthlySnapshot.notes m
                    end).
    unfold Prisma.upsertMonth.
    rewrite (find_map_upd (Prisma.hasMonth month) upd) by done.
    rewrite F. cbn [fmap option_fmap option_map]. fold upd.
    assert (U : forall m, upd (upd m) = upd m).
    { intros m. unfold upd. cbn. by destruct notes. }
    f_equal; [|exact (U old)].
    rewrite map_map. apply map_ext. intros m.
    destruct (Prisma.hasMonth month m) eqn:E; [|by rewrite E].
    unfold Prisma.hasMonth at 1. cbn [MonthlySnapshot.month].
    unfold Prisma.hasMonth in E. rewrite E. exact (U m).
  - set (new := MonthlySnapshot.mk (freshId (map MonthlySnapshot.id rows))
                  month (Some now) notes).
    assert (Hnew : Prisma.hasMonth month new = true)
      by apply String.eqb_refl.
    unfold Prisma.upsertMonth. rewrite find_app, F.
    cbn [List.find]. rewrite Hnew. f_equal; [|by destruct notes].
    rewrite map_app. cbn [map]. rewrite Hnew. f_equal.
    + rewrite <- (map_id rows) at 2. apply map_ext_in. intros m Hm.
      destruct (Prisma.hasMonth month m) eqn:E; [|done].
      by rewrite (find_none _ _ F m Hm) in E.
    + by destruct notes.
Qed.

Lemma earlier_after_upsert
    (month : string) (notes : option string) (now : Z)
    (rows : list MonthlySnapshot.t) :
  List.filter (fun m => String.ltb (MonthlySnapshot.month m) month)
    (Prisma.upsertMonth month notes now rows).1
  = List.filter (fun m => String.ltb (MonthlySnapshot.month m) month) rows.
Proof.
  unfold Prisma.upsertMonth.
  destruct (List.find (Prisma.hasMonth month) rows) as [old|] eqn:F;
    cbn [fst].
  - apply filter_map_cond. intros m Hm. split.
    + by destruct (Prisma.hasMonth month m).
    + intros Hlt. destruct (Prisma.hasMonth month m) eqn:E; [|done].
      apply String.eqb_eq in E. rewrite E, ltb_irrefl in Hlt. done.
  - rewrite List.filter_app. cbn [List.filter MonthlySnapshot.month].
    by rewrite ltb_irrefl, app_nil_r.
Qed.

Lemma filter_In_false {A} (p : A -> bool) (l : list A) :
  (forall x, In x l -> p x = false) -> List.filter p l = [].
Proof.
  induction l as [|x r IH]; intros H; [done|]. cbn [List.filter].
  rewrite (H x) by (by left). apply IH. intros y Hy. apply H. by right.
Qed.

Lemma upsertMonth_keeps
    (month : string) (notes : option string) (now : Z)
    (rows : list MonthlySnapshot.t) (p : MonthlySnapshot.t) :
  In p rows ->
  exists p',
    In p' (Prisma.upsertMonth month notes now rows).1
    /\ MonthlySnapshot.id p' = MonthlySnapshot.id p
    /\ MonthlySnapshot.month p' = MonthlySnapshot.month p.
Proof.
  intros Hp. unfold Prisma.upsertMonth.
  destruct (List.find (Prisma.hasMonth month) rows) as [old|]; cbn [fst].
  - eexists. split; [apply in_map_iff; exists p; split; [reflexivity|done]|].
    by destruct (Prisma.hasMonth month p).
  - exists p. split; [|done]. apply in_or_app. by left.
Qed.

Lemma firstBefore_after_publish
    (month : string) (notes : option string) (now : Z) (s : Store.t)
    (cs : list Chef.t) (news : list SnapshotEntry.t) :
  NoDup (snapshotIds s) ->
  let up := Prisma.upsertMonth month notes now (Store.monthlySnapshots s) in
  (forall e, In e news ->
     SnapshotEntry.snapshotId e = MonthlySnapshot.id up.2) ->
  Prisma.firstBefore month
    (Store.mk cs (Store.scoringWeights s) up.1
       (List.filter
          (fun e => negb (Prisma.ofSnapshot (MonthlySnapshot.id up.2) e))
          (Store.snapshotEntries s)
        ++ news))
  = Prisma.firstBefore month s.
Proof.
  intros Hids up Hnews. unfold Prisma.firstBefore.
  cbn [Store.monthlySnapshots Store.snapshotEntries]. unfold up at 1.
  rewrite earlier_after_upsert.
  pose proof (latest_spec
                (List.filter
                   (fun m => String.ltb (MonthlySnapshot.month m) month)
                   (Store.monthlySnapshots s))) as L.
  destruct (Prisma.latest _) as [p|]; [|done].
  destruct L as [Hp _]. apply List.filter_In in Hp as [Hp Hlt].
  do 2 f_equal.
  assert (N : MonthlySnapshot.id p <> MonthlySnapshot.id up.2).
  { intros E.
    destruct (upsertMonth_keeps month notes now _ p Hp)
      as (p' & Hp' & Hid & Hmo).
    destruct (upsertMonth_ids month notes now _ Hids) as [Hnd' _].
    destruct (upsertMonth_spec month notes now (Store.monthlySnapshots s))
      as (Hin & Hmonth & _).
    fold up in Hp', Hnd', Hin, Hmonth.
    assert (p' = up.2).
    { apply (NoDup_map_inj MonthlySnapshot.id up.1); try done. congruence. }
    subst p'. rewrite <- Hmo, Hmonth, ltb_irrefl in Hlt. done. }
  rewrite List.filter_app, filter_ofSnapshot_others.
  apply String.eqb_neq in N. rewrite String.eqb_sym in N. rewrite N.
  rewrite (filter_In_false _ news); [by rewrite app_nil_r|].
  intros e He. unfold Prisma.ofSnapshot. by rewrite (Hnews e He).
Qed.

End Republish.

(** X21.  Publishing a month a second time at the same clock reading, with
    the same notes, changes nothing: the second call of
    [createMonthlySnapshot] returns the identifier of the first and leaves
    the store exactly as the first left it. *)
Theorem createMonthlySnapshot_twice
    (k : Clock.t) (month : string) (notes : option string) (s : Store.t) :
  NoDup (chefIds s) -> NoDup (snapshotIds s) ->
  exists s' sid,
    createMonthlySnapshot k month notes s = (s', Some sid)
    /\ createMonthlySnapshot k month notes s' = (s', Some sid).
Proof.
  intros Hnd Hids.
  rewrite (createMonthlySnapshot_run k month notes s Hnd).
  eexists _, _. split; [reflexivity|].
  set (s1 := withChefs (map (rankChef 0 (ranking k s)) (Store.chefs s)) s).
  set (up := Prisma.upsertMonth month notes (Clock.now k)
               (Store.monthlySnapshots s)).
  set (sid := MonthlySnapshot.id up.2).
  set (news := map (entryOf k (weightsOf s)
                      (prevRankMap (Prisma.firstBefore month s)) sid)
                 (chefsByRank s1)).
  set (s' := Store.mk _ _ _ _).
  assert (Hnd' : NoDup (chefIds s')).
  { change (chefIds s') with (chefIds s1). unfold s1.
    by rewrite chefIds_after. }
  pose proof (createMonthlySnapshot_run k month notes s' Hnd') as R.
  cbv zeta in R. rewrite R. clear R.
  assert (F : withChefs (map (rankChef 0 (ranking k s')) (Store.chefs s')) s'
              = s').
  { change (ranking k s') with (ranking k s1).
    unfold s1 at 1. rewrite ranking_after.
    change (Store.chefs s') with (map (rankChef 0 (ranking k s)) (Store.chefs s)).
    rewrite rerank_fixed. reflexivity. }
  rewrite F.
  change (Store.monthlySnapshots s') with up.1.
  assert (T : Prisma.upsertMonth month notes (Clock.now k) up.1 = up)
    by apply upsertMonth_twice.
  rewrite T. fold sid.
  assert (Hnews : forall e, In e news ->
                    SnapshotEntry.snapshotId e = MonthlySnapshot.id up.2).
  { intros e He. apply in_map_iff in He as (c & <- & _). reflexivity. }
  pose proof (firstBefore_after_publish month notes (Clock.now k) s
                (Store.chefs s1) news Hids) as P.
  cbv zeta in P. specialize (P Hnews). fold up in P. fold sid in P.
  change (Prisma.firstBefore month s') with
    (Prisma.firstBefore month
       (Store.mk (Store.chefs s1) (Store.scoringWeights s) up.1
          (List.filter (fun e => negb (Prisma.ofSnapshot sid e))
             (Store.snapshotEntries s) ++ news))).
  rewrite P.
  change (weightsOf s') with (weightsOf s).
  change (chefsByRank s') with (chefsByRank s1). fold news.
  change (Store.snapshotEntries s')
    with (List.filter (fun e => negb (Prisma.ofSnapshot sid e))
            (Store.snapshotEntries s) ++ news).
  rewrite List.filter_app, filter_negb_twice.
  rewrite (filter_negb_none (Prisma.ofSnapshot sid) news).
  2:{ intros e He. unfold Prisma.ofSnapshot. rewrite (Hnews e He).
      apply String.eqb_refl. }
  rewrite app_nil_r. reflexivity.
Qed.

Lemma createMonthlySnapshot_twice_witness :
  exists s' sid,
    createMonthlySnapshot sampleClock "2026-01" None sampleStore
    = (s', Some sid)
    /\ createMonthlySnapshot sampleClock "2026-01" None s' = (s', Some sid).
Proof.
  assert (H : NoDup (chefIds sampleStore))
    by (apply (bool_decide_unpack _); vm_compute; exact I).
  exact (createMonthlySnapshot_twice sampleClock "2026-01" None sampleStore H
           (NoDup_nil_2 (A:=string))).
Defined.

(** ** More data never lowers a score *)

Section Monotone.
Local Open Scope Q_scope.

Lemma sublist_filter {A} (p : A -> bool) (l1 l2 : list A) :
  sublist l1 l2 -> sublist (List.filter p l1) (List.filter p l2).
Proof.
  induction 1 as [|x l1 l2 H IH|x l1 l2 H IH]; cbn [List.filter].
  - constructor.
  - destruct (p x); [by constructor|done].
  - destruct (p x); [by constructor|done].
Qed.

Lemma sublist_existsb {A} (p : A -> bool) (l1 l2 : list A) :
  sublist l1 l2 -> existsb p l1 = true -> existsb p l2 = true.
Proof.
  induction 1 as [|x l1 l2 H IH|x l1 l2 H IH]; cbn [existsb]; [done| |].
  - destruct (p x); [done|]. exact IH.
  - intros E. rewrite (IH E). apply orb_true_r.
Qed.

Lemma signalSum_acc (l : list PublicSignal.t) (a b : Q) :
  a <= b ->
  fold_left (fun sum s => sum + JS.orZero (PublicSignal.value s)) l a
  <= fold_left (fun sum s => sum + JS.orZero (PublicSignal.value s)) l b.
Proof.
  revert a b. induction l as [|s l IH]; intros a b H; [exact H|].
  cbn [fold_left]. apply IH. lra.
Qed.

Lemma signalSum_sublist (l1 l2 : list PublicSignal.t) (a : Q) :
  sublist l1 l2 ->
  (forall s v, In s l2 -> PublicSignal.value s = Some v -> 0 <= v) ->
  fold_left (fun sum s => sum + JS.orZero (PublicSignal.value s)) l1 a
  <= fold_left (fun sum s => sum + JS.orZero (PublicSignal.value s)) l2 a.
Proof.
  intros H. revert a.
  induction H as [|x l1 l2 H IH|x l1 l2 H IH]; intros a Hv.
  - apply Qle_refl.
  - cbn [fold_left]. apply IH. intros s v Hs. apply Hv. by right.
  - cbn [fold_left].
    eapply Qle_trans; [apply IH; intros s v Hs; apply Hv; by right|].
    apply signalSum_acc.
    assert (0 <= JS.orZero (PublicSignal.value x)).
    { destruct (PublicSignal.value x) as [v|] eqn:E; cbn; [|apply Qle_refl].
      apply (Hv x v); [by left|exact E]. }
    lra.
Qed.

Lemma scoreAccoladeType_sublist
    (l1 l2 : list Accolade.t) (ty : string) (m : Q) :
  sublist l1 l2 -> 0 <= m ->
  scoreAccoladeType l1 ty m <= scoreAccoladeType l2 ty m.
Proof.
  intros H Hm. unfold scoreAccoladeType.
  pose proof (sublist_existsb (isType ty) l1 l2 H) as E.
  destruct (existsb (isType ty) l1); [by rewrite E; [apply Qle_refl|]|].
  by destruct (existsb (isType ty) l2).
Qed.

Lemma scoreMichelinStars_sublist (l1 l2 : list Accolade.t) :
  sublist l1 l2 -> scoreMichelinStars l1 <= scoreMichelinStars l2.
Proof.
  intros H. rewrite !scoreMichelinStars_closed.
  pose proof (sublist_existsb (michelinWith 3) l1 l2 H) as E3.
  pose proof (sublist_existsb (michelinWith 2) l1 l2 H) as E2.
  pose proof (sublist_existsb (isType "MICHELIN_STAR") l1 l2 H) as E1.
  destruct (existsb (michelinWith 3) l1); [by rewrite E3; [apply Qle_refl|]|].
  destruct (existsb (michelinWith 2) l1).
  { rewrite E2 by done. by destruct (existsb (michelinWith 3) l2). }
  destruct (existsb (isType "MICHELIN_STAR") l1).
  { rewrite E1 by done.
    by destruct (existsb (michelinWith 3) l2), (existsb (michelinWith 2) l2). }
  by destruct (existsb (michelinWith 3) l2), (existsb (michelinWith 2) l2),
    (existsb (isType "MICHELIN_STAR") l2).
Qed.

Lemma peerTypeCount_sublist (ty : string) (l1 l2 : list PeerStanding.t) :
  sublist l1 l2 -> (peerTypeCount ty l1 <= peerTypeCount ty l2)%nat.
Proof.
  intros H. unfold peerTypeCount. by apply sublist_length, sublist_filter.
Qed.

Variable k : Clock.t.
Variables chef chef' : ChefRecords.t.
Hypothesis Hmore : moreData chef chef'.

Lemma formalAccoladesRaw_mono :
  formalAccoladesRaw k chef <= formalAccoladesRaw k chef'.
Proof.
  destruct Hmore as (Ha & _).
  assert (S : sublist (recentAccolades k chef) (recentAccolades k chef'))
    by (by apply sublist_filter).
  unfold formalAccoladesRaw, michelinScore, jbScore, w50Score, bocuseScore,
    otherAccoladeScore.
  pose proof (scoreMichelinStars_sublist _ _ S) as M.
  pose proof (scoreAccoladeType_sublist _ _ "JAMES_BEARD" 80 S) as J.
  pose proof (scoreAccoladeType_sublist _ _ "WORLDS_50_BEST" 90 S) as W.
  pose proof (scoreAccoladeType_sublist _ _ "BOCUSE_DOR" 85 S) as B.
  pose proof (scoreAccoladeType_sublist _ _ "OTHER" 30 S) as O.
  pose proof (bonus_mono _ _ (sublist_length _ _ S)) as N.
  apply Q.min_le_compat_l.
  specialize (J ltac:(discriminate)). specialize (W ltac:(discriminate)).
  specialize (B ltac:(discriminate)). specialize (O ltac:(discriminate)).
  pose proof (Q.max_le_compat _ _ _ _ M J) as X1.
  pose proof (Q.max_le_compat _ _ _ _ X1 W) as X2.
  pose proof (Q.max_le_compat _ _ _ _ X2 B) as X3.
  lra.
Qed.

Lemma careerTrackRaw_mono : careerTrackRaw k chef <= careerTrackRaw k chef'.
Proof.
  destruct Hmore as (_ & Hc & _ & _ & Hy).
  assert (S : sublist (recentCareer k chef) (recentCareer k chef'))
    by (by apply sublist_filter).
  unfold careerTrackRaw, yearScore, positionScore, positionCount, roleScore,
    hasExecRole.
  apply Q.min_le_compat_l.
  assert (Y : Qmin 40 (years chef * 2) <= Qmin 40 (years chef' * 2))
    by (apply Q.min_le_compat_l; lra).
  assert (P : Qmin 30 (num (length (recentCareer k chef)) * 6)
              <= Qmin 30 (num (length (recentCareer k chef')) * 6)).
  { apply Q.min_le_compat_l.
    pose proof (num_le _ _ (sublist_length _ _ S)). lra. }
  pose proof (sublist_existsb
                (fun c => execRoleTest (CareerEntry.role c)) _ _ S) as E.
  assert (R : (if existsb (fun c => execRoleTest (CareerEntry.role c))
                    (recentCareer k chef) then 30 else 15)
              <= (if existsb (fun c => execRoleTest (CareerEntry.role c))
                       (recentCareer k chef') then 30 else 15)).
  { destruct (existsb _ (recentCareer k chef));
      [by rewrite E; [apply Qle_refl|]|].
    by destruct (existsb _ (recentCareer k chef')). }
  lra.
Qed.

Lemma publicSignalsRaw_mono :
  (forall s v, In s (ChefRecords.publicSignals chef') ->
               PublicSignal.value s = Some v -> 0 <= v) ->
  publicSignalsRaw k chef <= publicSignalsRaw k chef'.
Proof.
  intros Hv. destruct Hmore as (_ & _ & Hs & _).
  assert (S : sublist (recentSignals k chef) (recentSignals k chef'))
    by (by apply sublist_filter).
  unfold publicSignalsRaw, signalCount, totalSignalValue.
  apply Q.min_le_compat_l.
  pose proof (num_le _ _ (sublist_length _ _ S)) as N.
  assert (T : fold_left (fun sum s => sum + JS.orZero (PublicSignal.value s))
                (recentSignals k chef) 0
              <= fold_left
                   (fun sum s => sum + JS.orZero (PublicSignal.value s))
                   (recentSignals k chef') 0).
  { apply signalSum_sublist; [done|]. intros s v Hin. apply Hv.
    unfold recentSignals in Hin. by apply List.filter_In in Hin as [Hin _]. }
  assert (M : Qmin 50
                (fold_left
                   (fun sum s => sum + JS.orZero (PublicSignal.value s))
                   (recentSignals k chef) 0 / 10000)
              <= Qmin 50
                   (fold_left
                      (fun sum s => sum + JS.orZero (PublicSignal.value s))
                      (recentSignals k chef') 0 / 10000)).
  { apply Q.min_le_compat_l. unfold Qdiv.
    apply Qmult_le_compat_r; [exact T|discriminate]. }
  lra.
Qed.

Lemma peerStandingRaw_mono :
  peerStandingRaw k chef <= peerStandingRaw k chef'.
Proof.
  destruct Hmore as (_ & _ & _ & Hp & _).
  assert (S : sublist (recentPeers k chef) (recentPeers k chef'))
    by (by apply sublist_filter).
  unfold peerStandingRaw, peerCount, mentored, collabs, endorsements.
  apply Q.min_le_compat_l.
  pose proof (num_le _ _ (sublist_length _ _ S)).
  pose proof (num_le _ _ (peerTypeCount_sublist "MENTORED" _ _ S)).
  pose proof (num_le _ _ (peerTypeCount_sublist "COLLABORATION" _ _ S)).
  pose proof (num_le _ _ (peerTypeCount_sublist "ENDORSEMENT" _ _ S)).
  lra.
Qed.

End Monotone.

(** X22.  More data never lowers a score.  When a chef gains records of
    any kind, or experience, and none of the chef's public signals has a
    negative value, no category of the breakdown goes down; with weights
    that are not negative the total does not go down either. *)
Theorem breakdown_monotone_in_records
    (k : Clock.t) (chef chef' : ChefRecords.t) (w : gmap string Q) :
  moreData chef chef' ->
  (forall s v, In s (ChefRecords.publicSignals chef') ->
               PublicSignal.value s = Some v -> (0 <= v)%Q) ->
  (ScoreBreakdown.formalAccolades (calculateBreakdown k chef)
   <= ScoreBreakdown.formalAccolades (calculateBreakdown k chef'))%Q
  /\ (ScoreBreakdown.careerTrack (calculateBreakdown k chef)
      <= ScoreBreakdown.careerTrack (calculateBreakdown k chef'))%Q
  /\ (ScoreBreakdown.publicSignals (calculateBreakdown k chef)
      <= ScoreBreakdown.publicSignals (calculateBreakdown k chef'))%Q
  /\ (ScoreBreakdown.peerStanding (calculateBreakdown k chef)
      <= ScoreBreakdown.peerStanding (calculateBreakdown k chef'))%Q
  /\ (weightsNonneg w ->
      (calculateTotalScore (calculateBreakdown k chef) w
       <= calculateTotalScore (calculateBreakdown k chef') w)%Q).
Proof.
  intros Hmore Hv.
  pose proof (round1_mono _ _ (formalAccoladesRaw_mono k chef chef' Hmore))
    as F.
  pose proof (round1_mono _ _ (careerTrackRaw_mono k chef chef' Hmore)) as C.
  pose proof (round1_mono _ _ (publicSignalsRaw_mono k chef chef' Hmore Hv))
    as P.
  pose proof (round1_mono _ _ (peerStandingRaw_mono k chef chef' Hmore)) as S.
  cbn [calculateBreakdown ScoreBreakdown.formalAccolades
         ScoreBreakdown.careerTrack ScoreBreakdown.publicSignals
         ScoreBreakdown.peerStanding].
  split; [exact F|]. split; [exact C|]. split; [exact P|]. split; [exact S|].
  intros (W1 & W2 & W3 & W4). unfold calculateTotalScore.
  cbn [calculateBreakdown ScoreBreakdown.formalAccolades
         ScoreBreakdown.careerTrack ScoreBreakdown.publicSignals
         ScoreBreakdown.peerStanding].
  apply round1_mono.
  apply Qplus_le_compat; [apply Qplus_le_compat; [apply Qplus_le_compat|]|];
    by apply Qmult_le_compat_r.
Qed.

Lemma breakdown_monotone_in_records_witness :
  (ScoreBreakdown.careerTrack
     (calculateBreakdown sampleClock (ChefRecords.mk [] [] [] [] (Some 3%Z)))
   <= ScoreBreakdown.careerTrack
        (calculateBreakdown sampleClock
           (ChefRecords.mk []
              [CareerEntry.mk true None None "Executive Chef" 0] [] []
              (Some 5%Z))))%Q.
Proof.
  refine (proj1 (proj2
            (breakdown_monotone_in_records sampleClock
               (ChefRecords.mk [] [] [] [] (Some 3%Z))
               (ChefRecords.mk []
                  [CareerEntry.mk true None None "Executive Chef" 0] [] []
                  (Some 5%Z))
               DEFAULT_WEIGHTS _ _))).
  - unfold moreData. cbn [ChefRecords.accolades ChefRecords.careerEntries
      ChefRecords.publicSignals ChefRecords.peerStandings].
    repeat split; try apply sublist_nil_l. vm_compute. discriminate.
  - intros s v [].
Defined.
